(** * caloreat: nutrition reconciliation and aggregation pipeline

    A shallow embedding of the pure core of the front end:

    - [normalize], the matcher and the reconciliation loop of
      [analyzeItemsBackend] and [handleAnalyzeToday]
      (frontend/src/DailyLogPage.jsx);
    - the two status pollers, [pollForSummary] (DailyLogPage.jsx,
      ActivityGraph.jsx) and [generateDailySummary] (firebaseHelpers.js);
    - [computeBMR], [activityFactor], [computeGoals], [extractMealMacros],
      the totals of today and [computeStreaksFromLogs] (frontend/src/App.js).

    JavaScript strings are modelled by [string] (code units below 256),
    JavaScript numbers by [jsnum]: NaN, the two infinities and the finite
    values, the latter as exact rationals.  The local time zone is a
    parameter [Dates.Zone] of what reads the local calendar, and a loop
    without a bound takes the number of its turns. *)

From Stdlib Require Import ZArith QArith Qround Bool List Ascii String Lia.
From Stdlib Require Import Permutation Sorted.
Import ListNotations.

Local Open Scope string_scope.
Local Open Scope Z_scope.

(* ===================================================================== *)
(** ** JavaScript strings *)
(* ===================================================================== *)

Module JsString.

(** Code unit of a character. *)
Definition code (c : ascii) : N := N_of_ascii c.

(** White space and line terminators of [String.prototype.trim] and of the
    regular expression class [\s]: TAB, LF, VT, FF, CR, SP and NBSP are the
    ones below 256. *)
Definition is_ws (c : ascii) : bool :=
  let n := code c in
  (((9 <=? n) && (n <=? 13)) || (n =? 32) || (n =? 160))%N.

Definition is_digit (c : ascii) : bool :=
  let n := code c in ((48 <=? n) && (n <=? 57))%N.

Definition is_lower (c : ascii) : bool :=
  let n := code c in ((97 <=? n) && (n <=? 122))%N.

(** The class [[a-z0-9 ]]. *)
Definition is_alnum_space (c : ascii) : bool :=
  is_lower c || is_digit c || (code c =? 32)%N.

(** [toLowerCase] on one code unit: A-Z, and the Latin-1 capitals
    U+00C0..U+00DE except the multiplication sign U+00D7. *)
Definition lower_char (c : ascii) : ascii :=
  let n := code c in
  if (((65 <=? n) && (n <=? 90))
      || ((192 <=? n) && (n <=? 222) && negb (n =? 215)))%N
  then ascii_of_N (n + 32) else c.

Fixpoint toLowerCase (s : string) : string :=
  match s with
  | EmptyString => EmptyString
  | String c r => String (lower_char c) (toLowerCase r)
  end.

Fixpoint trimStart (s : string) : string :=
  match s with
  | EmptyString => EmptyString
  | String c r => if is_ws c then trimStart r else s
  end.

Fixpoint trimEnd (s : string) : string :=
  match s with
  | EmptyString => EmptyString
  | String c r =>
      match trimEnd r with
      | EmptyString => if is_ws c then EmptyString else String c EmptyString
      | r' => String c r'
      end
  end.

Definition trim (s : string) : string := trimEnd (trimStart s).

(** [s.replace(/[^a-z0-9 ]/g, "")]. *)
Fixpoint strip_non_alnum (s : string) : string :=
  match s with
  | EmptyString => EmptyString
  | String c r =>
      if is_alnum_space c then String c (strip_non_alnum r)
      else strip_non_alnum r
  end.

(** [s.replace(/\s+/g, " ")]: every maximal run of white space becomes one
    space; [in_run] tells that the previous character was white space. *)
Fixpoint collapse_ws_from (in_run : bool) (s : string) : string :=
  match s with
  | EmptyString => EmptyString
  | String c r =>
      if is_ws c then
        if in_run then collapse_ws_from true r
        else String " " (collapse_ws_from true r)
      else String c (collapse_ws_from false r)
  end.

Definition collapse_ws (s : string) : string := collapse_ws_from false s.

(** [s.startsWith(p)]. *)
Definition startsWith (s p : string) : bool := String.prefix p s.

(** [s.includes(t)]. *)
Fixpoint includes (s t : string) : bool :=
  String.prefix t s ||
  match s with
  | EmptyString => false
  | String _ r => includes r t
  end.

(** [s.split("-")]. *)
Fixpoint split_dash_from (cur : string) (s : string) : list string :=
  match s with
  | EmptyString => [cur]
  | String c r =>
      if (code c =? 45)%N then cur :: split_dash_from EmptyString r
      else split_dash_from (cur ++ String c EmptyString) r
  end.

Definition split_dash (s : string) : list string :=
  split_dash_from EmptyString s.

(** The regular expression test [/item-(\d+)/.test(s)]: somewhere in [s]
    the text [item-] is followed by a digit. *)
Definition starts_item_digit (s : string) : bool :=
  String.prefix "item-" s &&
  match String.get 5 s with
  | Some c => is_digit c
  | None => false
  end.

Fixpoint test_item_digits (s : string) : bool :=
  starts_item_digit s ||
  match s with
  | EmptyString => false
  | String _ r => test_item_digits r
  end.

(** Truthiness of a string. *)
Definition nonempty (s : string) : bool :=
  match s with EmptyString => false | _ => true end.

(** A string property that may be absent ([None] is undefined or null):
    the default of a destructured parameter, [s = d]. *)
Definition str_default (s : option string) (d : string) : string :=
  match s with Some x => x | None => d end.

(** [s || d] for a string property that may be absent. *)
Definition str_or (s : option string) (d : string) : string :=
  match s with
  | Some x => if nonempty x then x else d
  | None => d
  end.

End JsString.

Import JsString.

(* ===================================================================== *)
(** ** The name normalizer (DailyLogPage.jsx, line 577) *)
(* ===================================================================== *)

(** [(s || "").toString().trim().toLowerCase()
      .replace(/[^a-z0-9 ]/g, "").replace(/\s+/g, " ")] *)
Definition normalize (s : string) : string :=
  collapse_ws (strip_non_alnum (toLowerCase (trim s))).

(* ===================================================================== *)
(** ** JavaScript numbers and values *)
(* ===================================================================== *)

Module JsValue.

Set Warnings "-register-all".

(** A JavaScript number: NaN, +Infinity, -Infinity or a finite value.
    Finite arithmetic is exact: there is one zero, a sum or a product is
    not rounded to a double and does not overflow.  The class of a
    number read from a text ([literal_value]) is that of its double.  A
    statement that depends on the value of a sum or of a product, and not
    only on its class, holds for the program where the doubles are
    exact or bounded, which the statement then says. *)
Inductive jsnum : Type :=
| NaN
| PInf
| NInf
| Fin (q : Q).

Definition is_nan (n : jsnum) : bool :=
  match n with NaN => true | _ => false end.

Definition is_finite (n : jsnum) : bool :=
  match n with Fin _ => true | _ => false end.

(** Truthiness of a number: NaN and 0 are falsy. *)
Definition num_truthy (n : jsnum) : bool :=
  match n with
  | NaN => false
  | Fin q => negb (Qeq_bool q 0)
  | _ => true
  end.

Definition of_Z (z : Z) : jsnum := Fin (inject_Z z).

Definition jneg (a : jsnum) : jsnum :=
  match a with
  | NaN => NaN
  | PInf => NInf
  | NInf => PInf
  | Fin q => Fin (- q)
  end.

(** [a + b]. *)
Definition jadd (a b : jsnum) : jsnum :=
  match a, b with
  | NaN, _ | _, NaN => NaN
  | PInf, NInf | NInf, PInf => NaN
  | PInf, _ | _, PInf => PInf
  | NInf, _ | _, NInf => NInf
  | Fin x, Fin y => Fin (x + y)
  end.

(** [a - b]. *)
Definition jsub (a b : jsnum) : jsnum := jadd a (jneg b).

(** An infinity of the sign of [q] times the sign [pos]; NaN for [q = 0]. *)
Definition inf_times (pos : bool) (q : Q) : jsnum :=
  match (q ?= 0)%Q with
  | Eq => NaN
  | Gt => if pos then PInf else NInf
  | Lt => if pos then NInf else PInf
  end.

(** [a * b]. *)
Definition jmul (a b : jsnum) : jsnum :=
  match a, b with
  | NaN, _ | _, NaN => NaN
  | PInf, PInf | NInf, NInf => PInf
  | PInf, NInf | NInf, PInf => NInf
  | PInf, Fin q | Fin q, PInf => inf_times true q
  | NInf, Fin q | Fin q, NInf => inf_times false q
  | Fin x, Fin y => Fin (x * y)
  end.

(** [a / d] for a finite positive constant [d]. *)
Definition jdiv_pos (a : jsnum) (d : Q) : jsnum :=
  match a with
  | Fin x => Fin (x / d)
  | other => other
  end.

(** [Math.max(a, b)]. *)
Definition jmax (a b : jsnum) : jsnum :=
  match a, b with
  | NaN, _ | _, NaN => NaN
  | PInf, _ | _, PInf => PInf
  | NInf, x | x, NInf => x
  | Fin x, Fin y => if Qle_bool x y then Fin y else Fin x
  end.

(** [Math.round(a)]: the integer nearest to [a], halves upwards. *)
Definition Math_round (a : jsnum) : jsnum :=
  match a with
  | Fin q => of_Z (Qfloor (q + (1 # 2)))
  | other => other
  end.

(** [a > 0]. *)
Definition jpositive (a : jsnum) : bool :=
  match a with
  | PInf => true
  | Fin q => negb (Qle_bool q 0)
  | _ => false
  end.

(** [a === b] on numbers (NaN differs from itself). *)
Definition jnum_eqb (a b : jsnum) : bool :=
  match a, b with
  | PInf, PInf | NInf, NInf => true
  | Fin x, Fin y => Qeq_bool x y
  | _, _ => false
  end.

(** A JavaScript value, as it comes out of JSON or of a Firestore
    document. *)
Inductive jsval : Type :=
| JUndefined
| JNull
| JBool (b : bool)
| JNum (n : jsnum)
| JStr (s : string)
| JObj (props : list (string * jsval)).

Definition jsobj : Type := list (string * jsval).

Definition truthy (v : jsval) : bool :=
  match v with
  | JUndefined | JNull => false
  | JBool b => b
  | JNum n => num_truthy n
  | JStr s => nonempty s
  | JObj _ => true
  end.

(** [a ?? b]. *)
Definition coalesce (a b : jsval) : jsval :=
  match a with
  | JUndefined | JNull => b
  | _ => a
  end.

(** [a || b]. *)
Definition js_or (a b : jsval) : jsval := if truthy a then a else b.

Fixpoint lookup (k : string) (ps : jsobj) : jsval :=
  match ps with
  | [] => JUndefined
  | (k', v) :: r => if String.eqb k k' then v else lookup k r
  end.

(** [o.k] for a value that is not null or undefined; a primitive has none
    of the properties read here. *)
Definition prop (o : jsval) (k : string) : jsval :=
  match o with
  | JObj ps => lookup k ps
  | _ => JUndefined
  end.

(** [o?.k]. *)
Definition opt_prop (o : jsval) (k : string) : jsval := prop o k.

(** Assignment of a property: an existing key keeps its place. *)
Fixpoint obj_set (k : string) (v : jsval) (ps : jsobj) : jsobj :=
  match ps with
  | [] => [(k, v)]
  | (k', v') :: r =>
      if String.eqb k k' then (k, v) :: r else (k', v') :: obj_set k v r
  end.

(** The object literal [{ ...base, ...over }]. *)
Definition spread (base over : jsobj) : jsobj :=
  fold_left (fun acc kv => obj_set (fst kv) (snd kv) acc) over base.

(** *** String to number *)

Fixpoint span_digits (s : string) : string * string :=
  match s with
  | EmptyString => (EmptyString, EmptyString)
  | String c r =>
      if is_digit c then
        let (d, rest) := span_digits r in (String c d, rest)
      else (EmptyString, s)
  end.

(** Value of a digit of base up to 16, if it is one. *)
Definition digit_of (c : ascii) : option Z :=
  let n := Z.of_N (code c) in
  if (48 <=? n) && (n <=? 57) then Some (n - 48)
  else if (97 <=? n) && (n <=? 102) then Some (n - 87)
  else if (65 <=? n) && (n <=? 70) then Some (n - 55)
  else None.

(** All of [s] read in base [b]; [None] when a character is not a digit of
    that base. *)
Fixpoint digits_in_base (b : Z) (acc : Z) (s : string) : option Z :=
  match s with
  | EmptyString => Some acc
  | String c r =>
      match digit_of c with
      | Some d => if d <? b then digits_in_base b (b * acc + d) r else None
      | None => None
      end
  end.

Definition digits_value (s : string) : Z :=
  match digits_in_base 10 0 s with Some z => z | None => 0 end.

Definition pow10 (e : Z) : Q :=
  if 0 <=? e then inject_Z (10 ^ e) else (/ inject_Z (10 ^ (- e)))%Q.

(** The exponent part [[eE][+-]?digits], or nothing, up to the end. *)
Definition parse_exponent (s : string) : option Z :=
  match s with
  | EmptyString => Some 0
  | String c r =>
      if ((code c =? 101) || (code c =? 69))%N then
        let '(sg, r1) :=
          match r with
          | String "+" r' => (1, r')
          | String "-" r' => (-1, r')
          | _ => (1, r)
          end in
        let (ds, r2) := span_digits r1 in
        if nonempty ds && negb (nonempty r2)
        then Some (sg * digits_value ds) else None
      else None
  end.

(** [digits], [digits.], [digits.digits], [.digits], each with an optional
    exponent. *)
Definition parse_unsigned_decimal (s : string) : option Q :=
  let (ip, r1) := span_digits s in
  let (fp, r2) :=
    match r1 with
    | String "." r => span_digits r
    | _ => (EmptyString, r1)
    end in
  if nonempty ip || nonempty fp then
    match parse_exponent r2 with
    | Some e =>
        Some (inject_Z (digits_value (ip ++ fp))
              * pow10 (e - Z.of_nat (String.length fp)))%Q
    | None => None
    end
  else None.

(** The least magnitude that a numeric literal rounds to [Infinity]:
    [2^1024 - 2^970], half-way between the greatest double and [2^1024]. *)
Definition overflow_threshold : Z :=
  Eval vm_compute in (2 ^ 1024 - 2 ^ 970).

(** The denominator of the greatest magnitude that a numeric literal
    rounds to zero: [2^-1075], half of the least positive double. *)
Definition underflow_scale : Z := Eval vm_compute in (2 ^ 1075).

(** The class of the double nearest to a non-negative [q]: [Infinity]
    from the overflow threshold on, zero up to the underflow threshold.
    In between the value stays the exact [q]; the rounding of the
    mantissa is not modelled. *)
Definition literal_value (q : Q) : jsnum :=
  if Qle_bool (inject_Z overflow_threshold) q then PInf
  else if Qle_bool (q * inject_Z underflow_scale) 1 then of_Z 0
  else Fin q.

Definition parse_unsigned (s : string) : jsnum :=
  if String.eqb s "Infinity" then PInf
  else match parse_unsigned_decimal s with
       | Some q => literal_value q
       | None => NaN
       end.

(** [0x], [0o] and [0b] literals (no sign). *)
Definition parse_non_decimal (s : string) : option jsnum :=
  match s with
  | String "0" (String p r) =>
      let base :=
        if ((code p =? 120) || (code p =? 88))%N then Some 16
        else if ((code p =? 111) || (code p =? 79))%N then Some 8
        else if ((code p =? 98) || (code p =? 66))%N then Some 2
        else None in
      match base with
      | Some b =>
          Some (if nonempty r
                then match digits_in_base b 0 r with
                     | Some z => literal_value (inject_Z z)
                     | None => NaN
                     end
                else NaN)
      | None => None
      end
  | _ => None
  end.

(** [Number(s)] for a string. *)
Definition StringToNumber (s : string) : jsnum :=
  let t := trim s in
  match t with
  | EmptyString => of_Z 0
  | String "+" r => parse_unsigned r
  | String "-" r => jneg (parse_unsigned r)
  | _ =>
      match parse_non_decimal t with
      | Some n => n
      | None => parse_unsigned t
      end
  end.

(** [Number(v)]. *)
Definition Number (v : jsval) : jsnum :=
  match v with
  | JUndefined => NaN
  | JNull => of_Z 0
  | JBool b => of_Z (if b then 1 else 0)
  | JNum n => n
  | JStr s => StringToNumber s
  | JObj _ => NaN
  end.

(** [Number(v) || d]. *)
Definition Number_or (v : jsval) (d : jsnum) : jsnum :=
  let n := Number v in if num_truthy n then n else d.

(** [parseInt(s, 10)]; [None] is NaN. *)
Definition parseInt10 (s : string) : option Z :=
  let t := trimStart s in
  let '(sg, r) :=
    match t with
    | String "+" r' => (1, r')
    | String "-" r' => (-1, r')
    | _ => (1, t)
    end in
  let (ds, _) := span_digits r in
  if nonempty ds then Some (sg * digits_value ds) else None.

End JsValue.

Import JsValue.

(* ===================================================================== *)
(** ** The target calculator (App.js, lines 223-273) *)
(* ===================================================================== *)

Module Targets.

Local Open Scope Q_scope.

(** The profile object handed to [computeGoals]; [None] and [JUndefined]
    stand for an absent property. *)
Record Profile : Type := {
  sex : option string;
  weight_kg : jsval;
  height_cm : jsval;
  age : jsval;
  activity_level : option string;
  goal : option string
}.

Record Goals : Type := {
  bmr : jsnum;
  tdee : jsnum;
  calories : jsnum;
  protein_g : jsnum;
  carbs_g : jsnum;
  fats_g : jsnum
}.

(** A default value of a destructured parameter: used for [undefined]. *)
Definition default_to (v d : jsval) : jsval :=
  match v with JUndefined => d | _ => v end.

Definition qnum (q : Q) : jsnum := Fin q.

(** [computeBMR({ sex = "male", weight_kg = 70, height_cm = 170, age = 25 })]:
    Mifflin-St Jeor, before any rounding. *)
Definition computeBMR (p : Profile) : jsnum :=
  let w := Number_or (default_to (weight_kg p) (JNum (qnum 70))) (qnum 70) in
  let h := Number_or (default_to (height_cm p) (JNum (qnum 170))) (qnum 170) in
  let a := Number_or (default_to (age p) (JNum (qnum 25))) (qnum 25) in
  let base :=
    jsub (jadd (jmul (qnum 10) w) (jmul (qnum (625 # 100)) h))
         (jmul (qnum 5) a) in
  if startsWith (toLowerCase (str_or (sex p) "male")) "f"
  then jsub base (qnum 161)
  else jadd base (qnum 5).

(** The table of [activityFactor]. *)
Definition activity_table : list (string * Q) :=
  [ ("sedentary"%string, 12 # 10);
    ("lightly_active"%string, 1375 # 1000);
    ("moderately_active"%string, 155 # 100);
    ("very_active"%string, 1725 # 1000);
    ("athlete"%string, 19 # 10) ].

Fixpoint table_get (k : string) (t : list (string * Q)) : option Q :=
  match t with
  | [] => None
  | (k', v) :: r => if String.eqb k k' then Some v else table_get k r
  end.

(** The properties that an object literal inherits from
    [Object.prototype]: [map[level]] finds them too. *)
Definition inherited_names : list string :=
  [ "constructor"%string; "hasOwnProperty"%string; "isPrototypeOf"%string;
    "propertyIsEnumerable"%string; "toLocaleString"%string;
    "toString"%string; "valueOf"%string; "__proto__"%string;
    "__defineGetter__"%string; "__defineSetter__"%string;
    "__lookupGetter__"%string; "__lookupSetter__"%string ].

Definition is_inherited (k : string) : bool :=
  existsb (String.eqb k) inherited_names.

(** [activityFactor(level = "moderately_active")]: [map[level] || 1.55].
    For an inherited name [map[level]] is a function or an object, which
    is truthy and is returned; the only use of the result is the product
    [bmr * activityFactor(...)], where it counts as NaN. *)
Definition activityFactor (level : option string) : jsnum :=
  let k := str_default level "moderately_active" in
  match table_get k activity_table with
  | Some f => qnum f
  | None => if is_inherited k then NaN else qnum (155 # 100)
  end.

(** [tdee] before it is rounded for the output. *)
Definition raw_tdee (p : Profile) : jsnum :=
  let t0 := jmul (computeBMR p) (activityFactor (activity_level p)) in
  let g := str_default (goal p) "maintenance" in
  let t1 := if String.eqb g "weight_loss" then jmul t0 (qnum (85 # 100)) else t0 in
  if String.eqb g "weight_gain" then jmul t1 (qnum (11 # 10)) else t1.

Definition computeGoals (p : Profile) : Goals :=
  let b := computeBMR p in
  let t := raw_tdee p in
  let protein := Math_round (jmul (Number_or (weight_kg p) (qnum 70)) (qnum (16 # 10))) in
  let fats := Math_round (jmul (Number_or (weight_kg p) (qnum 70)) (qnum (8 # 10))) in
  let kcal_from_protein := jmul protein (qnum 4) in
  let kcal_from_fats := jmul fats (qnum 9) in
  let leftover := jmax (qnum 0) (jsub t (jadd kcal_from_protein kcal_from_fats)) in
  let carbs := Math_round (jdiv_pos leftover 4) in
  {| bmr := Math_round b;
     tdee := Math_round t;
     calories := Math_round t;
     protein_g := protein;
     carbs_g := carbs;
     fats_g := fats |}.

(** The default profile: male, 70 kg, 170 cm, 25 years, moderately active,
    maintenance. *)
Definition default_profile : Profile :=
  {| sex := Some "male"%string;
     weight_kg := JNum (qnum 70);
     height_cm := JNum (qnum 170);
     age := JNum (qnum 25);
     activity_level := Some "moderately_active"%string;
     goal := Some "maintenance"%string |}.

(** The profile with every property absent. *)
Definition empty_profile : Profile :=
  {| sex := None; weight_kg := JUndefined; height_cm := JUndefined;
     age := JUndefined; activity_level := None; goal := None |}.

End Targets.

(* ===================================================================== *)
(** ** The status pollers *)
(* ===================================================================== *)

Module Poller.

(** What one request to the status endpoint gives. *)
Inductive PollBody : Type :=
| Malformed              (* [res.json()] rejects *)
| Json (v : jsval).

Inductive PollResponse : Type :=
| NetworkError           (* [fetch] rejects *)
| HttpResponse (status : Z) (body : PollBody).

(** How a poller ends. *)
Inductive Outcome : Type :=
| Returned (summary : option jsval)   (* [None] is [null] *)
| Thrown (message : string).

(** A run: its end, the number of status requests and the delays handed
    to [setTimeout], in order. *)
Record Run : Type := {
  outcome : Outcome;
  requests : nat;
  delays : list Z
}.

(** [json && json.status === "complete" && json.summary], and then
    [json.summary]. *)
Definition complete_summary (json : jsval) : option jsval :=
  if truthy json then
    match prop json "status" with
    | JStr s =>
        if String.eqb s "complete" && truthy (prop json "summary")
        then Some (prop json "summary") else None
    | _ => None
    end
  else None.

(** [Math.min(10000, Math.round(interval * 1.4))] on an integer
    interval. *)
Definition next_interval (interval : Z) : Z :=
  Z.min 10000 ((14 * interval + 5) / 10).


Section Environment.

(** The response to the [k]-th status request and the value of
    [Math.floor(Math.random() * 500)] drawn after it. *)
Variable responses : nat -> PollResponse.
Variable jitter : nat -> Z.

(** The body of the [try] of [pollForSummary]: the summary, when this
    response completes the job; a rejected [fetch] or [json()] is caught
    there. *)
Definition poll_once (r : PollResponse) : option jsval :=
  match r with
  | NetworkError => None
  | HttpResponse status body =>
      if status =? 200 then
        match body with
        | Malformed => None
        | Json v => complete_summary v
        end
      else None
  end.

(** The [while (attempt < maxAttempts)] loop of [pollForSummary]; [left]
    is [maxAttempts - attempt]. *)
Fixpoint pollLoop (left : nat) (attempt : nat) (interval : Z) : Run :=
  match left with
  | O =>
      {| outcome := Thrown "Timed out waiting for summary";
         requests := 0; delays := [] |}
  | S left' =>
      match poll_once (responses attempt) with
      | Some summary =>
          {| outcome := Returned (Some summary); requests := 1; delays := [] |}
      | None =>
          let r := pollLoop left' (S attempt) (next_interval interval) in
          {| outcome := outcome r;
             requests := S (requests r);
             delays := (interval + jitter attempt) :: delays r |}
      end
  end.

(** [pollForSummary(userId, dateIso, { interval, maxAttempts })]. *)
Definition pollForSummary (interval : Z) (maxAttempts : nat) : Run :=
  pollLoop maxAttempts 0%nat interval.

(** The [try]/[catch] around the call in [handleSummarizeToday]: a thrown
    error leaves [summary] null. *)
Definition summary_or_null (r : Run) : option jsval :=
  match outcome r with
  | Returned s => s
  | Thrown _ => None
  end.

(** [st.ok]. *)
Definition http_ok (status : Z) : bool := (200 <=? status) && (status <=? 299).

(** One turn of the loop of [generateDailySummary]: a rejected [fetch] or
    [json()] is not caught in the loop and reaches the outer [catch]. *)
Inductive PollStep : Type :=
| StepDone (summary : jsval)
| StepAbort
| StepPending.

Definition generate_once (r : PollResponse) : PollStep :=
  match r with
  | NetworkError => StepAbort
  | HttpResponse status body =>
      if http_ok status then
        match body with
        | Malformed => StepAbort
        | Json v =>
            match complete_summary v with
            | Some summary => StepDone summary
            | None => StepPending
            end
        end
      else StepPending
  end.

(** The loop of [generateDailySummary]; the outer [catch] returns null. *)
Fixpoint generateLoop (left : nat) (attempts : nat) (pollIntervalMs : Z) : Run :=
  match left with
  | O => {| outcome := Returned None; requests := 0; delays := [] |}
  | S left' =>
      match generate_once (responses attempts) with
      | StepDone summary =>
          {| outcome := Returned (Some summary); requests := 1; delays := [] |}
      | StepAbort =>
          {| outcome := Returned None; requests := 1; delays := [] |}
      | StepPending =>
          let r := generateLoop left' (S attempts) pollIntervalMs in
          {| outcome := outcome r;
             requests := S (requests r);
             delays := pollIntervalMs :: delays r |}
      end
  end.

(** [generateDailySummary(userId, logs, dateIso, { pollIntervalMs,
    maxAttempts })]; [start_ok] tells that the kick-off request came back
    with [ok]. *)
Definition generateDailySummary (start_ok : bool) (pollIntervalMs : Z)
    (maxAttempts : nat) : Run :=
  if start_ok then generateLoop maxAttempts 0%nat pollIntervalMs
  else {| outcome := Returned None; requests := 0; delays := [] |}.

(** No response of the run completes the job, as [pollForSummary] and as
    [generateDailySummary] see it. *)
Definition never_complete : Prop :=
  forall k, poll_once (responses k) = None.

Definition never_complete_ok : Prop :=
  forall k summary, generate_once (responses k) <> StepDone summary.

End Environment.

(** The bodies of the scenarios. *)
Definition pending_body : jsval := JObj [("status", JStr "pending")].

Definition complete_body (summary : jsval) : jsval :=
  JObj [("status", JStr "complete"); ("summary", summary)].

Definition always_pending : nat -> PollResponse :=
  fun _ => HttpResponse 200 (Json pending_body).


Definition no_jitter : nat -> Z := fun _ => 0.


End Poller.

(* ===================================================================== *)
(** ** Log entries and the store *)
(* ===================================================================== *)

Module Logs.

(** A document of [users/{uid}/daily_logs] with its id, as [getDailyLogs]
    returns it.  [None] and [JUndefined] stand for an absent property.
    [manual_calories] is written by [handleAddLog] when the user types the
    calories of a meal. *)
Record LogEntry : Type := {
  id : string;
  item : option string;
  item_name : option string;
  category : option string;
  timestamp : Z;
  date : option string;
  calories : jsval;
  macros : jsval;
  provenance : jsval;
  manual_calories : jsval
}.

(** The manual override of the data model: the entry carries calories
    typed by the user.  No function of the repository reads it when
    analysis results are written back. *)
Definition manualOverride (l : LogEntry) : bool := truthy (manual_calories l).

(** One element of the response of [/api/run_nutrients]. *)
Record AnalysisResult : Type := {
  r_id : option string;
  r_item : option string;
  r_name : option string;
  r_calories : jsval;
  r_macros : option jsobj;
  r_provenance : jsval
}.

(** The fields that a reconciliation writes with [updateDailyLog]. *)
Record Patch : Type := {
  p_calories : jsval;
  p_macros : jsval;
  p_provenance : jsval
}.

Definition Store : Type := list LogEntry.

Definition apply_patch (p : Patch) (l : LogEntry) : LogEntry :=
  {| id := id l; item := item l; item_name := item_name l;
     category := category l; timestamp := timestamp l; date := date l;
     calories := p_calories p; macros := p_macros p;
     provenance := p_provenance p;
     manual_calories := manual_calories l |}.

Definition is_undefined (v : jsval) : bool :=
  match v with JUndefined => true | _ => false end.

(** The merge of the fields into the document of id [i]. *)
Definition patch_id (i : string) (p : Patch) (l : LogEntry) : LogEntry :=
  if String.eqb (id l) i then apply_patch p l else l.

(** [updateDailyLog(uid, logId, data)] as the two reconciliations call
    it, with [data] made of the calories, the macros and the provenance:
    [updateDoc] merges the fields into the document.  [None] is a thrown
    error: an empty id, a field that is [undefined] (Firestore refuses
    it) or no such document.  The [updatedAt] stamp is not modelled, nor
    is a call with other fields. *)
Definition updateDailyLog (st : Store) (logId : string) (p : Patch)
  : option Store :=
  if negb (nonempty logId) then None
  else if is_undefined (p_calories p) || is_undefined (p_macros p)
          || is_undefined (p_provenance p) then None
  else if existsb (fun l => String.eqb (id l) logId) st
  then Some (map (patch_id logId p) st)
  else None.

(** An update whose error is caught and logged by the caller. *)
Definition update_caught (st : Store) (logId : string) (p : Patch) : Store :=
  match updateDailyLog st logId p with
  | Some st' => st'
  | None => st
  end.

(** Insertion of [x] into a list ordered by decreasing timestamp, before
    the entries that are not newer: with [fold_right] the sort is stable. *)
Fixpoint insert_desc (x : LogEntry) (l : list LogEntry) : list LogEntry :=
  match l with
  | [] => [x]
  | y :: r =>
      if timestamp y <=? timestamp x then x :: l
      else y :: insert_desc x r
  end.

(** [l.slice().sort((a, b) => (b.timestamp || 0) - (a.timestamp || 0))]. *)
Definition sort_desc (l : list LogEntry) : list LogEntry :=
  fold_right insert_desc [] l.

(** The head of a list is at least as recent as every element. *)
Definition head_newest (l : list LogEntry) : Prop :=
  match l with
  | [] => True
  | e :: _ => forall x, In x l -> timestamp x <= timestamp e
  end.

(** [getDailyLogs(uid)]: all the documents of the user,
    [orderBy("timestamp", "desc")]; documents of equal timestamp keep the
    order of the store. *)
Definition getDailyLogs (st : Store) : list LogEntry := sort_desc st.

(** [(l.category || "meal") === "meal"]. *)
Definition is_meal_default (l : LogEntry) : bool :=
  String.eqb (str_or (category l) "meal") "meal".

(** [(l.category || "").toLowerCase() === "meal"]. *)
Definition is_meal_lower (l : LogEntry) : bool :=
  String.eqb (toLowerCase (str_or (category l) "")) "meal".

End Logs.

(* ===================================================================== *)
(** ** The reconciliation matcher of [analyzeItemsBackend]
       (DailyLogPage.jsx, lines 576-623) *)
(* ===================================================================== *)

Module Matcher.

Import Logs.

(** The rule that selected an entry. *)
Inductive Rule : Type := Exact | Positional | Substring | MostRecent.

(** [normalize(analyzed.item || analyzed.name || "")]. *)
Definition analyzedName (a : AnalysisResult) : string :=
  normalize (str_or (r_item a) (str_or (r_name a) "")).

(** [analyzed.id || null]. *)
Definition analyzedId (a : AnalysisResult) : option string :=
  match r_id a with
  | Some s => if nonempty s then Some s else None
  | None => None
  end.

(** Rule 1:
    [normalize(l.item || l.item_name || "") === analyzedName
     && (l.category || "meal") === "meal"]. *)
Definition exact_pred (name : string) (l : LogEntry) : bool :=
  String.eqb (normalize (str_or (item l) (str_or (item_name l) ""))) name
  && is_meal_default l.

Definition exact_match (logs : list LogEntry) (a : AnalysisResult)
  : option LogEntry :=
  find (exact_pred (analyzedName a)) logs.

(** [parseInt(analyzedId.split("-")[1], 10) || 0]. *)
Definition positional_index (aid : string) : Z :=
  match nth_error (split_dash aid) 1 with
  | Some seg =>
      match parseInt10 seg with
      | Some n => n
      | None => 0
      end
  | None => 0
  end.

Definition nth_Z {A : Type} (l : list A) (i : Z) : option A :=
  if i <? 0 then None else nth_error l (Z.to_nat i).

(** Rule 2: [sameDateMeals[idx]], where [sameDateMeals] is
    [currentLogs.filter(l => (l.category || "").toLowerCase() === "meal")]. *)
Definition positional_match (logs : list LogEntry) (a : AnalysisResult)
  : option LogEntry :=
  match analyzedId a with
  | Some aid =>
      if test_item_digits aid
      then nth_Z (filter is_meal_lower logs) (positional_index aid)
      else None
  | None => None
  end.

(** Rule 3: the first entry whose normalized item contains the name, or
    else the first entry whose normalized item the name contains. *)
Definition substring_match (logs : list LogEntry) (a : AnalysisResult)
  : option LogEntry :=
  let name := analyzedName a in
  if nonempty name then
    match find (fun l => includes (normalize (str_or (item l) "")) name) logs with
    | Some l => Some l
    | None => find (fun l => includes name (normalize (str_or (item l) ""))) logs
    end
  else None.

(** Rule 4: the head of the meals sorted by decreasing timestamp. *)
Definition most_recent_match (logs : list LogEntry) : option LogEntry :=
  hd_error (sort_desc (filter is_meal_lower logs)).

(** The selection of one result: the rule and the entry. *)
Definition find_match (logs : list LogEntry) (a : AnalysisResult)
  : option (Rule * LogEntry) :=
  match exact_match logs a with
  | Some l => Some (Exact, l)
  | None =>
      match positional_match logs a with
      | Some l => Some (Positional, l)
      | None =>
          match substring_match logs a with
          | Some l => Some (Substring, l)
          | None =>
              match most_recent_match logs with
              | Some l => Some (MostRecent, l)
              | None => None
              end
          end
      end
  end.

(** The value of [Number(c) || 0] as a property. *)
Definition num_or_zero (v : jsval) : jsval := JNum (Number_or v (of_Z 0)).

(** [normalizedMacros] and then [{ ...normalizedMacros, raw: macros }]. *)
Definition fullMacros (a : AnalysisResult) : jsobj :=
  let m : jsobj := match r_macros a with Some o => o | None => [] end in
  let zero := JNum (of_Z 0) in
  let normalizedMacros :=
    spread
      [ ("calories_kcal",
          num_or_zero (coalesce (r_calories a)
                         (coalesce (lookup "calories_kcal" m)
                            (coalesce (lookup "energy_kcal" m) zero))));
        ("protein_g",
          num_or_zero (coalesce (lookup "protein_g" m)
                         (coalesce (lookup "protein" m) zero)));
        ("total_carbohydrate_g",
          num_or_zero (coalesce (lookup "total_carbohydrate_g" m)
                         (coalesce (lookup "carbs" m)
                            (coalesce (lookup "total_carbs" m) zero))));
        ("total_fat_g",
          num_or_zero (coalesce (lookup "total_fat_g" m)
                         (coalesce (lookup "fats" m)
                            (coalesce (lookup "total_fat" m) zero)))) ]
      m in
  obj_set "raw" (JObj m) normalizedMacros.

(** The fields written for a result. *)
Definition patch_of (a : AnalysisResult) : Patch :=
  let fm := fullMacros a in
  {| p_calories := lookup "calories_kcal" fm;
     p_macros := JObj fm;
     p_provenance :=
       coalesce (r_provenance a)
         (JObj [("source",
                 JStr (match analyzedId a with
                       | Some _ => "analyzed"
                       | None => "unknown"
                       end))]) |}.

(** The id that a result selects; [if (!match?.id) continue]. *)
Definition selected_id (logs : list LogEntry) (a : AnalysisResult)
  : option string :=
  match find_match logs a with
  | Some (_, l) => if nonempty (id l) then Some (id l) else None
  | None => None
  end.

(** The body of the [for] loop for one result: the snapshot [currentLogs]
    is read, the store is written. *)
Definition reconcile_step (currentLogs : list LogEntry) (st : Store)
    (a : AnalysisResult) : Store :=
  match selected_id currentLogs a with
  | Some i => update_caught st i (patch_of a)
  | None => st
  end.

(** The [for] loop over the results. *)
Definition reconcile_loop (currentLogs : list LogEntry)
    (results : list AnalysisResult) (st : Store) : Store :=
  fold_left (reconcile_step currentLogs) results st.

(** The reconciliation pass of [analyzeItemsBackend], once the response
    has come: [currentLogs] is fetched once, before the loop. *)
Definition analyzeItemsBackend (st : Store) (results : list AnalysisResult)
  : Store :=
  reconcile_loop (getDailyLogs st) results st.

(** The ids selected by the results of one pass, in order. *)
Definition selections (st : Store) (results : list AnalysisResult)
  : list (option string) :=
  map (selected_id (getDailyLogs st)) results.

(** The entry of the store with a given id. *)
Definition entry_of (st : Store) (i : string) : option LogEntry :=
  find (fun l => String.eqb (id l) i) st.

(** The properties that no reconciliation writes. *)
Definition same_identity (l' l : LogEntry) : Prop :=
  id l' = id l /\ item l' = item l /\ item_name l' = item_name l /\
  category l' = category l /\ timestamp l' = timestamp l /\
  date l' = date l /\ manual_calories l' = manual_calories l.

End Matcher.

(* ===================================================================== *)
(** ** The reconciliation loop of [handleAnalyzeToday]
       (DailyLogPage.jsx, lines 747-826) *)
(* ===================================================================== *)

Module AnalyzeToday.

Import Logs.

Definition opt_is (o : option string) (s : string) : bool :=
  match o with
  | Some x => String.eqb x s
  | None => false
  end.

(** The query [where("date", "==", today), where("category", "==", "meal")];
    the items are submitted in the order of this list. *)
Definition todays_meals (today : string) (st : Store) : list LogEntry :=
  filter (fun l => opt_is (date l) today && opt_is (category l) "meal") st.

(** [(analyzed.item || analyzed.name || "").toString().trim().toLowerCase()]. *)
Definition analyzedName (a : AnalysisResult) : string :=
  toLowerCase (trim (str_or (r_item a) (str_or (r_name a) ""))).

(** [parseInt(analyzed.id.split("-")[1] || "0", 10)]; [None] is NaN. *)
Definition positional_index (aid : string) : option Z :=
  parseInt10 (str_or (nth_error (split_dash aid) 1) "0").

(** The first [match]: by name, and else by position when the id starts
    with [item-]. *)
Definition primary_match (meals : list LogEntry) (a : AnalysisResult)
  : option LogEntry :=
  match find (fun m => String.eqb (toLowerCase (trim (str_or (item m) "")))
                                  (analyzedName a)) meals with
  | Some m => Some m
  | None =>
      match r_id a with
      | Some aid =>
          if nonempty aid && startsWith aid "item-" then
            match positional_index aid with
            | Some idx => Matcher.nth_Z meals idx
            | None => None
            end
          else None
      | None => None
      end
  end.

(** [meals.find(m => analyzedName &&
      (m.item || "").toString().toLowerCase().includes(analyzedName))]. *)
Definition fuzzy_match (meals : list LogEntry) (a : AnalysisResult)
  : option LogEntry :=
  let name := analyzedName a in
  find (fun m => nonempty name
                 && includes (toLowerCase (str_or (item m) "")) name) meals.

(** [analyzed.macros?.k]. *)
Definition macro (a : AnalysisResult) (k : string) : jsval :=
  match r_macros a with
  | Some o => lookup k o
  | None => JUndefined
  end.

(** The object [fullMacros] of the first branch. *)
Definition fullMacros (a : AnalysisResult) : jsobj :=
  let zero := JNum (of_Z 0) in
  spread
    [ ("calories_kcal",
        coalesce (r_calories a)
          (coalesce (macro a "calories_kcal") (coalesce (macro a "calories") zero)));
      ("protein_g", coalesce (macro a "protein_g") (coalesce (macro a "protein") zero));
      ("carbs_g",
        coalesce (macro a "total_carbohydrate_g") (coalesce (macro a "carbs") zero));
      ("fats_g", coalesce (macro a "total_fat_g") (coalesce (macro a "fats") zero));
      ("fiber_g",
        coalesce (macro a "dietary_fiber_g") (coalesce (macro a "fiber_g") zero));
      ("sugars_g", coalesce (macro a "sugars_g") zero);
      ("sodium_mg", coalesce (macro a "sodium_mg") zero);
      ("calcium_mg", coalesce (macro a "calcium_mg") zero);
      ("iron_mg", coalesce (macro a "iron_mg") zero);
      ("vitamin_c_mg", coalesce (macro a "vitamin_c_mg") zero);
      ("potassium_mg", coalesce (macro a "potassium_mg") zero);
      ("cholesterol_mg", coalesce (macro a "cholesterol_mg") zero) ]
    (match r_macros a with Some o => o | None => [] end).

Definition primary_patch (a : AnalysisResult) (m : LogEntry) : Patch :=
  let fm := fullMacros a in
  {| p_calories := lookup "calories_kcal" fm;
     p_macros := JObj fm;
     p_provenance := coalesce (r_provenance a) (provenance m) |}.

Definition fuzzy_patch (a : AnalysisResult) (m : LogEntry) : Patch :=
  {| p_calories :=
       coalesce (r_calories a)
         (coalesce
            (match r_macros a with
             | Some o => js_or (lookup "calories_kcal" o) (lookup "calories" o)
             | None => JUndefined
             end)
            (calories m));
     p_macros :=
       match r_macros a with
       | Some o => JObj o
       | None => macros m
       end;
     p_provenance := coalesce (r_provenance a) (provenance m) |}.

(** The entry that a result updates and the fields written; [match?.id]
    and [fuzzy?.id] must be truthy. *)
Definition selected (meals : list LogEntry) (a : AnalysisResult)
  : option (LogEntry * Patch) :=
  let fuzzy :=
    match fuzzy_match meals a with
    | Some f => if nonempty (id f) then Some (f, fuzzy_patch a f) else None
    | None => None
    end in
  match primary_match meals a with
  | Some m => if nonempty (id m) then Some (m, primary_patch a m) else fuzzy
  | None => fuzzy
  end.

(** The body of the [for] loop; the inner [catch] swallows a failed
    update. *)
Definition reconcile_step (meals : list LogEntry) (st : Store)
    (a : AnalysisResult) : Store :=
  match selected meals a with
  | Some (m, p) => update_caught st (id m) p
  | None => st
  end.

(** The reconciliation pass of [handleAnalyzeToday]. *)
Definition handleAnalyzeToday (today : string) (st : Store)
    (analyses : list AnalysisResult) : Store :=
  fold_left (reconcile_step (todays_meals today st)) analyses st.

End AnalyzeToday.

(* ===================================================================== *)
(** ** Calendar days: the part of [Date] that the aggregator uses *)
(* ===================================================================== *)

Module Dates.

(** A calendar date of the proleptic Gregorian calendar: year, month,
    day of the month. *)
Definition civil : Type := (Z * Z * Z)%type.

Definition is_leap (y : Z) : bool :=
  (y mod 4 =? 0) && (negb (y mod 100 =? 0) || (y mod 400 =? 0)).

Definition days_in_month (y m : Z) : Z :=
  if m =? 2 then (if is_leap y then 29 else 28)
  else if (m =? 4) || (m =? 6) || (m =? 9) || (m =? 11) then 30
  else 31.

Definition valid_date (t : civil) : bool :=
  let '(y, m, d) := t in
  (1 <=? m) && (m <=? 12) && (1 <=? d) && (d <=? days_in_month y m).

Definition next_date (t : civil) : civil :=
  let '(y, m, d) := t in
  if d <? days_in_month y m then (y, m, d + 1)
  else if m <? 12 then (y, m + 1, 1)
  else (y + 1, 1, 1).

Definition prev_date (t : civil) : civil :=
  let '(y, m, d) := t in
  if 1 <? d then (y, m, d - 1)
  else if 1 <? m then (y, m - 1, days_in_month y (m - 1))
  else (y - 1, 12, 31).

Definition epoch : civil := (1970, 1, 1).

(** The date of the [n]-th day after 1970-01-01. *)
Definition date_of_day (n : Z) : civil :=
  if 0 <=? n then Nat.iter (Z.to_nat n) next_date epoch
  else Nat.iter (Z.to_nat (- n)) prev_date epoch.

(** The number of days from 1970-01-01 to a date. *)
Definition days_from_civil (t : civil) : Z :=
  let '(y, m, d) := t in
  let y' := if m <=? 2 then y - 1 else y in
  let mp := if m <=? 2 then m + 9 else m - 3 in
  365 * y' + y' / 4 - y' / 100 + y' / 400 + (153 * mp + 2) / 5 + d - 1 - 719468.

Definition ms_per_day : Z := 1000 * 60 * 60 * 24.

(** *** The local time zone *)

(** The local time zone, by its offsets from UTC in milliseconds:
    [offset_at t] is [LocalTZA(t, true)], the offset in force at the time
    value [t], and [offset_at_local t] is [LocalTZA(t, false)], the offset
    of the local time [t]. *)
Record Zone : Type := {
  offset_at : Z -> Z;
  offset_at_local : Z -> Z
}.

(** [LocalTime(t)] and [UTC(t)] of the language. *)
Definition LocalTime (z : Zone) (t : Z) : Z := t + offset_at z t.

Definition UTC (z : Zone) (t : Z) : Z := t - offset_at_local z t.

(** [d.setDate(d.getDate() - k)] on the time value [t] of [d]: the local
    date goes back by [k] days and the local time of the day stays;
    the result is again a time value. *)
Definition setDate_back (z : Zone) (k : Z) (t : Z) : Z :=
  UTC z (LocalTime z t - k * ms_per_day).

(** The clock of the zone never changes. *)
Definition no_clock_change (z : Zone) : Prop :=
  exists c,
    (forall t, offset_at z t = c) /\ (forall t, offset_at_local z t = c).

(** The zone of UTC. *)
Definition utc_zone : Zone :=
  {| offset_at := fun _ => 0; offset_at_local := fun _ => 0 |}.

(** The range of time values of a [Date]. *)
Definition in_date_range (ms : Z) : bool :=
  (- 8640000000000000 <=? ms) && (ms <=? 8640000000000000).

Definition digit_char (k : Z) : ascii := ascii_of_N (Z.to_N (48 + k)).

Definition pad2 (n : Z) : string :=
  String (digit_char (n / 10 mod 10)) (String (digit_char (n mod 10)) EmptyString).

Definition pad4 (n : Z) : string := pad2 (n / 100) ++ pad2 n.

Definition pad6 (n : Z) : string := pad2 (n / 10000) ++ pad4 n.

(** The year of [toISOString]: four digits from 0 to 9999, a sign and six
    digits otherwise. *)
Definition year_string (y : Z) : string :=
  if (0 <=? y) && (y <=? 9999) then pad4 y
  else if y <? 0 then "-" ++ pad6 (- y)
  else "+" ++ pad6 y.

Definition format_date (t : civil) : string :=
  let '(y, m, d) := t in
  year_string y ++ "-" ++ pad2 m ++ "-" ++ pad2 d.

(** [new Date(ms).toISOString().slice(0, 10)] for a time value in
    range. *)
Definition toISODate (ms : Z) : string :=
  String.substring 0 10 (format_date (date_of_day (ms / ms_per_day))).

(** [dateKey(ts)]: [ts ? new Date(ts).toISOString().slice(0, 10)
    : new Date().toISOString().slice(0, 10)]; [now] is the clock.
    [None] is the RangeError of [toISOString] on an invalid date. *)
Definition dateKey (now : Z) (ts : Z) : option string :=
  if ts =? 0 then Some (toISODate now)
  else if in_date_range ts then Some (toISODate ts)
  else None.

Definition digit_val (c : ascii) : Z := Z.of_N (code c) - 48.

(** The day number of [new Date(s)] for a date-only string [YYYY-MM-DD]
    (it denotes midnight UTC); [None] where the date is invalid.  Only
    this form, which is the one that the application stores, is read. *)
Definition parse_date (s : string) : option Z :=
  match s with
  | String y1 (String y2 (String y3 (String y4 (String h1
      (String m1 (String m2 (String h2 (String d1 (String d2 EmptyString)))))))))
    =>
      if is_digit y1 && is_digit y2 && is_digit y3 && is_digit y4
         && is_digit m1 && is_digit m2 && is_digit d1 && is_digit d2
         && (code h1 =? 45)%N && (code h2 =? 45)%N
      then
        let y := ((digit_val y1 * 10 + digit_val y2) * 10 + digit_val y3) * 10
                 + digit_val y4 in
        let m := digit_val m1 * 10 + digit_val m2 in
        let d := digit_val d1 * 10 + digit_val d2 in
        if valid_date (y, m, d) then Some (days_from_civil (y, m, d)) else None
      else None
  | _ => None
  end.

(** The order of the dates, year first. *)
Definition civil_lt (t1 t2 : civil) : Prop :=
  let '(y1, m1, d1) := t1 in
  let '(y2, m2, d2) := t2 in
  y1 < y2 \/ (y1 = y2 /\ (m1 < m2 \/ (m1 = m2 /\ d1 < d2))).

(** The ten characters of a day key, from its eight digits. *)
Definition key_chars (k1 k2 k3 k4 k5 k6 k7 k8 : Z) : string :=
  String (digit_char k1) (String (digit_char k2) (String (digit_char k3)
  (String (digit_char k4) (String "-" (String (digit_char k5)
  (String (digit_char k6) (String "-" (String (digit_char k7)
  (String (digit_char k8) EmptyString))))))))).

(** A well-formed day key: the text of a valid date of the years 0 to
    9999. *)
Definition wf_date (s : string) : Prop :=
  exists y m d,
    0 <= y <= 9999 /\ valid_date (y, m, d) = true /\ s = format_date (y, m, d).

End Dates.

(* ===================================================================== *)
(** ** The daily aggregator (App.js, lines 207-221 and 635-657) *)
(* ===================================================================== *)

Module Aggregator.

Import Logs Dates.

Record Macros : Type := {
  protein : jsnum;
  carbs : jsnum;
  fats : jsnum;
  calories : jsnum
}.

Definition zero : jsval := JNum (of_Z 0).

(** [extractMealMacros(macros)]. *)
Definition extractMealMacros (macros : jsval) : Macros :=
  if negb (truthy macros) then
    {| protein := of_Z 0; carbs := of_Z 0; fats := of_Z 0; calories := of_Z 0 |}
  else
    {| protein :=
         Number_or (coalesce (prop macros "protein_g")
                      (coalesce (prop macros "total_protein")
                         (coalesce (prop macros "protein") zero))) (of_Z 0);
       carbs :=
         Number_or (coalesce (prop macros "total_carbohydrate_g")
                      (coalesce (prop macros "total_carbs")
                         (coalesce (prop macros "carbs_g")
                            (coalesce (prop macros "carbs") zero)))) (of_Z 0);
       fats :=
         Number_or (coalesce (prop macros "total_fat_g")
                      (coalesce (prop macros "total_fat")
                         (coalesce (prop macros "fats") zero))) (of_Z 0);
       calories :=
         Number_or (coalesce (prop macros "calories_kcal")
                      (coalesce (prop macros "calories")
                         (coalesce (prop macros "total_calories") zero))) (of_Z 0) |}.

(** [l.calories ?? l.macros?.calories_kcal ?? 0]. *)
Definition calorie_source (l : LogEntry) : jsval :=
  coalesce (Logs.calories l)
    (coalesce (opt_prop (macros l) "calories_kcal") zero).

(** [Number(l.calories ?? l.macros?.calories_kcal ?? 0) || 0]. *)
Definition entry_calories (l : LogEntry) : jsnum :=
  Number_or (calorie_source l) (of_Z 0).

(** [l.date || dateKey(l.timestamp)]. *)
Definition day_key (now : Z) (l : LogEntry) : option string :=
  match date l with
  | Some d => if nonempty d then Some d else dateKey now (timestamp l)
  | None => dateKey now (timestamp l)
  end.

Record Totals : Type := {
  t_calories : jsnum;
  t_protein : jsnum;
  t_carbs : jsnum;
  t_fats : jsnum
}.

Definition no_totals : Totals :=
  {| t_calories := of_Z 0; t_protein := of_Z 0;
     t_carbs := of_Z 0; t_fats := of_Z 0 |}.

(** One turn of [rows.forEach]: what the entry adds. *)
Definition add_entry (acc : Totals) (l : LogEntry) : Totals :=
  let m := extractMealMacros (macros l) in
  {| t_calories := jadd (t_calories acc) (entry_calories l);
     t_protein := jadd (t_protein acc) (protein m);
     t_carbs := jadd (t_carbs acc) (carbs m);
     t_fats := jadd (t_fats acc) (fats m) |}.

(** The [forEach] over the rows; [None] when [dateKey] throws (the
    enclosing [try] of the effect catches it and no totals are set). *)
Fixpoint sum_rows (now : Z) (today : string) (rows : list LogEntry)
    (acc : Totals) : option Totals :=
  match rows with
  | [] => Some acc
  | l :: r =>
      match day_key now l with
      | None => None
      | Some dkey =>
          if negb (String.eqb dkey today) then sum_rows now today r acc
          else if negb (is_meal_default l) then sum_rows now today r acc
          else sum_rows now today r (add_entry acc l)
      end
  end.

Definition round_totals (t : Totals) : Totals :=
  {| t_calories := Math_round (t_calories t);
     t_protein := Math_round (t_protein t);
     t_carbs := Math_round (t_carbs t);
     t_fats := Math_round (t_fats t) |}.

(** The totals of today; [today] is
    [new Date().toLocaleDateString("en-CA")]. *)
Definition todayTotals (now : Z) (today : string) (rows : list LogEntry)
  : option Totals :=
  option_map round_totals (sum_rows now today rows no_totals).





End Aggregator.

(* ===================================================================== *)
(** ** Loops without a bound *)
(* ===================================================================== *)

Module Run.

(** What a function with a [while (true)] loop does when the loop is given
    a number of turns: it returns, it throws, or the turns are used up
    before the loop has ended. *)
Inductive run (A : Type) : Type :=
| Returns (a : A)
| Throws
| Unfinished.

Arguments Returns {A} a.
Arguments Throws {A}.
Arguments Unfinished {A}.

Definition run_map {A B : Type} (f : A -> B) (r : run A) : run B :=
  match r with
  | Returns a => Returns (f a)
  | Throws => Throws
  | Unfinished => Unfinished
  end.

End Run.

(* ===================================================================== *)
(** ** Streaks (App.js, lines 764-820) *)
(* ===================================================================== *)

Module Streaks.

Import Logs Dates.

(** The [Set] of day keys, as the list of its elements in the order of
    insertion. *)
Definition set_has (k : string) (s : list string) : bool :=
  existsb (String.eqb k) s.

Definition set_add (k : string) (s : list string) : list string :=
  if set_has k s then s else s ++ [k].

(** The first [forEach]: the day keys of the meal rows.  [None] when
    [dateKey] throws. *)
Fixpoint collect_dates (now : Z) (rows : list LogEntry) (s : list string)
  : option (list string) :=
  match rows with
  | [] => Some s
  | r :: rest =>
      if negb (is_meal_default r) then collect_dates now rest s
      else
        match Aggregator.day_key now r with
        | None => None
        | Some d =>
            if nonempty d then collect_dates now rest (set_add d s)
            else collect_dates now rest s
        end
  end.

Definition datesSet (now : Z) (rows : list LogEntry) : option (list string) :=
  collect_dates now rows [].

(** The [while (true)] loop of the current streak: [check] starts at the
    clock; while its key [check.toISOString().slice(0, 10)], a date of
    UTC, is in the set, the loop counts and
    [check.setDate(check.getDate() - 1)] takes it one day back in local
    time.  [fuel] is the number of times that [setDate] may run.  The
    clock and the days walked are within the range of [Date]. *)
Fixpoint count_back (z : Zone) (fuel : nat) (check : Z) (s : list string)
  : Run.run nat :=
  if set_has (toISODate check) s
  then match fuel with
       | O => Run.Unfinished
       | S fuel' =>
           Run.run_map S (count_back z fuel' (setDate_back z 1 check) s)
       end
  else Run.Returns O.

(** The walk over exact days, to which the loop comes down in a zone
    without a clock change: the days counted within [fuel] tests. *)
Fixpoint day_walk (fuel : nat) (check : Z) (s : list string) : nat :=
  match fuel with
  | O => O
  | S fuel' =>
      if set_has (toISODate check) s
      then S (day_walk fuel' (check - ms_per_day) s)
      else O
  end.

(** [Array.from(datesSet).sort()]: by code units, ascending. *)
Fixpoint insert_asc (x : string) (l : list string) : list string :=
  match l with
  | [] => [x]
  | y :: r => if String.leb x y then x :: l else y :: insert_asc x r
  end.

Definition sort_asc (l : list string) : list string :=
  fold_right insert_asc [] l.

(** The order of the sort. *)
Definition leb_rel (a b : string) : Prop := String.leb a b = true.

(** The state of the scan for the best streak; [prev] is [None] for
    [null], [Some None] for an invalid [Date]. *)
Record Scan : Type := {
  best : nat;
  run : nat;
  prev : option (option Z)
}.

(** The body of the [forEach] once [d = new Date(dstr)] is known;
    [(d - prev) / (1000 * 60 * 60 * 24) === 1] holds when both dates are
    valid and one day apart. *)
Definition scan_day (st : Scan) (d : option Z) : Scan :=
  let run' :=
    match prev st with
    | None => 1%nat
    | Some p =>
        match p, d with
        | Some a, Some b => if b - a =? 1 then S (run st) else 1%nat
        | _, _ => 1%nat
        end
    end in
  {| best := Nat.max (best st) run'; run := run'; prev := Some d |}.

Definition scan_step (st : Scan) (dstr : string) : Scan :=
  scan_day st (parse_date dstr).

Definition scan_start : Scan := {| best := 0; run := 0; prev := None |}.

Definition scan (l : list string) : Scan :=
  fold_left scan_step l scan_start.

Record StreakState : Type := {
  current : nat;
  bestStreak : nat
}.

(** [computeStreaksFromLogs(rows)] at the clock [now] in the zone [z],
    with [fuel] turns for the walk back.  The array [dates] of the source
    is computed and never read.  [Throws] is the RangeError of
    [dateKey]. *)
Definition computeStreaksFromLogs (z : Zone) (fuel : nat) (now : Z)
    (rows : list LogEntry) : Run.run StreakState :=
  match datesSet now rows with
  | None => Run.Throws
  | Some s =>
      match s with
      | [] => Run.Returns {| current := 0; bestStreak := 0 |}
      | _ =>
          Run.run_map
            (fun cur => {| current := cur;
                           bestStreak := best (scan (sort_asc s)) |})
            (count_back z fuel now s)
      end
  end.

(** *** What the streaks mean *)

(** The day numbers that the keys of a list denote. *)
Definition day_numbers (l : list string) : list Z :=
  flat_map (fun s => match parse_date s with
                     | Some n => [n]
                     | None => []
                     end) l.

(** The day [n] is present among the dates of the meal rows: a meal row
    has a day key that denotes [n]. *)
Definition meal_on (now : Z) (rows : list LogEntry) (n : Z) : Prop :=
  exists r k,
    In r rows /\ is_meal_default r = true /\
    Aggregator.day_key now r = Some k /\ parse_date k = Some n.

(** The [k] consecutive days that end at [n] all satisfy [P]. *)
Definition consecutive (P : Z -> Prop) (n : Z) (k : nat) : Prop :=
  forall i, 0 <= i < Z.of_nat k -> P (n - i).

(** [b] is the length of a longest run of consecutive days of [P]. *)
Definition longest_run (P : Z -> Prop) (b : nat) : Prop :=
  (forall n k, consecutive P n k -> (k <= b)%nat) /\
  (exists n, consecutive P n b).

(** [r] is the length of the run of days of [P] that ends at [p]. *)
Definition run_ending (P : Z -> Prop) (p : Z) (r : nat) : Prop :=
  consecutive P p r /\ ~ P (p - Z.of_nat r).

(** What the scan knows after the days [D], the last of which is the
    greatest. *)
Definition scan_invariant (D : list Z) (st : Scan) : Prop :=
  exists p,
    prev st = Some (Some p) /\ In p D /\ (forall x, In x D -> x <= p) /\
    (1 <= run st)%nat /\
    run_ending (fun n => In n D) p (run st) /\
    longest_run (fun n => In n D) (best st) /\
    (run st <= best st)%nat.

(** A meal row of a given day. *)
Definition meal_row (cat : option string) (d : string) : LogEntry :=
  {| id := d; item := Some "meal"; item_name := None; category := cat;
     timestamp := 1; date := Some d; calories := JUndefined;
     macros := JUndefined; provenance := JUndefined;
     manual_calories := JUndefined |}.

End Streaks.

(* ===================================================================== *)
(** ** Scenarios *)
(* ===================================================================== *)

Module Scenario.

Import Logs.

(** A stored entry with a name, a category, a creation time and a day,
    and no nutrition yet. *)
Definition entry (i name : string) (cat : string) (ts : Z) (day : string)
  : LogEntry :=
  {| id := i; item := Some name; item_name := None; category := Some cat;
     timestamp := ts; date := Some day; calories := JUndefined;
     macros := JUndefined; provenance := JNull;
     manual_calories := JUndefined |}.

(** An analysis result with an id, a name and calories. *)
Definition result (i : option string) (name : string) (kcal : Z)
  : AnalysisResult :=
  {| r_id := i; r_item := None; r_name := Some name;
     r_calories := JNum (of_Z kcal); r_macros := None;
     r_provenance := JUndefined |}.

(** Two meals of the same day, submitted in this order. *)
Definition first_meal : LogEntry := entry "a" "Aaa" "meal" 100 "2024-01-05".
Definition second_meal : LogEntry := entry "b" "Bbb" "meal" 200 "2024-01-05".
Definition two_meals : Store := [first_meal; second_meal].

Definition item_1_xyz : AnalysisResult := result (Some "item-1") "Xyz" 50.

(** A meal whose calories the user typed. *)
Definition manual_rice : LogEntry :=
  {| id := "m"; item := Some "Rice"; item_name := None;
     category := Some "meal"; timestamp := 100; date := Some "2024-01-05";
     calories := JNum (of_Z 500); macros := JUndefined; provenance := JNull;
     manual_calories := JNum (of_Z 500) |}.


Definition rice_130 : AnalysisResult := result (Some "item-0") "rice" 130.





(** Meals on the third, fourth and fifth day of 2024. *)
Definition up_to_today : list LogEntry :=
  [ Streaks.meal_row (Some "meal") "2024-01-04";
    Streaks.meal_row (Some "meal") "2024-01-05";
    Streaks.meal_row (Some "meal") "2024-01-03" ].

(** Noon of 2024-01-05, UTC, in milliseconds. *)
Definition noon_2024_01_05 : Z := 1704456000000.







End Scenario.


From Stdlib Require Import Qabs Lqa.

Local Open Scope Z_scope.

(* ===================================================================== *)
(** ** Shapes of strings *)
(* ===================================================================== *)

Module Shape.

(** Every character of [s] satisfies [p]. *)
Fixpoint all_chars (p : ascii -> bool) (s : string) : bool :=
  match s with
  | EmptyString => true
  | String c r => p c && all_chars p r
  end.

(** [s] does not start with white space. *)
Definition no_leading_ws (s : string) : bool :=
  match s with
  | String c _ => negb (is_ws c)
  | EmptyString => true
  end.

(** No two white-space characters of [s] are adjacent. *)
Fixpoint single_spaced (s : string) : bool :=
  match s with
  | EmptyString => true
  | String c r => (negb (is_ws c) || no_leading_ws r) && single_spaced r
  end.

End Shape.

(* ===================================================================== *)
(** ** The reconciliation loop as a function on entries *)
(* ===================================================================== *)

Module MatcherAlgebra.

Import Logs Matcher.

(** The update of one result would be accepted by [updateDailyLog]: the id
    is not empty and no field is [undefined]. *)
Definition patch_accepted (i : string) (p : Patch) : bool :=
  nonempty i
  && negb (is_undefined (p_calories p) || is_undefined (p_macros p)
           || is_undefined (p_provenance p)).

(** What one turn of the loop of [analyzeItemsBackend] does to an entry
    of the store. *)
Definition step_fun (cur : list LogEntry) (a : AnalysisResult)
    (l : LogEntry) : LogEntry :=
  match selected_id cur a with
  | Some i => if patch_accepted i (patch_of a)
              then patch_id i (patch_of a) l else l
  | None => l
  end.

(** What the whole loop does to an entry of the store. *)
Fixpoint loop_fun (cur : list LogEntry) (results : list AnalysisResult)
    (l : LogEntry) : LogEntry :=
  match results with
  | [] => l
  | a :: rest => loop_fun cur rest (step_fun cur a l)
  end.

(** The object has the property [k]. *)
Definition has_key (k : string) (o : jsobj) : bool :=
  existsb (fun kv => String.eqb k (fst kv)) o.

End MatcherAlgebra.

(* ===================================================================== *)
(** ** The other helpers of the store (firebaseHelpers.js) *)
(* ===================================================================== *)

Module StoreOps.

Import Logs.

(** The order of [orderBy("timestamp", "desc")]. *)
Definition newest_first (a b : LogEntry) : Prop := timestamp b <= timestamp a.

(** [getDailyLogsByDate(uid, dateIso)]: [where("date", "==", dateIso)],
    [orderBy("timestamp", "desc")]; nothing for an empty date. *)
Definition getDailyLogsByDate (dateIso : string) (st : Store)
  : list LogEntry :=
  if nonempty dateIso
  then sort_desc (filter (fun l => AnalyzeToday.opt_is (date l) dateIso) st)
  else [].

(** [deleteDailyLog(uid, id)]: [None] is the error thrown for an empty id;
    deleting a document that does not exist changes nothing. *)
Definition deleteDailyLog (st : Store) (i : string) : option Store :=
  if nonempty i
  then Some (filter (fun l => negb (String.eqb (id l) i)) st)
  else None.

(** [deleteAllLogsForDate(uid, dateIso)]: every log of the date is deleted
    ([Promise.all] starts all the deletions); the result is the number of
    logs, or [None] when a deletion threw. *)
Definition deleteAllLogsForDate (dateIso : string) (st : Store)
  : Store * option nat :=
  let logs := getDailyLogsByDate dateIso st in
  (fold_left (fun s l => match deleteDailyLog s (id l) with
                         | Some s' => s'
                         | None => s
                         end) logs st,
   if forallb (fun l => nonempty (id l)) logs
   then Some (List.length logs) else None).

(** The document that [createDailyLog] adds: the payload with
    [timestamp: payload.timestamp || now] under the id that Firestore
    chose.  The [id] of [payload] is not read, and the server stamps
    [createdAt] and [updatedAt] are not modelled. *)
Definition created_entry (new_id : string) (now : Z) (payload : LogEntry)
  : LogEntry :=
  {| id := new_id; item := item payload; item_name := item_name payload;
     category := category payload;
     timestamp := if timestamp payload =? 0 then now else timestamp payload;
     date := date payload; calories := calories payload;
     macros := macros payload; provenance := provenance payload;
     manual_calories := manual_calories payload |}.

(** [createDailyLog(uid, payload)] at the clock [now]: the new store and
    the id returned. *)
Definition createDailyLog (st : Store) (new_id : string) (now : Z)
    (payload : LogEntry) : Store * string :=
  ((st ++ [created_entry new_id now payload])%list, new_id).

End StoreOps.

(* ===================================================================== *)
(** ** The health score (App.js, lines 36 and 659-670) *)
(* ===================================================================== *)

Module Score.

Import Targets.

(** [a / b]; there is one zero, which divides like +0. *)
Definition jdiv (a b : jsnum) : jsnum :=
  match a, b with
  | NaN, _ | _, NaN => NaN
  | Fin x, Fin y =>
      if Qeq_bool y 0 then
        match (x ?= 0)%Q with
        | Eq => NaN
        | Gt => PInf
        | Lt => NInf
        end
      else Fin (x / y)
  | Fin _, _ => of_Z 0
  | PInf, Fin y => if Qle_bool 0 y then PInf else NInf
  | NInf, Fin y => if Qle_bool 0 y then NInf else PInf
  | _, _ => NaN
  end.

(** [Math.abs(a)]. *)
Definition jabs (a : jsnum) : jsnum :=
  match a with
  | NaN => NaN
  | PInf | NInf => PInf
  | Fin q => Fin (Qabs q)
  end.

(** [Math.min(a, b)]. *)
Definition jmin (a b : jsnum) : jsnum :=
  match a, b with
  | NaN, _ | _, NaN => NaN
  | NInf, _ | _, NInf => NInf
  | PInf, x | x, PInf => x
  | Fin x, Fin y => if Qle_bool x y then Fin x else Fin y
  end.

(** [clamp(n, lo, hi)]: [Math.min(hi, Math.max(lo, n))]. *)
Definition clamp (n lo hi : jsnum) : jsnum := jmin hi (jmax lo n).



(** [macroPart(actual, goal)]. *)
Definition macroPart (actual goal : jsnum) : jsnum :=
  if jpositive goal
  then jsub (qnum 1) (jmin (jdiv (jabs (jsub actual goal)) goal) (qnum 1))
  else qnum 0.

(** The health score of the totals of today against the goals. *)
Definition healthScore (t : Aggregator.Totals) (g : Goals) : jsnum :=
  let calRatio :=
    if num_truthy (calories g)
    then clamp (jdiv (Aggregator.t_calories t) (calories g)) (qnum 0) (qnum 2)
    else qnum 0 in
  let calScore :=
    jmul (qnum 40)
      (jsub (qnum 1) (jmin (jabs (jsub (qnum 1) calRatio)) (qnum 1))) in
  let pScore := macroPart (Aggregator.t_protein t) (protein_g g) in
  let cScore := macroPart (Aggregator.t_carbs t) (carbs_g g) in
  let fScore := macroPart (Aggregator.t_fats t) (fats_g g) in
  let macroScore :=
    jmul (qnum 45) (jdiv (jadd (jadd pScore cScore) fScore) (qnum 3)) in
  let compScore :=
    jmul (qnum 15)
      (if jpositive (Aggregator.t_calories t) then qnum 1 else qnum 0) in
  Math_round (jadd (jadd calScore macroScore) compScore).

End Score.

(* ===================================================================== *)
(** ** The activity page (ActivityGraph.jsx) and the streaks of friends
       (firebaseHelpers.js) *)
(* ===================================================================== *)

Module Activity.

Import Logs Dates.

(** The key of a log in [ActivityGraph.jsx] and in the streak helpers:
    [l.date || (l.timestamp ? new Date(l.timestamp).toISOString()
    .slice(0, 10) : null)].  [Some None] is the falsy value of a log
    without date and timestamp; [None] is the RangeError of
    [toISOString]. *)
Definition log_key (l : LogEntry) : option (option string) :=
  match date l with
  | Some d =>
      if nonempty d then Some (Some d)
      else if timestamp l =? 0 then Some None
      else if in_date_range (timestamp l) then Some (Some (toISODate (timestamp l)))
      else None
  | None =>
      if timestamp l =? 0 then Some None
      else if in_date_range (timestamp l) then Some (Some (toISODate (timestamp l)))
      else None
  end.

(** [extractMacros(macros)] of [ActivityGraph.jsx]. *)
Definition extractMacros (macros : jsval) : jsnum * jsnum * jsnum :=
  if negb (truthy macros) then (of_Z 0, of_Z 0, of_Z 0)
  else
    (Number_or (coalesce (prop macros "protein_g")
                  (coalesce (prop macros "protein")
                     (coalesce (prop macros "total_protein")
                        (coalesce (prop macros "proteinContent")
                           Aggregator.zero)))) (of_Z 0),
     Number_or (coalesce (prop macros "total_carbohydrate_g")
                  (coalesce (prop macros "carbs")
                     (coalesce (prop macros "total_carbs")
                        (coalesce (prop macros "carbohydrates")
                           Aggregator.zero)))) (of_Z 0),
     Number_or (coalesce (prop macros "total_fat_g")
                  (coalesce (prop macros "fats")
                     (coalesce (prop macros "fat")
                        (coalesce (prop macros "total_fat")
                           Aggregator.zero)))) (of_Z 0)).

(** [Number(l.calories ?? l.macros?.calories_kcal ?? l.macros?.energy_kcal
    ?? 0)], without [|| 0]. *)
Definition entry_calories (l : LogEntry) : jsnum :=
  Number (coalesce (calories l)
            (coalesce (opt_prop (macros l) "calories_kcal")
               (coalesce (opt_prop (macros l) "energy_kcal")
                  Aggregator.zero))).

(** The log counts for the totals of [todayKey]. *)
Definition counts (todayKey : string) (l : LogEntry) : option bool :=
  match log_key l with
  | None => None
  | Some k =>
      Some (match k with
            | Some d => String.eqb d todayKey
            | None => false
            end && is_meal_lower l)
  end.

Definition add_log (acc : Aggregator.Totals) (l : LogEntry)
  : Aggregator.Totals :=
  let '(p, c, f) := extractMacros (macros l) in
  {| Aggregator.t_calories := jadd (Aggregator.t_calories acc) (entry_calories l);
     Aggregator.t_protein := jadd (Aggregator.t_protein acc) p;
     Aggregator.t_carbs := jadd (Aggregator.t_carbs acc) c;
     Aggregator.t_fats := jadd (Aggregator.t_fats acc) f |}.

Fixpoint sum_logs (todayKey : string) (logs : list LogEntry)
    (acc : Aggregator.Totals) : option Aggregator.Totals :=
  match logs with
  | [] => Some acc
  | l :: r =>
      match counts todayKey l with
      | None => None
      | Some true => sum_logs todayKey r (add_log acc l)
      | Some false => sum_logs todayKey r acc
      end
  end.

(** The memo [todayTotals] of [ActivityGraph.jsx]; [todayKey] is
    [new Date().toISOString().slice(0, 10)]. *)
Definition todayTotals (todayKey : string) (logs : list LogEntry)
  : option Aggregator.Totals :=
  option_map Aggregator.round_totals
    (sum_logs todayKey logs Aggregator.no_totals).

(** The keys of the logs that become a [Set]; [None] when [toISOString]
    throws.  A falsy key is no string and is never looked up. *)
Fixpoint string_keys (logs : list LogEntry) : option (list string) :=
  match logs with
  | [] => Some []
  | l :: r =>
      match log_key l, string_keys r with
      | Some (Some d), Some s => Some (d :: s)
      | Some None, Some s => Some s
      | _, _ => None
      end
  end.

(** The [for] loop of [computeStreak]: the day [i] days before today is
    [new Date(today)] after [setDate(today.getDate() - i)]; the loop
    counts it when its key is in the set and ends at a missing day, or
    when the streak exceeds 365.  [turns] is what is left of the 366. *)
Fixpoint streak_from (z : Zone) (today : Z) (s : list string) (i : Z)
    (turns : nat) : nat :=
  match turns with
  | O => O
  | S turns' =>
      if Streaks.set_has (toISODate (setDate_back z i today)) s
      then S (streak_from z today s (i + 1) turns')
      else O
  end.

(** [computeStreak(logs)] of [ActivityGraph.jsx] at the clock [now] in the
    zone [z]. *)
Definition computeStreak (z : Zone) (now : Z) (logs : list LogEntry)
  : option nat :=
  match string_keys logs with
  | Some s => Some (streak_from z now s 0 366)
  | None => None
  end.

(** A log has a key that denotes the day [n]. *)
Definition logged_on (logs : list LogEntry) (n : Z) : Prop :=
  exists l k,
    In l logs /\ log_key l = Some (Some k) /\ parse_date k = Some n.

(** [calcStreakFromLogs(logs)] of [firebaseHelpers.js] at the clock
    [now] in the zone [z]: the walk back of [computeStreaksFromLogs],
    with [fuel] turns.  [Throws] is the RangeError of [toISOString]. *)
Definition calcStreakFromLogs (z : Zone) (fuel : nat) (now : Z)
    (logs : list LogEntry) : Run.run nat :=
  match string_keys logs with
  | Some s => Streaks.count_back z fuel now s
  | None => Run.Throws
  end.

(** The keys of [calcStreakFromLogsRange]: those of the logs with
    [(l.category || "meal") === "meal"], without the falsy ones. *)
Definition meal_keys (logs : list LogEntry) : option (list string) :=
  string_keys (filter is_meal_default logs).

(** [calcStreakFromLogsRange(logs)] of [firebaseHelpers.js] at the clock
    [now] in the zone [z], with [fuel] turns for the walk back. *)
Definition calcStreakFromLogsRange (z : Zone) (fuel : nat) (now : Z)
    (logs : list LogEntry) : Run.run nat :=
  match meal_keys logs with
  | Some s => Streaks.count_back z fuel now s
  | None => Run.Throws
  end.

End Activity.

(* ===================================================================== *)
(** ** The week of the activity graph (ActivityGraph.jsx, lines 41-70) *)
(* ===================================================================== *)

Module Week.

Import Logs Dates.


















End Week.

(* ===================================================================== *)
(** ** The window of a friend's activity (firebaseHelpers.js, 451-464) *)
(* ===================================================================== *)

Module Friends.

Import Logs Dates.

(** [r.date || ""]. *)
Definition date_of (r : LogEntry) : string := str_or (date r) "".

(** Insertion into a list ordered by decreasing date. *)
Fixpoint insert_date_desc (x : LogEntry) (l : list LogEntry)
  : list LogEntry :=
  match l with
  | [] => [x]
  | y :: r =>
      if String.leb (date_of y) (date_of x) then x :: l
      else y :: insert_date_desc x r
  end.

(** [orderBy("date", "desc")]; the order among the logs of one date is
    that of the store here. *)
Definition sort_date_desc (l : list LogEntry) : list LogEntry :=
  fold_right insert_date_desc [] l.

(** The order of the result. *)
Definition later_first (a b : LogEntry) : Prop :=
  String.leb (date_of b) (date_of a) = true.

(** [getFriendActivityWindow(friendUid, days)] at the clock [now] in the
    zone [z]: [start] is the clock after [setDate(end.getDate() - days)];
    [where("date", ">=", startISO)] keeps the documents whose date is a
    string not below [startISO]; the end of the window is filtered
    afterwards. *)
Definition getFriendActivityWindow (z : Zone) (now days : Z) (st : Store)
  : list LogEntry :=
  let startISO := toISODate (setDate_back z days now) in
  let endISO := toISODate now in
  filter (fun r => String.leb (date_of r) endISO)
    (sort_date_desc
       (filter (fun r => match date r with
                         | Some d => String.leb startISO d
                         | None => false
                         end) st)).

(** The log is dated with a day from [lo] to [hi]. *)
Definition dated_within (lo hi : Z) (r : LogEntry) : Prop :=
  exists d n, date r = Some d /\ parse_date d = Some n /\ lo <= n <= hi.

End Friends.

(* ===================================================================== *)
(** ** Custom presets (DailyLogPage.jsx, lines 477-504) *)
(* ===================================================================== *)

Module Preset.

(** A quick-add preset. *)
Record QuickFood : Type := {
  q_id : string;
  name : string;
  emoji : string;
  quantity : jsnum;
  grams : jsnum;
  custom : bool
}.

Inductive Outcome : Type :=
| Alert (message : string)
| Added (preset : QuickFood).

(** The plate emoji that stands for a missing one, in UTF-8. *)
Definition default_emoji : string :=
  String (ascii_of_N 240) (String (ascii_of_N 159) (String (ascii_of_N 141)
  (String (ascii_of_N 189) (String (ascii_of_N 239) (String (ascii_of_N 184)
  (String (ascii_of_N 143) EmptyString)))))).

(** [handleAddCustomPreset()] on the four fields of the form; [new_id] is
    the id made from [Date.now()]. *)
Definition handleAddCustomPreset (new_id : string)
    (customName customEmoji customQty customGrams : string) : Outcome :=
  let nameTrimmed := trim customName in
  let qtyNum := Number_or (JStr customQty) (of_Z 1) in
  let gramsNum := Number_or (JStr customGrams) (of_Z 500) in
  if negb (nonempty nameTrimmed)
  then Alert "Please enter a name for your custom food."
  else if negb (jpositive qtyNum) then Alert "Quantity must be > 0."
  else if negb (jpositive gramsNum) then Alert "Grams must be > 0."
  else Added {| q_id := new_id; name := nameTrimmed;
                emoji := if nonempty customEmoji then customEmoji
                         else default_emoji;
                quantity := qtyNum; grams := gramsNum; custom := true |}.

End Preset.

(* ===================================================================== *)
(** * Properties *)
(* ===================================================================== *)

(* --------------------------------------------------------------------- *)
(** ** Name normalizer *)
(* --------------------------------------------------------------------- *)

(** C4.  [normalize] is not idempotent: the name [! a] is trimmed before
    its punctuation is stripped, the result keeps the space that followed
    the punctuation, and a second application removes it. *)
Theorem normalize_twice_differs :
  normalize "! a" = " a" /\
  normalize (normalize "! a") = "a" /\
  normalize (normalize "! a") <> normalize "! a".
Proof.
  repeat split; try reflexivity.
  vm_compute. discriminate.
Qed.

(* --------------------------------------------------------------------- *)
(** ** Target calculator *)
(* --------------------------------------------------------------------- *)

Section TargetFacts.

Import Targets.

(** C9, as stated: the energy target of the default profile is not the
    rounding of 1643 x 1.55; the code gives 2546 and that product rounds
    to 2547. *)
Lemma default_tdee_not_from_rounded_bmr :
  tdee (computeGoals default_profile)
    <> Math_round (jmul (qnum 1643) (qnum (155 # 100))) /\
  Math_round (jmul (qnum 1643) (qnum (155 # 100))) = of_Z 2547.
Proof.
  split; [vm_compute; discriminate | reflexivity].
Qed.

(** C9, amended.  For the default profile the basal rate is 1642.5 and
    its output field 1643; the total need is the unrounded basal rate
    times 1.55, that is 2545.875, and the output fields [tdee] and
    [calories] are 2546.  For every profile [bmr] and [tdee] are rounded
    at the output fields only. *)
Theorem default_profile_goals :
  jnum_eqb (computeBMR default_profile) (qnum (16425 # 10)) = true /\
  bmr (computeGoals default_profile) = of_Z 1643 /\
  raw_tdee default_profile
    = jmul (computeBMR default_profile) (qnum (155 # 100)) /\
  jnum_eqb (raw_tdee default_profile) (qnum (2545875 # 1000)) = true /\
  tdee (computeGoals default_profile) = of_Z 2546 /\
  calories (computeGoals default_profile) = of_Z 2546 /\
  computeGoals empty_profile = computeGoals default_profile /\
  (forall p, bmr (computeGoals p) = Math_round (computeBMR p) /\
             tdee (computeGoals p) = Math_round (raw_tdee p) /\
             calories (computeGoals p) = Math_round (raw_tdee p)).
Proof.
  repeat split; reflexivity.
Qed.

End TargetFacts.

(* --------------------------------------------------------------------- *)
(** ** Pollers *)
(* --------------------------------------------------------------------- *)

Section PollerFacts.

Import Poller.

Variable responses : nat -> PollResponse.
Variable jitter : nat -> Z.

Lemma pollLoop_never_complete :
  never_complete responses ->
  forall left attempt interval,
    outcome (pollLoop responses jitter left attempt interval)
      = Thrown "Timed out waiting for summary" /\
    requests (pollLoop responses jitter left attempt interval) = left.
Proof.
  intros Hnever left.
  induction left as [|left IH]; intros attempt interval; simpl.
  - split; reflexivity.
  - rewrite Hnever. simpl.
    destruct (IH (S attempt) (next_interval interval)) as [Ho Hr].
    rewrite Ho, Hr. split; reflexivity.
Qed.

Lemma pollLoop_requests_le left :
  forall attempt interval,
    (requests (pollLoop responses jitter left attempt interval) <= left)%nat.
Proof.
  induction left as [|left IH]; intros attempt interval; simpl.
  - lia.
  - destruct (poll_once (responses attempt)); simpl.
    + lia.
    + specialize (IH (S attempt) (next_interval interval)). lia.
Qed.

(** An error leaves [pollForSummary] only when the attempts are used up:
    nothing is thrown from inside the loop. *)
Lemma pollLoop_thrown_at_end left :
  forall attempt interval msg,
    outcome (pollLoop responses jitter left attempt interval) = Thrown msg ->
    requests (pollLoop responses jitter left attempt interval) = left /\
    msg = "Timed out waiting for summary".
Proof.
  induction left as [|left IH]; intros attempt interval msg; simpl.
  - intros H. inversion H. split; reflexivity.
  - destruct (poll_once (responses attempt)); simpl.
    + discriminate.
    + intros H. destruct (IH _ _ _ H) as [Hr Hm]. rewrite Hr. split; auto.
Qed.

Lemma generateLoop_requests_le pollIntervalMs left :
  forall attempts,
    (requests (generateLoop responses left attempts pollIntervalMs) <= left)%nat.
Proof.
  induction left as [|left IH]; intros attempts; simpl.
  - lia.
  - destruct (generate_once (responses attempts)); simpl; try lia.
    specialize (IH (S attempts)). lia.
Qed.

Lemma generateLoop_returns pollIntervalMs left :
  forall attempts,
    exists s,
      outcome (generateLoop responses left attempts pollIntervalMs) = Returned s.
Proof.
  induction left as [|left IH]; intros attempts; simpl.
  - eexists; reflexivity.
  - destruct (generate_once (responses attempts)); simpl;
      try (eexists; reflexivity).
    apply IH.
Qed.

Lemma generateLoop_never_complete pollIntervalMs :
  never_complete_ok responses ->
  forall left attempts,
    outcome (generateLoop responses left attempts pollIntervalMs) = Returned None.
Proof.
  intros Hnever left.
  induction left as [|left IH]; intros attempts; simpl.
  - reflexivity.
  - destruct (generate_once (responses attempts)) eqn:E; simpl.
    + exfalso. exact (Hnever _ _ E).
    + reflexivity.
    + apply IH.
Qed.

End PollerFacts.

(** C2, as stated: with a status endpoint that is always pending,
    [pollForSummary] does not return an absent result, it throws. *)
Lemma pollForSummary_timeout_is_thrown :
  Poller.never_complete Poller.always_pending /\
  Poller.outcome
    (Poller.pollForSummary Poller.always_pending Poller.no_jitter 1500 30)
  = Poller.Thrown "Timed out waiting for summary".
Proof.
  split; [intro k; reflexivity | reflexivity].
Qed.

(** C2, amended.  When no response completes the job, [pollForSummary]
    makes exactly [maxAttempts] requests and then throws its time-out
    error, which [handleSummarizeToday] catches and reads as no summary;
    [generateDailySummary] makes at most [maxAttempts] requests and
    returns null.  In every run [pollForSummary] throws nothing before the
    attempts are used up (a failed request or a malformed body is
    retried), and [generateDailySummary] never throws. *)
Theorem pollers_time_out
    (responses : nat -> Poller.PollResponse) (jitter : nat -> Z)
    (interval pollIntervalMs : Z) (maxAttempts : nat) (start_ok : bool) :
  let p := Poller.pollForSummary responses jitter interval maxAttempts in
  let g := Poller.generateDailySummary responses start_ok pollIntervalMs
             maxAttempts in
  (Poller.never_complete responses ->
     Poller.requests p = maxAttempts /\
     Poller.outcome p = Poller.Thrown "Timed out waiting for summary" /\
     Poller.summary_or_null p = None) /\
  (Poller.never_complete_ok responses ->
     Poller.outcome g = Poller.Returned None) /\
  (Poller.requests p <= maxAttempts)%nat /\
  (Poller.requests g <= maxAttempts)%nat /\
  (forall msg, Poller.outcome p = Poller.Thrown msg ->
     Poller.requests p = maxAttempts /\
     msg = "Timed out waiting for summary") /\
  (exists s, Poller.outcome g = Poller.Returned s).
Proof.
  intros p g. subst p g. unfold Poller.pollForSummary, Poller.generateDailySummary.
  repeat split.
  - apply pollLoop_never_complete; assumption.
  - apply pollLoop_never_complete; assumption.
  - unfold Poller.summary_or_null.
    destruct (pollLoop_never_complete responses jitter H maxAttempts 0%nat interval)
      as [Ho _].
    rewrite Ho. reflexivity.
  - intros Hnever. destruct start_ok; [|reflexivity].
    apply generateLoop_never_complete; assumption.
  - apply pollLoop_requests_le.
  - destruct start_ok; simpl; [apply generateLoop_requests_le | lia].
  - apply (pollLoop_thrown_at_end _ _ _ _ _ _ H).
  - apply (pollLoop_thrown_at_end _ _ _ _ _ _ H).
  - destruct start_ok; [apply generateLoop_returns | eexists; reflexivity].
Qed.

(** The amended C2 on the endpoint that is always pending. *)
Lemma pollers_time_out_always_pending :
  Poller.never_complete Poller.always_pending /\
  Poller.never_complete_ok Poller.always_pending /\
  Poller.requests
    (Poller.pollForSummary Poller.always_pending Poller.no_jitter 1500 30)
  = 30%nat /\
  Poller.outcome
    (Poller.generateDailySummary Poller.always_pending true 1500 30)
  = Poller.Returned None.
Proof.
  assert (H1 : Poller.never_complete Poller.always_pending)
    by (intro k; reflexivity).
  assert (H2 : Poller.never_complete_ok Poller.always_pending)
    by (intros k s; discriminate).
  pose proof (pollers_time_out Poller.always_pending Poller.no_jitter
                1500 1500 30 true) as T.
  simpl in T.
  destruct T as [Tp [Tg _]].
  split; [exact H1|]. split; [exact H2|].
  split; [exact (proj1 (Tp H1)) | exact (Tg H2)].
Defined.

Section BackoffFacts.

Import Poller.





Variable responses : nat -> PollResponse.
Variable jitter : nat -> Z.



End BackoffFacts.




(* --------------------------------------------------------------------- *)
(** ** Sorting by decreasing timestamp *)
(* --------------------------------------------------------------------- *)

Section SortFacts.

Import Logs.

Lemma In_insert_desc (x a : LogEntry) (l : list LogEntry) :
  In x (insert_desc a l) <-> x = a \/ In x l.
Proof.
  induction l as [|y r IH]; simpl.
  - intuition.
  - destruct (timestamp y <=? timestamp a); simpl.
    + intuition.
    + rewrite IH. intuition.
Qed.

Lemma In_sort_desc (x : LogEntry) (l : list LogEntry) :
  In x (sort_desc l) <-> In x l.
Proof.
  induction l as [|a r IH]; simpl.
  - tauto.
  - rewrite In_insert_desc, IH. intuition.
Qed.

Lemma insert_desc_head_newest (a : LogEntry) (l : list LogEntry) :
  head_newest l -> head_newest (insert_desc a l).
Proof.
  destruct l as [|y r]; simpl.
  - intros _ x [Hx | []]. subst. lia.
  - intros H. destruct (timestamp y <=? timestamp a) eqn:E; simpl.
    + apply Z.leb_le in E.
      intros x [Hx | Hx].
      * subst. lia.
      * specialize (H x Hx). lia.
    + apply Z.leb_gt in E.
      intros x [Hx | Hx].
      * subst. lia.
      * apply In_insert_desc in Hx. destruct Hx as [Hx | Hx].
        -- subst. lia.
        -- apply H. right. exact Hx.
Qed.

Lemma sort_desc_head_newest (l : list LogEntry) : head_newest (sort_desc l).
Proof.
  induction l as [|a r IH]; simpl.
  - exact I.
  - apply insert_desc_head_newest. exact IH.
Qed.

Lemma hd_sort_desc (l : list LogEntry) (e : LogEntry) :
  hd_error (sort_desc l) = Some e ->
  In e l /\ forall x, In x l -> timestamp x <= timestamp e.
Proof.
  intros H.
  pose proof (sort_desc_head_newest l) as Hn.
  destruct (sort_desc l) as [|e' r] eqn:E; simpl in H; [discriminate|].
  inversion H; subst e'.
  split.
  - apply In_sort_desc. rewrite E. left. reflexivity.
  - intros x Hx. apply Hn. rewrite <- E. apply In_sort_desc. exact Hx.
Qed.


End SortFacts.

(* --------------------------------------------------------------------- *)
(** ** The matcher *)
(* --------------------------------------------------------------------- *)

Section MatcherFacts.

Import Logs Matcher.

Lemma nth_Z_In {A : Type} (l : list A) (i : Z) (x : A) :
  nth_Z l i = Some x -> In x l.
Proof.
  unfold nth_Z. destruct (i <? 0); [discriminate|].
  apply nth_error_In.
Qed.

(** The entry selected by rule 1 is a meal by [(l.category || "meal")];
    the entry selected by rules 2 and 4 is a meal by
    [(l.category || "").toLowerCase()]. *)
Lemma find_match_category (logs : list LogEntry) (a : AnalysisResult)
    (r : Rule) (l : LogEntry) :
  find_match logs a = Some (r, l) ->
  In l logs /\
  match r with
  | Exact => is_meal_default l = true
  | Positional | MostRecent => is_meal_lower l = true
  | Substring => True
  end.
Proof.
  unfold find_match.
  destruct (exact_match logs a) as [e|] eqn:E1.
  { intros H; inversion H; subst. unfold exact_match in E1.
    apply find_some in E1. destruct E1 as [Hin Hp].
    unfold exact_pred in Hp. apply andb_true_iff in Hp. tauto. }
  destruct (positional_match logs a) as [e|] eqn:E2.
  { intros H; inversion H; subst. unfold positional_match in E2.
    destruct (analyzedId a); [|discriminate].
    destruct (test_item_digits s); [|discriminate].
    apply nth_Z_In in E2. apply filter_In in E2. exact E2. }
  destruct (substring_match logs a) as [e|] eqn:E3.
  { intros H; inversion H; subst. unfold substring_match in E3.
    destruct (nonempty (analyzedName a)); [|discriminate].
    split; [|exact I].
    destruct (find _ logs) as [e'|] eqn:F1 in E3.
    - inversion E3; subst. apply find_some in F1. tauto.
    - apply find_some in E3. tauto. }
  destruct (most_recent_match logs) as [e|] eqn:E4; [|discriminate].
  intros H; inversion H; subst. unfold most_recent_match in E4.
  apply hd_sort_desc in E4. destruct E4 as [Hin _].
  apply filter_In in Hin. exact Hin.
Qed.

Lemma apply_patch_identity (p : Patch) (l : LogEntry) :
  same_identity (apply_patch p l) l.
Proof. repeat split. Qed.

Lemma same_identity_refl (l : LogEntry) : same_identity l l.
Proof. repeat split. Qed.

Lemma same_identity_trans (l1 l2 l3 : LogEntry) :
  same_identity l1 l2 -> same_identity l2 l3 -> same_identity l1 l3.
Proof.
  unfold same_identity. intros H1 H2.
  decompose [and] H1. decompose [and] H2.
  repeat split; congruence.
Qed.

Lemma apply_patch_same_identity (p : Patch) (l' l : LogEntry) :
  same_identity l' l -> apply_patch p l' = apply_patch p l.
Proof.
  unfold same_identity, apply_patch. intros H. decompose [and] H.
  f_equal; assumption.
Qed.

Lemma patch_id_identity (i : string) (p : Patch) (l : LogEntry) :
  same_identity (patch_id i p l) l.
Proof.
  unfold patch_id. destruct (String.eqb (id l) i).
  - apply apply_patch_identity.
  - apply same_identity_refl.
Qed.

Lemma patch_id_other (i : string) (p : Patch) (l : LogEntry) :
  id l <> i -> patch_id i p l = l.
Proof.
  intros H. unfold patch_id.
  destruct (String.eqb (id l) i) eqn:E; [|reflexivity].
  apply String.eqb_eq in E. contradiction.
Qed.

Lemma update_caught_cases (st : Store) (i : string) (p : Patch) :
  update_caught st i p = st \/ update_caught st i p = map (patch_id i p) st.
Proof.
  unfold update_caught, updateDailyLog.
  destruct (negb (nonempty i)); [left; reflexivity|].
  destruct (is_undefined (p_calories p) || is_undefined (p_macros p)
            || is_undefined (p_provenance p)); [left; reflexivity|].
  destruct (existsb _ st); [right; reflexivity | left; reflexivity].
Qed.

Lemma map_id_ext (F : LogEntry -> LogEntry) (st : Store) :
  (forall l, In l st -> F l = l) -> map F st = st.
Proof.
  intros H. induction st as [|x r IH]; simpl; [reflexivity|].
  rewrite H by (left; reflexivity).
  rewrite IH; [reflexivity|].
  intros l Hl. apply H. right. exact Hl.
Qed.

(** A step of either loop that writes, if at all, the patch [p] at the id
    [i]. *)
Lemma update_caught_as_map (st : Store) (i : string) (p : Patch) :
  exists F,
    update_caught st i p = map F st /\
    (forall l, same_identity (F l) l) /\
    (forall l, id l <> i -> F l = l).
Proof.
  destruct (update_caught_cases st i p) as [H | H]; rewrite H.
  - exists (fun l => l). split; [symmetry; apply map_id|].
    split; [apply same_identity_refl | reflexivity].
  - exists (patch_id i p). split; [reflexivity|].
    split; [apply patch_id_identity | apply patch_id_other].
Qed.

(** The loop of [analyzeItemsBackend] maps a function over the store that
    keeps the identity of every entry and leaves alone the entries whose
    id no result selects. *)
Lemma reconcile_loop_as_map (cur : list LogEntry)
    (results : list AnalysisResult) :
  forall st,
  exists F,
    reconcile_loop cur results st = map F st /\
    (forall l, same_identity (F l) l) /\
    (forall l, (forall a, In a results -> selected_id cur a <> Some (id l)) ->
               F l = l).
Proof.
  induction results as [|a rest IH]; intros st.
  - exists (fun l => l). simpl. split; [symmetry; apply map_id|].
    split; [apply same_identity_refl | reflexivity].
  - assert (S1 : exists F1,
               reconcile_step cur st a = map F1 st /\
               (forall l, same_identity (F1 l) l) /\
               (forall l, selected_id cur a <> Some (id l) -> F1 l = l)).
    { unfold reconcile_step. destruct (selected_id cur a) as [i|].
      - destruct (update_caught_as_map st i (patch_of a)) as [F [E [I O]]].
        exists F. split; [exact E|]. split; [exact I|].
        intros l Hl. apply O. congruence.
      - exists (fun l => l). split; [symmetry; apply map_id|].
        split; [apply same_identity_refl | reflexivity]. }
    destruct S1 as [F1 [E1 [I1 O1]]].
    destruct (IH (reconcile_step cur st a)) as [F2 [E2 [I2 O2]]].
    exists (fun l => F2 (F1 l)).
    split.
    { unfold reconcile_loop in *. simpl. rewrite E2, E1, map_map.
      reflexivity. }
    split.
    { intros l. eapply same_identity_trans; [apply I2 | apply I1]. }
    intros l Hl.
    rewrite O1 by (apply Hl; left; reflexivity).
    apply O2. intros b Hb. apply Hl. right. exact Hb.
Qed.




End MatcherFacts.

Section AnalyzeTodayFacts.

Import Logs Matcher.

Lemma selected_In (meals : list LogEntry) (a : AnalysisResult)
    (m : LogEntry) (p : Patch) :
  AnalyzeToday.selected meals a = Some (m, p) -> In m meals.
Proof.
  unfold AnalyzeToday.selected.
  assert (Hf : forall q,
             match AnalyzeToday.fuzzy_match meals a with
             | Some f => if nonempty (id f)
                         then Some (f, AnalyzeToday.fuzzy_patch a f) else None
             | None => None
             end = Some (m, q) -> In m meals).
  { intros q. destruct (AnalyzeToday.fuzzy_match meals a) as [f|] eqn:E;
      [|discriminate].
    destruct (nonempty (id f)); [|discriminate].
    intros H; inversion H; subst.
    unfold AnalyzeToday.fuzzy_match in E. apply find_some in E. tauto. }
  destruct (AnalyzeToday.primary_match meals a) as [x|] eqn:E.
  - destruct (nonempty (id x)).
    + intros H; inversion H; subst.
      unfold AnalyzeToday.primary_match in E.
      destruct (find _ meals) as [y|] eqn:F in E.
      * inversion E; subst. apply find_some in F. tauto.
      * destruct (r_id a) as [aid|]; [|discriminate].
        destruct (nonempty aid && startsWith aid "item-"); [|discriminate].
        destruct (AnalyzeToday.positional_index aid); [|discriminate].
        eapply nth_Z_In. exact E.
    + apply Hf.
  - apply Hf.
Qed.

(** The loop of [handleAnalyzeToday] maps a function over the store that
    keeps the identity of every entry and leaves alone the entries whose
    id is not that of a meal of the query. *)
Lemma analyze_today_as_map (meals : list LogEntry)
    (analyses : list AnalysisResult) :
  forall st,
  exists G,
    fold_left (AnalyzeToday.reconcile_step meals) analyses st = map G st /\
    (forall l, same_identity (G l) l) /\
    (forall l, (forall m, In m meals -> id m <> id l) -> G l = l).
Proof.
  induction analyses as [|a rest IH]; intros st.
  - exists (fun l => l). simpl. split; [symmetry; apply map_id|].
    split; [apply same_identity_refl | reflexivity].
  - assert (S1 : exists F1,
               AnalyzeToday.reconcile_step meals st a = map F1 st /\
               (forall l, same_identity (F1 l) l) /\
               (forall l, (forall m, In m meals -> id m <> id l) -> F1 l = l)).
    { unfold AnalyzeToday.reconcile_step.
      destruct (AnalyzeToday.selected meals a) as [[m p]|] eqn:E.
      - destruct (update_caught_as_map st (id m) p) as [F [EF [I O]]].
        exists F. split; [exact EF|]. split; [exact I|].
        intros l Hl. apply O. intros Heq.
        apply (Hl m); [eapply selected_In; exact E | symmetry; exact Heq].
      - exists (fun l => l). split; [symmetry; apply map_id|].
        split; [apply same_identity_refl | reflexivity]. }
    destruct S1 as [F1 [E1 [I1 O1]]].
    destruct (IH (AnalyzeToday.reconcile_step meals st a)) as [F2 [E2 [I2 O2]]].
    exists (fun l => F2 (F1 l)).
    split.
    { simpl. rewrite E2, E1, map_map. reflexivity. }
    split.
    { intros l. eapply same_identity_trans; [apply I2 | apply I1]. }
    intros l Hl. rewrite O1 by exact Hl. apply O2. exact Hl.
Qed.

Lemma NoDup_map_eq {A B : Type} (f : A -> B) (l : list A) (x y : A) :
  NoDup (map f l) -> In x l -> In y l -> f x = f y -> x = y.
Proof.
  induction l as [|z r IH]; simpl; intros Hnd Hx Hy Hf; [destruct Hx|].
  inversion Hnd as [|? ? Hnotin Hnd']; subst.
  destruct Hx as [Hx | Hx], Hy as [Hy | Hy].
  - congruence.
  - subst z. exfalso. apply Hnotin. rewrite Hf. apply in_map. exact Hy.
  - subst z. exfalso. apply Hnotin. rewrite <- Hf. apply in_map. exact Hx.
  - apply IH; assumption.
Qed.

Lemma opt_is_true (o : option string) (s : string) :
  AnalyzeToday.opt_is o s = true <-> o = Some s.
Proof.
  unfold AnalyzeToday.opt_is. destruct o as [x|].
  - rewrite String.eqb_eq. split; congruence.
  - split; discriminate.
Qed.

Lemma todays_meals_spec (today : string) (st : Store) (m : LogEntry) :
  In m (AnalyzeToday.todays_meals today st) <->
  In m st /\ date m = Some today /\ category m = Some "meal".
Proof.
  unfold AnalyzeToday.todays_meals. rewrite filter_In, andb_true_iff.
  rewrite !opt_is_true. tauto.
Qed.

End AnalyzeTodayFacts.

(** C1, as stated: a meal whose calories the user typed (500) is selected
    by name and its calories, macros and provenance are overwritten by the
    result (130), in [analyzeItemsBackend] and in [handleAnalyzeToday]. *)
Lemma manual_calories_overwritten :
  Logs.manualOverride Scenario.manual_rice = true /\
  Logs.category Scenario.manual_rice = Some "meal" /\
  map Logs.calories
      (Matcher.analyzeItemsBackend [Scenario.manual_rice] [Scenario.rice_130])
    = [JNum (of_Z 130)] /\
  map Logs.calories
      (AnalyzeToday.handleAnalyzeToday "2024-01-05" [Scenario.manual_rice]
         [Scenario.rice_130])
    = [JNum (of_Z 130)] /\
  Logs.calories Scenario.manual_rice = JNum (of_Z 500).
Proof.
  repeat split; reflexivity.
Qed.

(** C1, amended.  A reconciliation pass changes nothing but the calories,
    macros and provenance of entries, and only of entries that a result
    selects: every entry whose id no result selects is unchanged.  The
    entry selected by the exact rule, the positional rule or the
    most-recent rule of [analyzeItemsBackend] is a meal entry, and
    [handleAnalyzeToday] changes only meal entries of today.  (The manual
    override is not consulted.) *)
Theorem reconcile_frame (st : Logs.Store)
    (results : list Logs.AnalysisResult) (today : string) :
  NoDup (map Logs.id st) ->
  (exists F,
      Matcher.analyzeItemsBackend st results = map F st /\
      (forall l, Matcher.same_identity (F l) l) /\
      (forall l,
          (forall a, In a results ->
                     Matcher.selected_id (Logs.getDailyLogs st) a
                       <> Some (Logs.id l)) ->
          F l = l)) /\
  (forall a r l,
      Matcher.find_match (Logs.getDailyLogs st) a = Some (r, l) ->
      In l st /\
      match r with
      | Matcher.Exact => Logs.is_meal_default l = true
      | Matcher.Positional | Matcher.MostRecent => Logs.is_meal_lower l = true
      | Matcher.Substring => True
      end) /\
  (exists G,
      AnalyzeToday.handleAnalyzeToday today st results = map G st /\
      (forall l, Matcher.same_identity (G l) l) /\
      (forall l, In l st ->
                 Logs.category l <> Some "meal" \/ Logs.date l <> Some today ->
                 G l = l)).
Proof.
  intros Hnd. split; [|split].
  - apply reconcile_loop_as_map.
  - intros a r l H. apply find_match_category in H.
    destruct H as [Hin Hr]. split; [|exact Hr].
    apply In_sort_desc. exact Hin.
  - destruct (analyze_today_as_map (AnalyzeToday.todays_meals today st)
                results st) as [G [E [I O]]].
    exists G. split; [exact E|]. split; [exact I|].
    intros l Hl Hnot. apply O. intros m Hm Heq.
    apply todays_meals_spec in Hm. destruct Hm as [Hin [Hd Hc]].
    assert (m = l) by (eapply NoDup_map_eq; eauto).
    subst m. destruct Hnot; congruence.
Qed.

(** The amended C1 on a store of two meals. *)
Lemma reconcile_frame_two_meals :
  NoDup (map Logs.id Scenario.two_meals) /\
  exists F,
    Matcher.analyzeItemsBackend Scenario.two_meals [Scenario.item_1_xyz]
      = map F Scenario.two_meals.
Proof.
  assert (Hnd : NoDup (map Logs.id Scenario.two_meals)).
  { simpl. constructor.
    - simpl. intros [H | []]. discriminate.
    - constructor; [simpl; tauto | constructor]. }
  split; [exact Hnd|].
  destruct (reconcile_frame Scenario.two_meals [Scenario.item_1_xyz]
              "2024-01-05" Hnd) as [[F [E _]] _].
  exists F. exact E.
Defined.

(* --------------------------------------------------------------------- *)

(** C6.  Two meals are submitted, [Aaa] and then [Bbb]; the result
    [{ id: "item-1", name: "Xyz" }] matches no name.  [getDailyLogs] lists
    the newest first, so [analyzeItemsBackend] takes [sameDateMeals[1]],
    which is the first meal submitted, and writes the result there; the
    second meal submitted keeps no nutrition.  [handleAnalyzeToday]
    indexes the list that it submitted and updates the second meal. *)
Theorem positional_fallback_reads_newest_first :
  Logs.getDailyLogs Scenario.two_meals
    = [Scenario.second_meal; Scenario.first_meal] /\
  Matcher.exact_match (Logs.getDailyLogs Scenario.two_meals)
    Scenario.item_1_xyz = None /\
  Matcher.find_match (Logs.getDailyLogs Scenario.two_meals)
    Scenario.item_1_xyz = Some (Matcher.Positional, Scenario.first_meal) /\
  map (fun l => (Logs.id l, Logs.calories l))
      (Matcher.analyzeItemsBackend Scenario.two_meals [Scenario.item_1_xyz])
    = [("a", JNum (of_Z 50)); ("b", JUndefined)] /\
  map (fun l => (Logs.id l, Logs.calories l))
      (AnalyzeToday.handleAnalyzeToday "2024-01-05" Scenario.two_meals
         [Scenario.item_1_xyz])
    = [("a", JUndefined); ("b", JNum (of_Z 50))].
Proof.
  repeat split; reflexivity.
Qed.

Section LastWriteFacts.

Import Logs Matcher.







End LastWriteFacts.




(* --------------------------------------------------------------------- *)







(* --------------------------------------------------------------------- *)
(** ** Daily totals *)
(* --------------------------------------------------------------------- *)

Section AggregatorFacts.

Import Logs Aggregator.














End AggregatorFacts.




(* --------------------------------------------------------------------- *)
(** ** The calendar *)
(* --------------------------------------------------------------------- *)

Section CalendarFacts.

Import Dates.

Lemma month_cases (m : Z) :
  1 <= m <= 12 ->
  m = 1 \/ m = 2 \/ m = 3 \/ m = 4 \/ m = 5 \/ m = 6 \/
  m = 7 \/ m = 8 \/ m = 9 \/ m = 10 \/ m = 11 \/ m = 12.
Proof. lia. Qed.

Lemma valid_date_iff (y m d : Z) :
  valid_date (y, m, d) = true <->
  1 <= m <= 12 /\ 1 <= d <= days_in_month y m.
Proof.
  unfold valid_date. rewrite !andb_true_iff, !Z.leb_le. tauto.
Qed.

Lemma is_leap_true (y : Z) :
  is_leap y = true <-> y mod 4 = 0 /\ (y mod 100 <> 0 \/ y mod 400 = 0).
Proof.
  unfold is_leap.
  rewrite andb_true_iff, orb_true_iff, negb_true_iff, !Z.eqb_eq, Z.eqb_neq.
  tauto.
Qed.

Lemma is_leap_false (y : Z) :
  is_leap y = false <-> y mod 4 <> 0 \/ (y mod 100 = 0 /\ y mod 400 <> 0).
Proof.
  unfold is_leap.
  rewrite andb_false_iff, orb_false_iff, negb_false_iff, !Z.eqb_eq, !Z.eqb_neq.
  tauto.
Qed.

Lemma february (y : Z) :
  (days_in_month y 2 = 29 /\ y mod 4 = 0 /\ (y mod 100 <> 0 \/ y mod 400 = 0)) \/
  (days_in_month y 2 = 28 /\ (y mod 4 <> 0 \/ (y mod 100 = 0 /\ y mod 400 <> 0))).
Proof.
  unfold days_in_month. simpl (2 =? 2).
  destruct (is_leap y) eqn:E.
  - left. apply is_leap_true in E. tauto.
  - right. apply is_leap_false in E. tauto.
Qed.

Ltac month_split m H :=
  destruct (month_cases m H) as
    [?|[?|[?|[?|[?|[?|[?|[?|[?|[?|[?|?]]]]]]]]]]]; subst m.

Lemma days_in_month_bounds (y m : Z) : 28 <= days_in_month y m <= 31.
Proof.
  unfold days_in_month.
  destruct (m =? 2); [destruct (is_leap y); lia|].
  destruct ((m =? 4) || (m =? 6) || (m =? 9) || (m =? 11)); lia.
Qed.

Lemma days_from_civil_early (y m d : Z) :
  m <= 2 ->
  days_from_civil (y, m, d)
  = 365 * (y - 1) + (y - 1) / 4 - (y - 1) / 100 + (y - 1) / 400
    + (153 * (m + 9) + 2) / 5 + d - 1 - 719468.
Proof.
  intros H. unfold days_from_civil.
  apply Z.leb_le in H. rewrite H. reflexivity.
Qed.

Lemma days_from_civil_late (y m d : Z) :
  2 < m ->
  days_from_civil (y, m, d)
  = 365 * y + y / 4 - y / 100 + y / 400
    + (153 * (m - 3) + 2) / 5 + d - 1 - 719468.
Proof.
  intros H. unfold days_from_civil.
  apply Z.leb_gt in H. rewrite H. reflexivity.
Qed.

Ltac month_length :=
  repeat match goal with
    | |- context [days_in_month ?y ?m] =>
        let v := eval cbv in (days_in_month y m) in
        change (days_in_month y m) with v
    end.

Ltac day_numbers :=
  repeat first [ rewrite days_from_civil_early by lia
               | rewrite days_from_civil_late by lia ];
  Z.div_mod_to_equations; lia.

Lemma next_date_spec (t : civil) :
  valid_date t = true ->
  valid_date (next_date t) = true /\
  days_from_civil (next_date t) = days_from_civil t + 1.
Proof.
  destruct t as [[y m] d]. intros H. apply valid_date_iff in H.
  destruct H as [Hm Hd].
  unfold next_date.
  destruct (d <? days_in_month y m) eqn:E.
  - apply Z.ltb_lt in E. split.
    + apply valid_date_iff. lia.
    + unfold days_from_civil. lia.
  - apply Z.ltb_ge in E. assert (d = days_in_month y m) by lia. subst d.
    clear E Hd.
    destruct (m <? 12) eqn:E12.
    + apply Z.ltb_lt in E12. split.
      * apply valid_date_iff. pose proof (days_in_month_bounds y (m + 1)). lia.
      * assert (Hm' : 1 <= m <= 12) by lia.
        month_split m Hm'; try lia.
        2: { destruct (february y) as [[Hf Hl] | [Hf Hl]]; rewrite Hf;
             day_numbers. }
        all: month_length; day_numbers.
    + apply Z.ltb_ge in E12. assert (m = 12) by lia. subst m. split.
      * reflexivity.
      * month_length. day_numbers.
Qed.

Lemma prev_date_spec (t : civil) :
  valid_date t = true ->
  valid_date (prev_date t) = true /\
  days_from_civil (prev_date t) = days_from_civil t - 1.
Proof.
  destruct t as [[y m] d]. intros H. apply valid_date_iff in H.
  destruct H as [Hm Hd].
  unfold prev_date.
  destruct (1 <? d) eqn:E.
  - apply Z.ltb_lt in E. split.
    + apply valid_date_iff. lia.
    + unfold days_from_civil. lia.
  - apply Z.ltb_ge in E. assert (d = 1) by lia. subst d. clear E Hd.
    destruct (1 <? m) eqn:E1.
    + apply Z.ltb_lt in E1. split.
      * apply valid_date_iff. pose proof (days_in_month_bounds y (m - 1)). lia.
      * assert (Hm' : 1 <= m <= 12) by lia.
        month_split m Hm'; try lia.
        2: { change (3 - 1) with 2.
             destruct (february y) as [[Hf Hl] | [Hf Hl]]; rewrite Hf;
             day_numbers. }
        all: month_length; day_numbers.
    + apply Z.ltb_ge in E1. assert (m = 1) by lia. subst m. split.
      * reflexivity.
      * day_numbers.
Qed.

Lemma iter_next_spec (n : nat) :
  valid_date (Nat.iter n next_date epoch) = true /\
  days_from_civil (Nat.iter n next_date epoch) = Z.of_nat n.
Proof.
  induction n as [|n [IHv IHd]].
  - split; reflexivity.
  - rewrite Nat.iter_succ.
    destruct (next_date_spec _ IHv) as [Hv Hd].
    split; [exact Hv|]. rewrite Hd, IHd. lia.
Qed.

Lemma iter_prev_spec (n : nat) :
  valid_date (Nat.iter n prev_date epoch) = true /\
  days_from_civil (Nat.iter n prev_date epoch) = - Z.of_nat n.
Proof.
  induction n as [|n [IHv IHd]].
  - split; reflexivity.
  - rewrite Nat.iter_succ.
    destruct (prev_date_spec _ IHv) as [Hv Hd].
    split; [exact Hv|]. rewrite Hd, IHd. lia.
Qed.

(** Every day number has a valid date, whose day number it is. *)
Lemma date_of_day_spec (n : Z) :
  valid_date (date_of_day n) = true /\
  days_from_civil (date_of_day n) = n.
Proof.
  unfold date_of_day. destruct (0 <=? n) eqn:E.
  - apply Z.leb_le in E.
    destruct (iter_next_spec (Z.to_nat n)) as [Hv Hd].
    split; [exact Hv|]. rewrite Hd. lia.
  - apply Z.leb_gt in E.
    destruct (iter_prev_spec (Z.to_nat (- n))) as [Hv Hd].
    split; [exact Hv|]. rewrite Hd. lia.
Qed.

Ltac month_length_in H :=
  repeat match type of H with
    | context [days_in_month ?y ?m] =>
        let v := eval cbv in (days_in_month y m) in
        change (days_in_month y m) with v in H
    end.

(** Within a year the day number grows with the month. *)
Lemma days_from_civil_month_lt (y m1 d1 m2 d2 : Z) :
  valid_date (y, m1, d1) = true ->
  valid_date (y, m2, d2) = true ->
  m1 < m2 ->
  days_from_civil (y, m1, d1) < days_from_civil (y, m2, d2).
Proof.
  intros H1 H2 Hlt.
  apply valid_date_iff in H1. apply valid_date_iff in H2.
  destruct H1 as [Hm1 Hd1], H2 as [Hm2 Hd2].
  assert (Hd2' : 1 <= d2) by lia. clear Hd2.
  month_split m1 Hm1; month_split m2 Hm2; try lia.
  all: try (destruct (february y) as [[Hf Hl] | [Hf Hl]]; rewrite Hf in Hd1;
            day_numbers).
  all: month_length_in Hd1; day_numbers.
Qed.

Lemma days_from_civil_year_lt (y1 m1 d1 y2 m2 d2 : Z) :
  valid_date (y1, m1, d1) = true ->
  valid_date (y2, m2, d2) = true ->
  y1 < y2 ->
  days_from_civil (y1, m1, d1) < days_from_civil (y2, m2, d2).
Proof.
  intros H1 H2 Hlt.
  assert (A : days_from_civil (y1, m1, d1) <= days_from_civil (y1, 12, 31)).
  { destruct (Z.eq_dec m1 12) as [E | E].
    - subst m1. apply valid_date_iff in H1. month_length_in H1.
      unfold days_from_civil. lia.
    - apply Z.lt_le_incl. apply days_from_civil_month_lt; try assumption.
      + reflexivity.
      + apply valid_date_iff in H1. lia. }
  assert (B : days_from_civil (y2, 1, 1) <= days_from_civil (y2, m2, d2)).
  { destruct (Z.eq_dec m2 1) as [E | E].
    - subst m2. apply valid_date_iff in H2.
      unfold days_from_civil. lia.
    - apply Z.lt_le_incl. apply days_from_civil_month_lt; try assumption.
      + reflexivity.
      + apply valid_date_iff in H2. lia. }
  assert (C : days_from_civil (y1, 12, 31) < days_from_civil (y2, 1, 1)).
  { day_numbers. }
  lia.
Qed.

Lemma days_from_civil_lt (t1 t2 : civil) :
  valid_date t1 = true -> valid_date t2 = true ->
  civil_lt t1 t2 -> days_from_civil t1 < days_from_civil t2.
Proof.
  destruct t1 as [[y1 m1] d1], t2 as [[y2 m2] d2].
  intros H1 H2 [Hy | [Hy [Hm | [Hm Hd]]]].
  - apply days_from_civil_year_lt; assumption.
  - subst y2. apply days_from_civil_month_lt; assumption.
  - subst y2 m2. unfold days_from_civil. lia.
Qed.

Lemma civil_trichotomy (t1 t2 : civil) :
  civil_lt t1 t2 \/ t1 = t2 \/ civil_lt t2 t1.
Proof.
  destruct t1 as [[y1 m1] d1], t2 as [[y2 m2] d2]. unfold civil_lt.
  destruct (Z.lt_trichotomy y1 y2) as [H | [H | H]]; try lia.
  destruct (Z.lt_trichotomy m1 m2) as [H' | [H' | H']]; try lia.
  destruct (Z.lt_trichotomy d1 d2) as [H'' | [H'' | H'']]; try lia.
  right. left. congruence.
Qed.

Lemma days_from_civil_inj (t1 t2 : civil) :
  valid_date t1 = true -> valid_date t2 = true ->
  days_from_civil t1 = days_from_civil t2 -> t1 = t2.
Proof.
  intros H1 H2 E.
  destruct (civil_trichotomy t1 t2) as [H | [H | H]].
  - pose proof (days_from_civil_lt _ _ H1 H2 H). lia.
  - exact H.
  - pose proof (days_from_civil_lt _ _ H2 H1 H). lia.
Qed.

(** A valid date is the date of its day number. *)
Lemma date_of_day_days (t : civil) :
  valid_date t = true -> date_of_day (days_from_civil t) = t.
Proof.
  intros H.
  destruct (date_of_day_spec (days_from_civil t)) as [Hv Hd].
  apply days_from_civil_inj; assumption.
Qed.

(** *** Day keys *)

Lemma digit_cases (k : Z) :
  0 <= k <= 9 ->
  k = 0 \/ k = 1 \/ k = 2 \/ k = 3 \/ k = 4 \/
  k = 5 \/ k = 6 \/ k = 7 \/ k = 8 \/ k = 9.
Proof. lia. Qed.

Ltac digit_split k H :=
  destruct (digit_cases k H) as [?|[?|[?|[?|[?|[?|[?|[?|[?|?]]]]]]]]];
  subst k.

Lemma is_digit_digit_char (k : Z) :
  0 <= k <= 9 -> is_digit (digit_char k) = true.
Proof. intros H. digit_split k H; reflexivity. Qed.

Lemma digit_val_digit_char (k : Z) :
  0 <= k <= 9 -> digit_val (digit_char k) = k.
Proof. intros H. digit_split k H; reflexivity. Qed.

Lemma compare_digit_char (a b : Z) :
  0 <= a <= 9 -> 0 <= b <= 9 ->
  Ascii.compare (digit_char a) (digit_char b) = (a ?= b).
Proof.
  intros Ha Hb. digit_split a Ha; digit_split b Hb; reflexivity.
Qed.

Lemma pad2_digits (n : Z) :
  0 <= n <= 99 ->
  exists a b,
    0 <= a <= 9 /\ 0 <= b <= 9 /\ n = a * 10 + b /\
    pad2 n = String (digit_char a) (String (digit_char b) EmptyString).
Proof.
  intros H. exists (n / 10), (n mod 10).
  unfold pad2. rewrite (Z.mod_small (n / 10) 10).
  - repeat split; try reflexivity; Z.div_mod_to_equations; lia.
  - Z.div_mod_to_equations; lia.
Qed.

Lemma pad4_digits (y : Z) :
  0 <= y <= 9999 ->
  exists a b c d,
    0 <= a <= 9 /\ 0 <= b <= 9 /\ 0 <= c <= 9 /\ 0 <= d <= 9 /\
    y = ((a * 10 + b) * 10 + c) * 10 + d /\
    pad4 y = String (digit_char a) (String (digit_char b)
               (String (digit_char c) (String (digit_char d) EmptyString))).
Proof.
  intros H.
  assert (H1 : 0 <= y / 100 <= 99) by (Z.div_mod_to_equations; lia).
  destruct (pad2_digits (y / 100) H1) as [a [b [Ha [Hb [E1 P1]]]]].
  exists a, b, (y / 10 mod 10), (y mod 10).
  unfold pad4. rewrite P1. unfold pad2.
  repeat split; try reflexivity; Z.div_mod_to_equations; lia.
Qed.

Lemma format_date_chars (y m d : Z) :
  0 <= y <= 9999 -> valid_date (y, m, d) = true ->
  exists k1 k2 k3 k4 k5 k6 k7 k8,
    (0 <= k1 <= 9 /\ 0 <= k2 <= 9 /\ 0 <= k3 <= 9 /\ 0 <= k4 <= 9) /\
    (0 <= k5 <= 9 /\ 0 <= k6 <= 9 /\ 0 <= k7 <= 9 /\ 0 <= k8 <= 9) /\
    y = ((k1 * 10 + k2) * 10 + k3) * 10 + k4 /\
    m = k5 * 10 + k6 /\ d = k7 * 10 + k8 /\
    format_date (y, m, d) = key_chars k1 k2 k3 k4 k5 k6 k7 k8.
Proof.
  intros Hy Hv. apply valid_date_iff in Hv. destruct Hv as [Hm Hd].
  pose proof (days_in_month_bounds y m) as Hb.
  destruct (pad4_digits y Hy) as [k1 [k2 [k3 [k4 [H1 [H2 [H3 [H4 [Ey Py]]]]]]]]].
  destruct (pad2_digits m) as [k5 [k6 [H5 [H6 [Em Pm]]]]]; [lia|].
  destruct (pad2_digits d) as [k7 [k8 [H7 [H8 [Ed Pd]]]]]; [lia|].
  exists k1, k2, k3, k4, k5, k6, k7, k8.
  repeat split; try assumption; try lia.
  unfold format_date, year_string.
  replace ((0 <=? y) && (y <=? 9999)) with true
    by (symmetry; apply andb_true_iff; split; apply Z.leb_le; lia).
  rewrite Py, Pm, Pd. reflexivity.
Qed.

Lemma parse_key_chars (k1 k2 k3 k4 k5 k6 k7 k8 : Z) :
  (0 <= k1 <= 9 /\ 0 <= k2 <= 9 /\ 0 <= k3 <= 9 /\ 0 <= k4 <= 9) ->
  (0 <= k5 <= 9 /\ 0 <= k6 <= 9 /\ 0 <= k7 <= 9 /\ 0 <= k8 <= 9) ->
  parse_date (key_chars k1 k2 k3 k4 k5 k6 k7 k8)
  = let t := (((k1 * 10 + k2) * 10 + k3) * 10 + k4,
              k5 * 10 + k6, k7 * 10 + k8) in
    if valid_date t then Some (days_from_civil t) else None.
Proof.
  intros [H1 [H2 [H3 H4]]] [H5 [H6 [H7 H8]]].
  unfold key_chars, parse_date.
  rewrite !is_digit_digit_char by assumption.
  rewrite !digit_val_digit_char by assumption.
  reflexivity.
Qed.

(** A well-formed key denotes the day number of its date. *)
Lemma parse_format_date (y m d : Z) :
  0 <= y <= 9999 -> valid_date (y, m, d) = true ->
  parse_date (format_date (y, m, d)) = Some (days_from_civil (y, m, d)).
Proof.
  intros Hy Hv.
  destruct (format_date_chars y m d Hy Hv)
    as [k1 [k2 [k3 [k4 [k5 [k6 [k7 [k8 [Ha [Hb [Ey [Em [Ed E]]]]]]]]]]]]].
  rewrite E, parse_key_chars by assumption.
  cbv zeta. rewrite <- Ey, <- Em, <- Ed, Hv. reflexivity.
Qed.

Lemma wf_date_parse (s : string) :
  wf_date s ->
  exists t, valid_date t = true /\ s = format_date t /\
            parse_date s = Some (days_from_civil t).
Proof.
  intros [y [m [d [Hy [Hv E]]]]]. exists (y, m, d).
  split; [exact Hv|]. split; [exact E|].
  subst s. apply parse_format_date; assumption.
Qed.

Lemma substring_key (y m d : Z) :
  0 <= y <= 9999 -> valid_date (y, m, d) = true ->
  String.substring 0 10 (format_date (y, m, d)) = format_date (y, m, d).
Proof.
  intros Hy Hv.
  destruct (format_date_chars y m d Hy Hv)
    as [k1 [k2 [k3 [k4 [k5 [k6 [k7 [k8 [_ [_ [_ [_ [_ E]]]]]]]]]]]]].
  rewrite E. reflexivity.
Qed.

Lemma wf_date_first_digit (s : string) :
  wf_date s -> exists c r, s = String c r /\ is_digit c = true.
Proof.
  intros [y [m [d [Hy [Hv E]]]]].
  destruct (format_date_chars y m d Hy Hv)
    as [k1 [k2 [k3 [k4 [k5 [k6 [k7 [k8 [[H1 _] [_ [_ [_ [_ E']]]]]]]]]]]]].
  rewrite E' in E. subst s. unfold key_chars.
  eexists. eexists. split; [reflexivity|].
  apply is_digit_digit_char. exact H1.
Qed.

(** The key of a day is well formed only if the year has four digits, and
    then the key denotes that day. *)
Lemma toISODate_wf (ms : Z) :
  wf_date (toISODate ms) ->
  toISODate ms = format_date (date_of_day (ms / ms_per_day)) /\
  parse_date (toISODate ms) = Some (ms / ms_per_day).
Proof.
  unfold toISODate.
  destruct (date_of_day_spec (ms / ms_per_day)) as [Hv Hd].
  destruct (date_of_day (ms / ms_per_day)) as [[y m] d] eqn:E.
  intros Hwf.
  destruct ((0 <=? y) && (y <=? 9999)) eqn:R.
  - apply andb_true_iff in R. rewrite !Z.leb_le in R.
    rewrite substring_key by assumption.
    split; [reflexivity|].
    rewrite parse_format_date by assumption. rewrite Hd. reflexivity.
  - exfalso.
    destruct (wf_date_first_digit _ Hwf) as [c [r [Es Hc]]].
    unfold format_date, year_string in Es. rewrite R in Es.
    destruct (y <? 0); simpl in Es; inversion Es; subst c; discriminate.
Qed.

Lemma toISODate_of_wf (t : civil) (ms : Z) :
  wf_date (format_date t) -> valid_date t = true ->
  (let '(y, _, _) := t in 0 <= y <= 9999) ->
  ms / ms_per_day = days_from_civil t ->
  toISODate ms = format_date t.
Proof.
  intros _ Hv Hy E. unfold toISODate. rewrite E.
  rewrite date_of_day_days by exact Hv.
  destruct t as [[y m] d]. apply substring_key; assumption.
Qed.

(** The order of two well-formed keys as strings is the order of their
    days. *)
Lemma compare_key_chars (k1 k2 k3 k4 k5 k6 k7 k8 j1 j2 j3 j4 j5 j6 j7 j8 : Z) :
  (0 <= k1 <= 9 /\ 0 <= k2 <= 9 /\ 0 <= k3 <= 9 /\ 0 <= k4 <= 9) ->
  (0 <= k5 <= 9 /\ 0 <= k6 <= 9 /\ 0 <= k7 <= 9 /\ 0 <= k8 <= 9) ->
  (0 <= j1 <= 9 /\ 0 <= j2 <= 9 /\ 0 <= j3 <= 9 /\ 0 <= j4 <= 9) ->
  (0 <= j5 <= 9 /\ 0 <= j6 <= 9 /\ 0 <= j7 <= 9 /\ 0 <= j8 <= 9) ->
  String.compare (key_chars k1 k2 k3 k4 k5 k6 k7 k8)
                 (key_chars j1 j2 j3 j4 j5 j6 j7 j8) = Lt ->
  civil_lt (((k1 * 10 + k2) * 10 + k3) * 10 + k4, k5 * 10 + k6, k7 * 10 + k8)
           (((j1 * 10 + j2) * 10 + j3) * 10 + j4, j5 * 10 + j6, j7 * 10 + j8).
Proof.
  intros [H1 [H2 [H3 H4]]] [H5 [H6 [H7 H8]]]
         [G1 [G2 [G3 G4]]] [G5 [G6 [G7 G8]]].
  unfold key_chars. cbn [String.compare].
  rewrite !compare_digit_char by assumption.
  change (Ascii.compare "-" "-") with Eq. cbv iota.
  unfold civil_lt.
  destruct (Z.compare_spec k1 j1); [|intros _; lia|discriminate].
  destruct (Z.compare_spec k2 j2); [|intros _; lia|discriminate].
  destruct (Z.compare_spec k3 j3); [|intros _; lia|discriminate].
  destruct (Z.compare_spec k4 j4); [|intros _; lia|discriminate].
  destruct (Z.compare_spec k5 j5); [|intros _; lia|discriminate].
  destruct (Z.compare_spec k6 j6); [|intros _; lia|discriminate].
  destruct (Z.compare_spec k7 j7); [|intros _; lia|discriminate].
  destruct (Z.compare_spec k8 j8); [|intros _; lia|discriminate].
  discriminate.
Qed.

Lemma wf_date_compare_lt (s1 s2 : string) :
  wf_date s1 -> wf_date s2 -> String.compare s1 s2 = Lt ->
  exists n1 n2,
    parse_date s1 = Some n1 /\ parse_date s2 = Some n2 /\ n1 < n2.
Proof.
  intros [y1 [m1 [d1 [Hy1 [Hv1 E1]]]]] [y2 [m2 [d2 [Hy2 [Hv2 E2]]]]] Hc.
  exists (days_from_civil (y1, m1, d1)), (days_from_civil (y2, m2, d2)).
  subst s1 s2.
  rewrite !parse_format_date by assumption.
  split; [reflexivity|]. split; [reflexivity|].
  apply days_from_civil_lt; try assumption.
  destruct (format_date_chars y1 m1 d1 Hy1 Hv1)
    as [k1 [k2 [k3 [k4 [k5 [k6 [k7 [k8 [Ha [Hb [Ey [Em [Ed E]]]]]]]]]]]]].
  destruct (format_date_chars y2 m2 d2 Hy2 Hv2)
    as [j1 [j2 [j3 [j4 [j5 [j6 [j7 [j8 [Ha' [Hb' [Ey' [Em' [Ed' E']]]]]]]]]]]]].
  rewrite E, E' in Hc.
  pose proof (compare_key_chars _ _ _ _ _ _ _ _ _ _ _ _ _ _ _ _
                Ha Hb Ha' Hb' Hc) as L.
  rewrite <- Ey, <- Em, <- Ed, <- Ey', <- Em', <- Ed' in L. exact L.
Qed.

Lemma wf_date_leb_lt (s1 s2 : string) :
  wf_date s1 -> wf_date s2 -> String.leb s1 s2 = true -> s1 <> s2 ->
  exists n1 n2,
    parse_date s1 = Some n1 /\ parse_date s2 = Some n2 /\ n1 < n2.
Proof.
  intros W1 W2 Hle Hne. apply wf_date_compare_lt; try assumption.
  unfold String.leb in Hle.
  destruct (String.compare s1 s2) eqn:E.
  - exfalso. apply Hne. apply String.compare_eq_iff. exact E.
  - reflexivity.
  - discriminate.
Qed.

End CalendarFacts.
(* --------------------------------------------------------------------- *)
(** ** Streaks *)
(* --------------------------------------------------------------------- *)

Section StreakFacts.

Import Logs Dates Streaks.

Lemma set_has_In (k : string) (s : list string) :
  set_has k s = true <-> In k s.
Proof.
  unfold set_has. rewrite existsb_exists. split.
  - intros [x [Hx E]]. apply String.eqb_eq in E. subst. exact Hx.
  - intros H. exists k. split; [exact H | apply String.eqb_refl].
Qed.

Lemma In_set_add (x k : string) (s : list string) :
  In x (set_add k s) <-> x = k \/ In x s.
Proof.
  unfold set_add. destruct (set_has k s) eqn:E.
  - apply set_has_In in E. split; [tauto|]. intros [H | H]; subst; assumption.
  - rewrite in_app_iff. simpl. split; intros H; intuition.
Qed.

Lemma NoDup_set_add (k : string) (s : list string) :
  NoDup s -> NoDup (set_add k s).
Proof.
  intros H. unfold set_add. destruct (set_has k s) eqn:E; [exact H|].
  assert (Hk : ~ In k s).
  { intros Hin. apply set_has_In in Hin. congruence. }
  clear E. induction s as [|a r IH]; simpl.
  - constructor; [simpl; tauto | constructor].
  - inversion H as [|? ? Ha Hr]; subst. constructor.
    + rewrite in_app_iff. simpl. intros [Hin | [Hin | []]].
      * contradiction.
      * subst a. apply Hk. left. reflexivity.
    + apply IH; [exact Hr|]. intros Hin. apply Hk. right. exact Hin.
Qed.

Lemma wf_date_nonempty (k : string) : wf_date k -> nonempty k = true.
Proof.
  intros H. destruct (wf_date_first_digit k H) as [c [r [E _]]].
  subst k. reflexivity.
Qed.

(** The set of day keys, when every meal row has a well-formed key. *)
Lemma collect_dates_spec (now : Z) (rows : list LogEntry) :
  (forall r, In r rows -> is_meal_default r = true ->
             exists k, Aggregator.day_key now r = Some k /\ wf_date k) ->
  forall s0, NoDup s0 ->
  exists s,
    collect_dates now rows s0 = Some s /\ NoDup s /\
    forall k, In k s <->
              In k s0 \/
              exists r, In r rows /\ is_meal_default r = true /\
                        Aggregator.day_key now r = Some k.
Proof.
  induction rows as [|r rest IH]; intros H s0 Hnd; simpl.
  - exists s0. split; [reflexivity|]. split; [exact Hnd|].
    intros k. split; [tauto|]. intros [Hk | [r [[] _]]]. exact Hk.
  - assert (Hrest : forall x, In x rest -> is_meal_default x = true ->
                      exists k, Aggregator.day_key now x = Some k /\ wf_date k)
      by (intros x Hx; apply H; right; exact Hx).
    destruct (is_meal_default r) eqn:Em; simpl.
    + destruct (H r (or_introl eq_refl) Em) as [k [Hk Hwf]].
      rewrite Hk, (wf_date_nonempty k Hwf).
      destruct (IH Hrest (set_add k s0) (NoDup_set_add k s0 Hnd))
        as [s [Es [Hs Hin]]].
      exists s. split; [exact Es|]. split; [exact Hs|].
      intros x. rewrite Hin, In_set_add. split.
      * intros [[Hx | Hx] | [r' [Hr' [Hm' Hk']]]].
        -- right. exists r. subst x. auto.
        -- left. exact Hx.
        -- right. exists r'. auto.
      * intros [Hx | [r' [[Hr' | Hr'] [Hm' Hk']]]].
        -- left. right. exact Hx.
        -- subst r'. left. left. congruence.
        -- right. exists r'. auto.
    + destruct (IH Hrest s0 Hnd) as [s [Es [Hs Hin]]].
      exists s. split; [exact Es|]. split; [exact Hs|].
      intros x. rewrite Hin. split.
      * intros [Hx | [r' [Hr' [Hm' Hk']]]]; [left; exact Hx|].
        right. exists r'. auto.
      * intros [Hx | [r' [[Hr' | Hr'] [Hm' Hk']]]]; [left; exact Hx | |].
        -- subst r'. congruence.
        -- right. exists r'. auto.
Qed.

(** *** The sort of the keys *)

Lemma insert_asc_perm (x : string) (l : list string) :
  Permutation (insert_asc x l) (x :: l).
Proof.
  induction l as [|y r IH]; simpl.
  - apply Permutation_refl.
  - destruct (String.leb x y).
    + apply Permutation_refl.
    + eapply Permutation_trans; [apply perm_skip; exact IH | apply perm_swap].
Qed.

Lemma sort_asc_perm (l : list string) : Permutation (sort_asc l) l.
Proof.
  induction l as [|x r IH]; simpl.
  - apply Permutation_refl.
  - eapply Permutation_trans; [apply insert_asc_perm|].
    apply perm_skip. exact IH.
Qed.

Lemma insert_asc_sorted (x : string) (l : list string) :
  Sorted leb_rel l -> Sorted leb_rel (insert_asc x l).
Proof.
  induction l as [|y r IH]; simpl; intros H.
  - constructor; constructor.
  - destruct (String.leb x y) eqn:E.
    + constructor; [exact H|]. constructor. exact E.
    + inversion H as [|? ? Hr Hhd]; subst.
      constructor; [apply IH; exact Hr|].
      assert (Hyx : leb_rel y x).
      { unfold leb_rel. destruct (String.leb_total x y); congruence. }
      destruct r as [|z r']; simpl.
      * constructor. exact Hyx.
      * destruct (String.leb x z); constructor; [exact Hyx|].
        inversion Hhd; subst. assumption.
Qed.

Lemma sort_asc_sorted (l : list string) : Sorted leb_rel (sort_asc l).
Proof.
  induction l as [|x r IH]; simpl.
  - constructor.
  - apply insert_asc_sorted. exact IH.
Qed.

Lemma In_day_numbers (n : Z) (l : list string) :
  In n (day_numbers l) <-> exists k, In k l /\ parse_date k = Some n.
Proof.
  unfold day_numbers. rewrite in_flat_map. split.
  - intros [k [Hk Hn]]. exists k. split; [exact Hk|].
    destruct (parse_date k); simpl in Hn; [|destruct Hn].
    destruct Hn as [Hn | []]. congruence.
  - intros [k [Hk Hn]]. exists k. split; [exact Hk|].
    rewrite Hn. left. reflexivity.
Qed.

Lemma day_numbers_cons (a : string) (r : list string) (n : Z) :
  parse_date a = Some n -> day_numbers (a :: r) = n :: day_numbers r.
Proof. intros H. unfold day_numbers. simpl. rewrite H. reflexivity. Qed.

(** The days of well-formed, distinct, sorted keys go up strictly. *)
Lemma sorted_day_numbers (l : list string) :
  Forall wf_date l -> NoDup l -> Sorted leb_rel l ->
  Sorted Z.lt (day_numbers l).
Proof.
  induction l as [|a r IH]; intros Hwf Hnd Hs.
  - constructor.
  - inversion Hwf as [|? ? Wa Wr]; subst.
    inversion Hnd as [|? ? Na Nr]; subst.
    inversion Hs as [|? ? Sr Hhd]; subst.
    specialize (IH Wr Nr Sr).
    destruct (wf_date_parse a Wa) as [ta [_ [_ Pa]]].
    rewrite (day_numbers_cons a r _ Pa). constructor; [exact IH|].
    destruct r as [|b r']; [constructor|].
    inversion Wr as [|? ? Wb _]; subst.
    inversion Hhd as [|? ? Hab]; subst.
    assert (Hne : a <> b) by (intros E; apply Na; left; symmetry; exact E).
    destruct (wf_date_leb_lt a b Wa Wb Hab Hne) as [n1 [n2 [P1 [P2 Hlt]]]].
    rewrite (day_numbers_cons b r' _ P2). constructor. congruence.
Qed.

Lemma scan_as_days (l : list string) :
  Forall wf_date l ->
  forall st,
    fold_left scan_step l st
    = fold_left (fun s n => scan_day s (Some n)) (day_numbers l) st.
Proof.
  induction l as [|a r IH]; intros Hwf st.
  - reflexivity.
  - inversion Hwf as [|? ? Wa Wr]; subst.
    destruct (wf_date_parse a Wa) as [ta [_ [_ Pa]]].
    rewrite (day_numbers_cons a r _ Pa). simpl.
    unfold scan_step at 2. rewrite Pa.
    apply IH. exact Wr.
Qed.

(** *** The scan for the best streak *)

Lemma scan_day_first (x : Z) :
  scan_invariant [x] (scan_day scan_start (Some x)).
Proof.
  exists x. simpl.
  split; [reflexivity|]. split; [left; reflexivity|].
  split; [intros y [Hy | []]; lia|].
  split; [lia|].
  split; [|split; [|lia]].
  - split.
    + intros i Hi. left. lia.
    + intros [H | []]. lia.
  - split.
    + intros n k Hc.
      destruct k as [|[|k]]; try lia.
      exfalso.
      assert (H0 : In (n - 0) [x]) by (apply Hc; lia).
      assert (H1 : In (n - 1) [x]) by (apply Hc; lia).
      destruct H0 as [H0 | []]. destruct H1 as [H1 | []]. lia.
    + exists x. intros i Hi. left. lia.
Qed.

Lemma scan_day_next (D : list Z) (st : Scan) (x : Z) :
  scan_invariant D st ->
  (forall y, In y D -> y < x) ->
  scan_invariant (D ++ [x]) (scan_day st (Some x)).
Proof.
  intros [p [Hprev [Hp [Hmax [Hr1 [[Hcons Hnot] [[Hbmax [nb Hbw]] Hle]]]]]]] Hlt.
  assert (Hin : forall n, In n (D ++ [x]) <-> In n D \/ n = x).
  { intros n. rewrite in_app_iff. simpl. intuition. }
  assert (Hpx : p < x) by (apply Hlt; exact Hp).
  set (r' := if x - p =? 1 then S (run st) else 1%nat).
  assert (Hrun : run (scan_day st (Some x)) = r').
  { unfold scan_day. rewrite Hprev. reflexivity. }
  assert (Hbest : best (scan_day st (Some x)) = Nat.max (best st) r').
  { unfold scan_day. rewrite Hprev. reflexivity. }
  assert (Hr1' : (1 <= r')%nat).
  { unfold r'. destruct (x - p =? 1); lia. }
  assert (Hend : run_ending (fun n => In n (D ++ [x])) x r').
  { unfold r'. destruct (x - p =? 1) eqn:E.
    - apply Z.eqb_eq in E. split.
      + intros i Hi. apply Hin.
        destruct (Z.eq_dec i 0) as [Hi0 | Hi0]; [right; lia|].
        left. replace (x - i) with (p - (i - 1)) by lia.
        apply Hcons. lia.
      + intros H. apply Hin in H. destruct H as [H | H]; [|lia].
        apply Hnot. replace (p - Z.of_nat (run st))
          with (x - Z.of_nat (S (run st))) by lia.
        exact H.
    - apply Z.eqb_neq in E. split.
      + intros i Hi. apply Hin. right. lia.
      + intros H. apply Hin in H. destruct H as [H | H]; [|lia].
        apply Hmax in H. lia. }
  exists x.
  split; [unfold scan_day; rewrite Hprev; reflexivity|].
  split; [apply Hin; right; reflexivity|].
  split.
  { intros y Hy. apply Hin in Hy. destruct Hy as [Hy | Hy]; [|lia].
    apply Hlt in Hy. lia. }
  rewrite Hrun, Hbest.
  split; [exact Hr1'|]. split; [exact Hend|]. split; [|lia].
  split.
  - intros n k Hc.
    destruct k as [|k]; [lia|].
    assert (H0 : In (n - 0) (D ++ [x])) by (apply Hc; lia).
    rewrite Z.sub_0_r in H0. apply Hin in H0. destruct H0 as [H0 | H0].
    + assert (Hk : (S k <= best st)%nat).
      { apply (Hbmax n). intros i Hi.
        assert (Hi' : In (n - i) (D ++ [x])) by (apply Hc; exact Hi).
        apply Hin in Hi'. destruct Hi' as [Hi' | Hi']; [exact Hi'|].
        apply Hlt in H0. lia. }
      lia.
    + subst n. destruct Hend as [_ Hnot'].
      destruct (le_lt_dec (S k) r') as [Hk | Hk]; [lia|].
      exfalso. apply Hnot'. apply Hc. lia.
  - destruct (Nat.max_spec (best st) r') as [[Hlt' E] | [Hge E]]; rewrite E.
    + exists x. apply Hend.
    + exists nb. intros i Hi. apply Hin. left. apply Hbw. exact Hi.
Qed.

Lemma scan_days_invariant (rest : list Z) :
  forall D st,
    scan_invariant D st ->
    (forall y x, In y D -> In x rest -> y < x) ->
    StronglySorted Z.lt rest ->
    scan_invariant (D ++ rest)
      (fold_left (fun s n => scan_day s (Some n)) rest st).
Proof.
  induction rest as [|x rest IH]; intros D st Hinv Hlt Hs; simpl.
  - rewrite app_nil_r. exact Hinv.
  - inversion Hs as [|? ? Hs' Hall]; subst.
    replace (D ++ x :: rest)%list with ((D ++ [x]) ++ rest)%list
      by (rewrite <- app_assoc; reflexivity).
    apply IH.
    + apply scan_day_next; [exact Hinv|].
      intros y Hy. apply Hlt; [exact Hy | left; reflexivity].
    + intros y z Hy Hz. apply in_app_iff in Hy. destruct Hy as [Hy | [Hy | []]].
      * apply Hlt; [exact Hy | right; exact Hz].
      * subst y. rewrite Forall_forall in Hall. apply Hall. exact Hz.
    + exact Hs'.
Qed.

(** The scan of days that go up strictly finds the longest run. *)
Lemma scan_days_longest_run (D : list Z) :
  Sorted Z.lt D ->
  longest_run (fun n => In n D)
    (best (fold_left (fun s n => scan_day s (Some n)) D scan_start)).
Proof.
  intros Hs. destruct D as [|x rest]; simpl.
  - split.
    + intros n k Hc. destruct k as [|k]; [lia|].
      exfalso. apply (Hc 0). lia.
    + exists 0. intros i Hi. lia.
  - apply Sorted_StronglySorted in Hs; [|intros a b c; apply Z.lt_trans].
    inversion Hs as [|? ? Hs' Hall]; subst.
    assert (Hinv : scan_invariant ([x] ++ rest)
                     (fold_left (fun s n => scan_day s (Some n)) rest
                        (scan_day scan_start (Some x)))).
    { apply scan_days_invariant; [apply scan_day_first | | exact Hs'].
      intros y z [Hy | []] Hz. subst y.
      rewrite Forall_forall in Hall. apply Hall. exact Hz. }
    destruct Hinv as [p [_ [_ [_ [_ [_ [Hl _]]]]]]]. exact Hl.
Qed.

(** *** The walk back for the current streak *)

Lemma ms_per_day_div (now : Z) (i : nat) :
  (now - Z.of_nat i * ms_per_day) / ms_per_day = now / ms_per_day - Z.of_nat i.
Proof.
  replace (now - Z.of_nat i * ms_per_day)
    with (now + (- Z.of_nat i) * ms_per_day) by lia.
  rewrite Z.div_add by (unfold ms_per_day; lia). lia.
Qed.

Lemma day_walk_spec (s : list string) (fuel : nat) :
  forall check,
    (forall i, (i < day_walk fuel check s)%nat ->
               In (toISODate (check - Z.of_nat i * ms_per_day)) s) /\
    (day_walk fuel check s = fuel \/
     ~ In (toISODate (check - Z.of_nat (day_walk fuel check s) * ms_per_day)) s).
Proof.
  induction fuel as [|fuel IH]; intros check; simpl.
  - split; [intros i Hi; lia | left; reflexivity].
  - destruct (set_has (toISODate check) s) eqn:E.
    + apply set_has_In in E.
      destruct (IH (check - ms_per_day)) as [Hall Hend].
      split.
      * intros i Hi. destruct i as [|i].
        -- replace (check - Z.of_nat 0 * ms_per_day) with check by lia.
           exact E.
        -- replace (check - Z.of_nat (S i) * ms_per_day)
             with (check - ms_per_day - Z.of_nat i * ms_per_day) by lia.
           apply Hall. lia.
      * destruct Hend as [Hend | Hend]; [left; congruence|].
        right.
        replace (check - Z.of_nat (S (day_walk fuel (check - ms_per_day) s))
                         * ms_per_day)
          with (check - ms_per_day
                - Z.of_nat (day_walk fuel (check - ms_per_day) s) * ms_per_day)
          by lia.
        exact Hend.
    + split; [intros i Hi; lia|].
      right. replace (check - Z.of_nat 0 * ms_per_day) with check by lia.
      intros H. apply set_has_In in H. congruence.
Qed.

(** A walk over well-formed keys is not longer than the set. *)
Lemma day_walk_bounded (s : list string) (fuel : nat) (check : Z) :
  Forall wf_date s ->
  (day_walk fuel check s <= List.length s)%nat.
Proof.
  intros Hwf.
  destruct (day_walk_spec s fuel check) as [Hall _].
  set (c := day_walk fuel check s) in *.
  set (key := fun i : nat => toISODate (check - Z.of_nat i * ms_per_day)).
  assert (Hincl : incl (map key (seq 0 c)) s).
  { intros k Hk. apply in_map_iff in Hk. destruct Hk as [i [Ek Hi]].
    apply in_seq in Hi. subst k. apply Hall. lia. }
  assert (Hnd : NoDup (map key (seq 0 c))).
  { apply (NoDup_map_inv parse_date). rewrite map_map.
    assert (E : map (fun i => parse_date (key i)) (seq 0 c)
                = map (fun i => Some (check / ms_per_day - Z.of_nat i))
                      (seq 0 c)).
    { apply map_ext_in. intros i Hi. apply in_seq in Hi.
      assert (Hk : In (key i) s) by (apply Hall; lia).
      rewrite Forall_forall in Hwf.
      destruct (toISODate_wf _ (Hwf _ Hk)) as [_ P].
      unfold key. rewrite P, ms_per_day_div. reflexivity. }
    rewrite E. apply Finite.Injective_map_NoDup; [|apply seq_NoDup].
    intros i j Hij. inversion Hij. lia. }
  pose proof (NoDup_incl_length Hnd Hincl) as L.
  rewrite length_map, length_seq in L. exact L.
Qed.

Lemma day_walk_min (s : list string) (fuel : nat) :
  forall fuel' check,
    (fuel <= fuel')%nat ->
    day_walk fuel check s = Nat.min fuel (day_walk fuel' check s).
Proof.
  induction fuel as [|f IH]; intros fuel' check Hle; [reflexivity|].
  destruct fuel' as [|f']; [lia|]. cbn [day_walk].
  destruct (set_has (toISODate check) s).
  - rewrite (IH f' (check - ms_per_day)) by lia. reflexivity.
  - reflexivity.
Qed.

(** With well-formed keys the walk needs no more tests than there are
    keys, and one more. *)
Lemma day_walk_enough (s : list string) (fuel : nat) (check : Z) :
  Forall wf_date s ->
  (List.length s < fuel)%nat ->
  day_walk fuel check s = day_walk (S (List.length s)) check s.
Proof.
  intros Hwf Hlt.
  pose proof (day_walk_bounded s fuel check Hwf) as Hb.
  rewrite (day_walk_min s (S (List.length s)) fuel check) by lia.
  lia.
Qed.

(** *** The walk of the code *)

Lemma setDate_back_fixed (z : Zone) (k t : Z) :
  no_clock_change z -> setDate_back z k t = t - k * ms_per_day.
Proof.
  intros [c [H1 H2]]. unfold setDate_back, UTC, LocalTime.
  rewrite H1, H2. lia.
Qed.

(** In a zone without a clock change the loop is the walk over exact
    days, as far as its turns reach. *)
Lemma count_back_fixed (z : Zone) (s : list string) (fuel : nat) :
  no_clock_change z ->
  forall check,
    count_back z fuel check s
    = if (day_walk (S fuel) check s <=? fuel)%nat
      then Run.Returns (day_walk (S fuel) check s)
      else Run.Unfinished.
Proof.
  intros Hz. induction fuel as [|f IH]; intros check.
  - cbn [count_back day_walk].
    destruct (set_has (toISODate check) s); reflexivity.
  - cbn [count_back]. rewrite setDate_back_fixed by exact Hz.
    rewrite IH. replace (check - 1 * ms_per_day) with (check - ms_per_day)
      by lia.
    change (day_walk (S (S f)) check s)
      with (if set_has (toISODate check) s
            then S (day_walk (S f) (check - ms_per_day) s) else O).
    destruct (set_has (toISODate check) s); [|reflexivity].
    change (S (day_walk (S f) (check - ms_per_day) s) <=? S f)%nat
      with (day_walk (S f) (check - ms_per_day) s <=? f)%nat.
    destruct (day_walk (S f) (check - ms_per_day) s <=? f)%nat; reflexivity.
Qed.

(** With well-formed keys and a turn for every key the loop ends. *)
Lemma count_back_returns (z : Zone) (s : list string) (fuel : nat)
    (check : Z) :
  no_clock_change z -> Forall wf_date s -> (List.length s <= fuel)%nat ->
  count_back z fuel check s
  = Run.Returns (day_walk (S (List.length s)) check s).
Proof.
  intros Hz Hwf Hle. rewrite count_back_fixed by exact Hz.
  pose proof (day_walk_bounded s (S fuel) check Hwf) as Hb.
  assert (E : (day_walk (S fuel) check s <=? fuel)%nat = true)
    by (apply Nat.leb_le; lia).
  rewrite E. rewrite (day_walk_enough s (S fuel) check Hwf) by lia.
  reflexivity.
Qed.

(** The loop reads the set through [has] only. *)
Lemma count_back_ext (z : Zone) (s1 s2 : list string) (fuel : nat) :
  (forall k, In k s1 <-> In k s2) ->
  forall check, count_back z fuel check s1 = count_back z fuel check s2.
Proof.
  intros H. induction fuel as [|f IH]; intros check; cbn [count_back].
  - assert (E : set_has (toISODate check) s1 = set_has (toISODate check) s2).
    { destruct (set_has (toISODate check) s2) eqn:E2.
      - apply set_has_In. apply H. apply set_has_In. exact E2.
      - destruct (set_has (toISODate check) s1) eqn:E1; [|reflexivity].
        apply set_has_In in E1. apply H in E1. apply set_has_In in E1.
        congruence. }
    rewrite E. reflexivity.
  - assert (E : set_has (toISODate check) s1 = set_has (toISODate check) s2).
    { destruct (set_has (toISODate check) s2) eqn:E2.
      - apply set_has_In. apply H. apply set_has_In. exact E2.
      - destruct (set_has (toISODate check) s1) eqn:E1; [|reflexivity].
        apply set_has_In in E1. apply H in E1. apply set_has_In in E1.
        congruence. }
    rewrite E, IH. reflexivity.
Qed.

Lemma set_add_length (k : string) (s : list string) :
  (List.length (set_add k s) <= S (List.length s))%nat.
Proof.
  unfold set_add. destruct (set_has k s); [lia|].
  rewrite length_app. simpl. lia.
Qed.

(** The set has no more keys than there are rows. *)
Lemma collect_dates_length (now : Z) (rows : list LogEntry) :
  forall s0 s,
    collect_dates now rows s0 = Some s ->
    (List.length s <= List.length s0 + List.length rows)%nat.
Proof.
  induction rows as [|r rest IH]; intros s0 s H; cbn [collect_dates] in H.
  - injection H as H. subst s. simpl. lia.
  - cbn [List.length]. destruct (negb (is_meal_default r)).
    + apply IH in H. lia.
    + destruct (Aggregator.day_key now r) as [d|]; [|discriminate].
      destruct (nonempty d).
      * apply IH in H. pose proof (set_add_length d s0). lia.
      * apply IH in H. lia.
Qed.

End StreakFacts.

Section StreakMeaning.

Import Logs Dates Streaks.

Variable now : Z.
Variable rows : list LogEntry.

Hypothesis well_formed_keys :
  forall r, In r rows -> is_meal_default r = true ->
            exists k, Aggregator.day_key now r = Some k /\ wf_date k.

Lemma datesSet_spec :
  exists s,
    datesSet now rows = Some s /\ NoDup s /\ Forall wf_date s /\
    (forall n, meal_on now rows n <-> In n (day_numbers s)).
Proof.
  destruct (collect_dates_spec now rows well_formed_keys [] (NoDup_nil _))
    as [s [Es [Hnd Hin]]].
  exists s. split; [exact Es|]. split; [exact Hnd|].
  assert (Hin' : forall k, In k s <->
                   exists r, In r rows /\ is_meal_default r = true /\
                             Aggregator.day_key now r = Some k).
  { intros k. rewrite Hin. simpl. tauto. }
  split.
  - apply Forall_forall. intros k Hk. apply Hin' in Hk.
    destruct Hk as [r [Hr [Hm Hk]]].
    destruct (well_formed_keys r Hr Hm) as [k' [Hk' Hwf]].
    congruence.
  - intros n. rewrite In_day_numbers. unfold meal_on. split.
    + intros [r [k [Hr [Hm [Hk Hp]]]]]. exists k. split; [|exact Hp].
      apply Hin'. exists r. auto.
    + intros [k [Hk Hp]]. apply Hin' in Hk.
      destruct Hk as [r [Hr [Hm Hk]]]. exists r, k. auto.
Qed.

Lemma current_run (s : list string) :
  Forall wf_date s ->
  run_ending (fun n => In n (day_numbers s)) (now / ms_per_day)
    (day_walk (S (List.length s)) now s).
Proof.
  intros Hwf.
  pose proof (day_walk_bounded s (S (List.length s)) now Hwf) as Hb.
  destruct (day_walk_spec s (S (List.length s)) now) as [Hall Hend].
  set (c := day_walk (S (List.length s)) now s) in *.
  rewrite Forall_forall in Hwf.
  split.
  - intros i Hi. apply In_day_numbers.
    exists (toISODate (now - Z.of_nat (Z.to_nat i) * ms_per_day)).
    assert (Hk : In (toISODate (now - Z.of_nat (Z.to_nat i) * ms_per_day)) s)
      by (apply Hall; lia).
    split; [exact Hk|].
    destruct (toISODate_wf _ (Hwf _ Hk)) as [_ P].
    rewrite P, ms_per_day_div. f_equal. lia.
  - destruct Hend as [Hend | Hend]; [lia|].
    intros Hin. apply In_day_numbers in Hin.
    destruct Hin as [k [Hk Hp]]. apply Hend.
    destruct (Hwf k Hk) as [y [m [d [Hy [Hv E]]]]].
    assert (Hd : days_from_civil (y, m, d) = now / ms_per_day - Z.of_nat c).
    { subst k. rewrite parse_format_date in Hp by assumption. congruence. }
    assert (Ek : toISODate (now - Z.of_nat c * ms_per_day) = k).
    { unfold toISODate. rewrite ms_per_day_div, <- Hd.
      rewrite date_of_day_days by exact Hv.
      rewrite substring_key by assumption. symmetry. exact E. }
    rewrite Ek. exact Hk.
Qed.

Lemma best_run (s : list string) :
  Forall wf_date s -> NoDup s ->
  longest_run (fun n => In n (day_numbers s)) (best (scan (sort_asc s))).
Proof.
  intros Hwf Hnd.
  pose proof (sort_asc_perm s) as Hperm.
  assert (Hwf' : Forall wf_date (sort_asc s)).
  { apply Forall_forall. intros k Hk. rewrite Forall_forall in Hwf.
    apply Hwf. eapply Permutation_in; [exact Hperm | exact Hk]. }
  assert (Hnd' : NoDup (sort_asc s)).
  { eapply Permutation_NoDup; [apply Permutation_sym; exact Hperm | exact Hnd]. }
  pose proof (sorted_day_numbers _ Hwf' Hnd' (sort_asc_sorted s)) as Hs.
  pose proof (scan_days_longest_run _ Hs) as [Hmax [n Hw]].
  unfold scan. rewrite scan_as_days by exact Hwf'.
  assert (Hsame : forall x, In x (day_numbers (sort_asc s))
                            <-> In x (day_numbers s)).
  { intros x. rewrite !In_day_numbers. split; intros [k [Hk Hp]]; exists k;
      (split; [|exact Hp]).
    - eapply Permutation_in; [exact Hperm | exact Hk].
    - eapply Permutation_in; [apply Permutation_sym; exact Hperm | exact Hk]. }
  split.
  - intros m k Hc. apply (Hmax m). intros i Hi. apply Hsame. apply Hc. exact Hi.
  - exists n. intros i Hi. apply Hsame. apply Hw. exact Hi.
Qed.

Lemma run_ending_ext (P Q : Z -> Prop) (p : Z) (r : nat) :
  (forall n, P n <-> Q n) -> run_ending Q p r -> run_ending P p r.
Proof.
  intros H [Hc Hn]. split.
  - intros i Hi. apply H. apply Hc. exact Hi.
  - intros Hp. apply Hn. apply H. exact Hp.
Qed.

Lemma longest_run_ext (P Q : Z -> Prop) (b : nat) :
  (forall n, P n <-> Q n) -> longest_run Q b -> longest_run P b.
Proof.
  intros H [Hmax [n Hw]]. split.
  - intros m k Hc. apply (Hmax m). intros i Hi. apply H. apply Hc. exact Hi.
  - exists n. intros i Hi. apply H. apply Hw. exact Hi.
Qed.

Lemma streaks_of_rows (z : Zone) (fuel : nat) :
  no_clock_change z ->
  (List.length rows <= fuel)%nat ->
  exists st,
    computeStreaksFromLogs z fuel now rows = Run.Returns st /\
    run_ending (meal_on now rows) (now / ms_per_day) (current st) /\
    longest_run (meal_on now rows) (bestStreak st).
Proof.
  intros Hz Hfuel.
  destruct datesSet_spec as [s [Es [Hnd [Hwf Hmeal]]]].
  assert (Hlen : (List.length s <= fuel)%nat).
  { pose proof (collect_dates_length now rows [] s Es) as L. simpl in L.
    lia. }
  unfold computeStreaksFromLogs. rewrite Es.
  destruct s as [|k s'] eqn:E.
  - eexists. split; [reflexivity|]. simpl. split.
    + split; [intros i Hi; lia|].
      intros H. apply Hmeal in H. destruct H.
    + split.
      * intros n k Hc. destruct k as [|k]; [lia|].
        exfalso. assert (H : meal_on now rows (n - 0)) by (apply Hc; lia).
        apply Hmeal in H. destruct H.
      * exists 0. intros i Hi. lia.
  - rewrite <- E in *.
    rewrite (count_back_returns z s fuel now Hz Hwf Hlen).
    eexists. split; [reflexivity|]. cbn [current bestStreak]. split.
    + eapply run_ending_ext; [exact Hmeal | apply current_run; exact Hwf].
    + eapply longest_run_ext; [exact Hmeal | apply best_run; assumption].
Qed.

End StreakMeaning.



(* ===================================================================== *)
(** * Further properties *)
(* ===================================================================== *)

(* --------------------------------------------------------------------- *)
(** ** The shape of normalized names *)
(* --------------------------------------------------------------------- *)

Section NormalizeFacts.

Import Shape.

Ltac each_char c := destruct c as [[] [] [] [] [] [] [] []].

Lemma lower_char_fixed (c : ascii) :
  is_alnum_space c = true -> lower_char c = c.
Proof. each_char c; intros H; try reflexivity; discriminate H. Qed.

Lemma is_ws_lower_char (c : ascii) : is_ws (lower_char c) = is_ws c.
Proof. each_char c; reflexivity. Qed.

Lemma ws_alnum_is_space (c : ascii) :
  is_ws c = true -> is_alnum_space c = true -> c = " "%char.
Proof. each_char c; intros H1 H2; try reflexivity; discriminate. Qed.

Lemma space_is_alnum_space : is_alnum_space " " = true.
Proof. reflexivity. Qed.

Lemma strip_all_alnum (s : string) :
  all_chars is_alnum_space (strip_non_alnum s) = true.
Proof.
  induction s as [|c r IH]; simpl; [reflexivity|].
  destruct (is_alnum_space c) eqn:E; simpl; [rewrite E|]; exact IH.
Qed.

Lemma collapse_all_alnum (s : string) :
  all_chars is_alnum_space s = true ->
  forall b, all_chars is_alnum_space (collapse_ws_from b s) = true.
Proof.
  induction s as [|c r IH]; simpl; intros H b; [reflexivity|].
  apply andb_true_iff in H. destruct H as [Hc Hr].
  destruct (is_ws c); [destruct b|].
  - apply IH. exact Hr.
  - change (is_alnum_space " " && all_chars is_alnum_space
              (collapse_ws_from true r) = true).
    rewrite space_is_alnum_space. apply IH. exact Hr.
  - simpl. rewrite Hc. apply IH. exact Hr.
Qed.

Lemma collapse_shape (s : string) :
  forall b,
    single_spaced (collapse_ws_from b s) = true /\
    (b = true -> no_leading_ws (collapse_ws_from b s) = true).
Proof.
  induction s as [|c r IH]; intros b; simpl.
  - split; reflexivity.
  - destruct (is_ws c) eqn:E.
    + destruct (IH true) as [Hs Hl]. destruct b.
      * split; [exact Hs | intros _; apply Hl; reflexivity].
      * split; [|discriminate].
        change (((negb (is_ws " ") || no_leading_ws (collapse_ws_from true r))
                 && single_spaced (collapse_ws_from true r)) = true).
        rewrite Hs, (Hl eq_refl). reflexivity.
    + destruct (IH false) as [Hs _]. split.
      * simpl. rewrite E, Hs. reflexivity.
      * intros _. simpl. rewrite E. reflexivity.
Qed.

Lemma toLowerCase_fixed (s : string) :
  all_chars is_alnum_space s = true -> toLowerCase s = s.
Proof.
  induction s as [|c r IH]; simpl; intros H; [reflexivity|].
  apply andb_true_iff in H. destruct H as [Hc Hr].
  rewrite (lower_char_fixed c Hc), (IH Hr). reflexivity.
Qed.

Lemma strip_fixed (s : string) :
  all_chars is_alnum_space s = true -> strip_non_alnum s = s.
Proof.
  induction s as [|c r IH]; simpl; intros H; [reflexivity|].
  apply andb_true_iff in H. destruct H as [Hc Hr].
  rewrite Hc, (IH Hr). reflexivity.
Qed.

Lemma collapse_from_no_leading (s : string) :
  no_leading_ws s = true ->
  collapse_ws_from true s = collapse_ws_from false s.
Proof.
  destruct s as [|c r]; simpl; [reflexivity|].
  intros H. apply negb_true_iff in H. rewrite H. reflexivity.
Qed.

Lemma collapse_fixed (s : string) :
  all_chars is_alnum_space s = true -> single_spaced s = true ->
  collapse_ws_from false s = s.
Proof.
  induction s as [|c r IH]; simpl; intros Ha Hs; [reflexivity|].
  apply andb_true_iff in Ha. destruct Ha as [Hc Hr].
  apply andb_true_iff in Hs. destruct Hs as [Hn Hs].
  destruct (is_ws c) eqn:E.
  - simpl in Hn. rewrite (collapse_from_no_leading r Hn), (IH Hr Hs).
    rewrite (ws_alnum_is_space c E Hc). reflexivity.
  - rewrite (IH Hr Hs). reflexivity.
Qed.

Lemma trimStart_all (p : ascii -> bool) (s : string) :
  all_chars p s = true -> all_chars p (trimStart s) = true.
Proof.
  induction s as [|c r IH]; simpl; intros H; [reflexivity|].
  destruct (is_ws c); [|exact H].
  apply andb_true_iff in H. apply IH. tauto.
Qed.

Lemma trimEnd_all (p : ascii -> bool) (s : string) :
  all_chars p s = true -> all_chars p (trimEnd s) = true.
Proof.
  induction s as [|c r IH]; simpl; intros H; [reflexivity|].
  apply andb_true_iff in H. destruct H as [Hc Hr]. specialize (IH Hr).
  destruct (trimEnd r) as [|c' r'].
  - destruct (is_ws c); simpl; [reflexivity | rewrite Hc; reflexivity].
  - simpl in *. rewrite Hc. exact IH.
Qed.

Lemma trimStart_single (s : string) :
  single_spaced s = true -> single_spaced (trimStart s) = true.
Proof.
  induction s as [|c r IH]; simpl; intros H; [reflexivity|].
  destruct (is_ws c) eqn:E.
  - apply andb_true_iff in H. apply IH. tauto.
  - simpl. rewrite E. exact H.
Qed.

Lemma trimEnd_head (c : ascii) (r : string) :
  trimEnd (String c r) = EmptyString \/
  exists r', trimEnd (String c r) = String c r'.
Proof.
  simpl. destruct (trimEnd r).
  - destruct (is_ws c); [left | right; eexists]; reflexivity.
  - right. eexists. reflexivity.
Qed.

Lemma trimEnd_no_leading (s : string) :
  no_leading_ws s = true -> no_leading_ws (trimEnd s) = true.
Proof.
  destruct s as [|c r]; [reflexivity|]. intros H.
  destruct (trimEnd_head c r) as [E | [r' E]]; rewrite E; [reflexivity|].
  exact H.
Qed.

Lemma trimEnd_single (s : string) :
  single_spaced s = true -> single_spaced (trimEnd s) = true.
Proof.
  induction s as [|c r IH]; intros H; [reflexivity|].
  simpl in H. apply andb_true_iff in H. destruct H as [Hn Hs].
  specialize (IH Hs). simpl.
  destruct (trimEnd r) as [|c' r'] eqn:E.
  - destruct (is_ws c) eqn:Ec; simpl; [reflexivity|].
    rewrite Ec. reflexivity.
  - change (single_spaced (String c (String c' r')) = true).
    change (((negb (is_ws c) || no_leading_ws (String c' r'))
             && single_spaced (String c' r')) = true).
    rewrite IH, andb_true_r.
    destruct (is_ws c) eqn:Ec; [|reflexivity]. simpl in Hn.
    rewrite <- E. simpl. apply trimEnd_no_leading. exact Hn.
Qed.

Lemma trimStart_no_leading (s : string) : no_leading_ws (trimStart s) = true.
Proof.
  induction s as [|c r IH]; simpl; [reflexivity|].
  destruct (is_ws c) eqn:E; [exact IH|]. simpl. rewrite E. reflexivity.
Qed.

Lemma trimStart_fixed (s : string) :
  no_leading_ws s = true -> trimStart s = s.
Proof.
  destruct s as [|c r]; simpl; [reflexivity|].
  intros H. apply negb_true_iff in H. rewrite H. reflexivity.
Qed.

Lemma trimEnd_idempotent (s : string) : trimEnd (trimEnd s) = trimEnd s.
Proof.
  induction s as [|c r IH]; simpl; [reflexivity|].
  destruct (trimEnd r) as [|c' r'] eqn:E.
  - destruct (is_ws c) eqn:Ec; simpl; [reflexivity|].
    rewrite Ec. reflexivity.
  - change (trimEnd (String c (String c' r')) = String c (String c' r')).
    change (match trimEnd (String c' r') with
            | EmptyString => if is_ws c then EmptyString
                             else String c EmptyString
            | r0 => String c r0
            end = String c (String c' r')).
    rewrite IH. reflexivity.
Qed.

Lemma trim_idempotent (s : string) : trim (trim s) = trim s.
Proof.
  unfold trim.
  rewrite (trimStart_fixed (trimEnd (trimStart s))).
  - apply trimEnd_idempotent.
  - apply trimEnd_no_leading. apply trimStart_no_leading.
Qed.

(** A string of the normal alphabet without doubled blanks is changed by
    [normalize] only at its ends. *)
Lemma normalize_of_shaped (s : string) :
  all_chars is_alnum_space s = true -> single_spaced s = true ->
  normalize s = trim s.
Proof.
  intros Ha Hs. unfold normalize, collapse_ws.
  assert (Ha' : all_chars is_alnum_space (trim s) = true)
    by (unfold trim; apply trimEnd_all, trimStart_all; exact Ha).
  assert (Hs' : single_spaced (trim s) = true)
    by (unfold trim; apply trimEnd_single, trimStart_single; exact Hs).
  rewrite (toLowerCase_fixed _ Ha'), (strip_fixed _ Ha').
  apply collapse_fixed; assumption.
Qed.

Lemma toLowerCase_trimStart (s : string) :
  toLowerCase (trimStart s) = trimStart (toLowerCase s).
Proof.
  induction s as [|c r IH]; simpl; [reflexivity|].
  rewrite is_ws_lower_char. destruct (is_ws c); [exact IH | reflexivity].
Qed.

Lemma toLowerCase_trimEnd (s : string) :
  toLowerCase (trimEnd s) = trimEnd (toLowerCase s).
Proof.
  induction s as [|c r IH]; simpl; [reflexivity|].
  rewrite <- IH, is_ws_lower_char.
  destruct (trimEnd r); simpl; [destruct (is_ws c)|]; reflexivity.
Qed.

End NormalizeFacts.

(** X1.  A normalized name is made of lower-case letters, digits and
    single blanks; normalizing it again only trims it, and a third
    application changes nothing more. *)
Theorem normalize_shape (x : string) :
  Shape.all_chars is_alnum_space (normalize x) = true /\
  Shape.single_spaced (normalize x) = true /\
  normalize (normalize x) = trim (normalize x) /\
  normalize (normalize (normalize x)) = normalize (normalize x).
Proof.
  assert (Ha : Shape.all_chars is_alnum_space (normalize x) = true).
  { unfold normalize, collapse_ws. apply collapse_all_alnum, strip_all_alnum. }
  assert (Hs : Shape.single_spaced (normalize x) = true).
  { unfold normalize, collapse_ws. apply collapse_shape. }
  assert (H2 : normalize (normalize x) = trim (normalize x))
    by (apply normalize_of_shaped; assumption).
  repeat split; try assumption.
  rewrite H2. rewrite normalize_of_shaped.
  - apply trim_idempotent.
  - unfold trim. apply trimEnd_all, trimStart_all. exact Ha.
  - unfold trim. apply trimEnd_single, trimStart_single. exact Hs.
Qed.

(** X2.  Names that differ only in the case of their letters have the
    same normal form. *)
Theorem normalize_ignores_case (a b : string) :
  toLowerCase a = toLowerCase b -> normalize a = normalize b.
Proof.
  intros H. unfold normalize, trim.
  rewrite !toLowerCase_trimEnd, !toLowerCase_trimStart, H. reflexivity.
Qed.

(** X2 on the names [Chicken Biryani] and [chicken biryani]. *)
Lemma normalize_ignores_case_biryani :
  normalize "Chicken Biryani" = normalize "chicken biryani".
Proof.
  apply normalize_ignores_case. reflexivity.
Defined.

(* --------------------------------------------------------------------- *)
(** ** The first response that ends a poller *)
(* --------------------------------------------------------------------- *)

Section FirstCompletion.

Import Poller.

Variable responses : nat -> PollResponse.
Variable jitter : nat -> Z.

Lemma pollLoop_first_complete (k : nat) (summary : jsval) :
  forall left attempt interval,
    (forall j, (j < k)%nat -> poll_once (responses (attempt + j)) = None) ->
    poll_once (responses (attempt + k)) = Some summary ->
    (k < left)%nat ->
    let r := pollLoop responses jitter left attempt interval in
    outcome r = Returned (Some summary) /\
    requests r = S k /\
    List.length (delays r) = k.
Proof.
  induction k as [|k IH]; intros left attempt interval Hpend Hdone Hlt;
    (destruct left as [|left]; [lia|]); simpl.
  - rewrite Nat.add_0_r in Hdone. rewrite Hdone. simpl. repeat split.
  - assert (H0 : poll_once (responses attempt) = None).
    { specialize (Hpend 0%nat). rewrite Nat.add_0_r in Hpend.
      apply Hpend. lia. }
    rewrite H0. simpl.
    destruct (IH left (S attempt) (next_interval interval)) as [Ho [Hr Hd]].
    + intros j Hj. replace (S attempt + j)%nat with (attempt + S j)%nat by lia.
      apply Hpend. lia.
    + replace (S attempt + k)%nat with (attempt + S k)%nat by lia. exact Hdone.
    + lia.
    + rewrite Ho, Hr, Hd. repeat split.
Qed.

Lemma generateLoop_first_step (pollIntervalMs : Z) (k : nat) :
  forall left attempts,
    (forall j, (j < k)%nat ->
               generate_once (responses (attempts + j)) = StepPending) ->
    generate_once (responses (attempts + k)) <> StepPending ->
    (k < left)%nat ->
    let r := generateLoop responses left attempts pollIntervalMs in
    requests r = S k /\
    delays r = repeat pollIntervalMs k /\
    outcome r = match generate_once (responses (attempts + k)) with
                | StepDone summary => Returned (Some summary)
                | _ => Returned None
                end.
Proof.
  induction k as [|k IH]; intros left attempts Hpend Hend Hlt;
    (destruct left as [|left]; [lia|]); simpl.
  - rewrite Nat.add_0_r in *.
    destruct (generate_once (responses attempts)) eqn:E; simpl.
    + repeat split.
    + repeat split.
    + contradiction.
  - assert (H0 : generate_once (responses attempts) = StepPending).
    { specialize (Hpend 0%nat). rewrite Nat.add_0_r in Hpend.
      apply Hpend. lia. }
    rewrite H0. simpl.
    destruct (IH left (S attempts)) as [Hr [Hd Ho]].
    + intros j Hj. replace (S attempts + j)%nat with (attempts + S j)%nat by lia.
      apply Hpend. lia.
    + replace (S attempts + k)%nat with (attempts + S k)%nat by lia. exact Hend.
    + lia.
    + rewrite Hr, Hd, Ho.
      replace (S attempts + k)%nat with (attempts + S k)%nat by lia.
      repeat split.
Qed.

End FirstCompletion.

(** X3.  [pollForSummary] returns the summary of the first response that
    completes the job, after one request per response up to it and one
    delay per response before it, provided that this response comes within
    [maxAttempts]; failed requests and malformed bodies before it are
    passed over. *)
Theorem pollForSummary_first_complete
    (responses : nat -> Poller.PollResponse) (jitter : nat -> Z)
    (interval : Z) (maxAttempts k : nat) (summary : jsval) :
  (forall j, (j < k)%nat -> Poller.poll_once (responses j) = None) ->
  Poller.poll_once (responses k) = Some summary ->
  (k < maxAttempts)%nat ->
  let r := Poller.pollForSummary responses jitter interval maxAttempts in
  Poller.outcome r = Poller.Returned (Some summary) /\
  Poller.requests r = S k /\
  List.length (Poller.delays r) = k.
Proof.
  intros Hpend Hdone Hlt. unfold Poller.pollForSummary.
  apply pollLoop_first_complete; assumption.
Qed.

(** X3 on a network error, a malformed body and then a complete
    response. *)
Lemma pollForSummary_first_complete_after_errors :
  let responses := fun k : nat =>
    match k with
    | O => Poller.NetworkError
    | S O => Poller.HttpResponse 200 Poller.Malformed
    | _ => Poller.HttpResponse 200 (Poller.Json (Poller.complete_body (JObj [])))
    end in
  Poller.requests (Poller.pollForSummary responses Poller.no_jitter 1500 20)
  = 3%nat.
Proof.
  intros responses.
  refine (proj1 (proj2 (pollForSummary_first_complete responses Poller.no_jitter
                          1500 20 2 (JObj []) _ _ _))).
  - intros j Hj. destruct j as [|[|j]]; [reflexivity | reflexivity | lia].
  - reflexivity.
  - lia.
Defined.

(** X4.  [generateDailySummary] stops at the first response that is not
    pending: it returns the summary if that response completes the job,
    and null, without another request, if the request failed or the body
    was malformed.  Until then it waits [pollIntervalMs] after each
    request. *)
Theorem generateDailySummary_first_step
    (responses : nat -> Poller.PollResponse)
    (pollIntervalMs : Z) (maxAttempts k : nat) :
  (forall j, (j < k)%nat ->
             Poller.generate_once (responses j) = Poller.StepPending) ->
  Poller.generate_once (responses k) <> Poller.StepPending ->
  (k < maxAttempts)%nat ->
  let r := Poller.generateDailySummary responses true pollIntervalMs
             maxAttempts in
  Poller.requests r = S k /\
  Poller.delays r = repeat pollIntervalMs k /\
  Poller.outcome r = match Poller.generate_once (responses k) with
                     | Poller.StepDone summary => Poller.Returned (Some summary)
                     | _ => Poller.Returned None
                     end.
Proof.
  intros Hpend Hend Hlt. unfold Poller.generateDailySummary.
  apply (generateLoop_first_step responses pollIntervalMs k maxAttempts 0%nat);
    assumption.
Qed.

(** X4 on a pending response followed by a network error. *)
Lemma generateDailySummary_first_step_error :
  let responses := fun k : nat =>
    match k with
    | O => Poller.HttpResponse 200 (Poller.Json Poller.pending_body)
    | _ => Poller.NetworkError
    end in
  Poller.requests (Poller.generateDailySummary responses true 1500 30) = 2%nat /\
  Poller.outcome (Poller.generateDailySummary responses true 1500 30)
  = Poller.Returned None.
Proof.
  intros responses.
  destruct (generateDailySummary_first_step responses 1500 30 1) as [Hr [_ Ho]].
  - intros j Hj. destruct j; [reflexivity | lia].
  - discriminate.
  - lia.
  - split; [exact Hr | exact Ho].
Defined.

(* --------------------------------------------------------------------- *)
(** ** The helpers of the store *)
(* --------------------------------------------------------------------- *)

Section StoreFacts.

Import Logs StoreOps.

Lemma insert_desc_perm (x : LogEntry) (l : list LogEntry) :
  Permutation (insert_desc x l) (x :: l).
Proof.
  induction l as [|y r IH]; simpl.
  - apply Permutation_refl.
  - destruct (timestamp y <=? timestamp x).
    + apply Permutation_refl.
    + eapply Permutation_trans; [apply perm_skip; exact IH | apply perm_swap].
Qed.

Lemma sort_desc_perm (l : list LogEntry) : Permutation (sort_desc l) l.
Proof.
  induction l as [|x r IH]; simpl.
  - apply Permutation_refl.
  - eapply Permutation_trans; [apply insert_desc_perm|].
    apply perm_skip. exact IH.
Qed.

Lemma insert_desc_sorted (x : LogEntry) (l : list LogEntry) :
  StronglySorted newest_first l ->
  StronglySorted newest_first (insert_desc x l).
Proof.
  induction l as [|y r IH]; simpl; intros H.
  - constructor; constructor.
  - inversion H as [|? ? Hr Hall]; subst.
    destruct (timestamp y <=? timestamp x) eqn:E.
    + apply Z.leb_le in E. constructor; [exact H|].
      constructor; [exact E|].
      rewrite Forall_forall in *. intros z Hz. specialize (Hall z Hz).
      unfold newest_first in *. lia.
    + apply Z.leb_gt in E. constructor; [apply IH; exact Hr|].
      rewrite Forall_forall in *. intros z Hz.
      apply In_insert_desc in Hz. destruct Hz as [Hz | Hz].
      * subst z. unfold newest_first. lia.
      * apply Hall. exact Hz.
Qed.

Lemma sort_desc_sorted (l : list LogEntry) :
  StronglySorted newest_first (sort_desc l).
Proof.
  induction l as [|x r IH]; simpl.
  - constructor.
  - apply insert_desc_sorted. exact IH.
Qed.

Lemma insert_desc_front (x : LogEntry) (l : list LogEntry) :
  (forall z, In z l -> timestamp z <= timestamp x) ->
  insert_desc x l = x :: l.
Proof.
  destruct l as [|y r]; simpl; intros H; [reflexivity|].
  assert (E : (timestamp y <=? timestamp x) = true)
    by (apply Z.leb_le, H; left; reflexivity).
  rewrite E. reflexivity.
Qed.

Lemma filter_insert_desc (p : LogEntry -> bool) (x : LogEntry)
    (l : list LogEntry) :
  StronglySorted newest_first l ->
  filter p (insert_desc x l)
  = if p x then insert_desc x (filter p l) else filter p l.
Proof.
  induction l as [|y r IH]; intros H.
  - simpl. destruct (p x); reflexivity.
  - inversion H as [|? ? Hr Hall]; subst.
    change (insert_desc x (y :: r))
      with (if timestamp y <=? timestamp x then x :: y :: r
            else y :: insert_desc x r).
    destruct (timestamp y <=? timestamp x) eqn:E.
    + apply Z.leb_le in E.
      change (filter p (x :: y :: r))
        with (if p x then x :: filter p (y :: r) else filter p (y :: r)).
      destruct (p x); [|reflexivity].
      symmetry. apply insert_desc_front.
      intros z Hz. apply filter_In in Hz. destruct Hz as [[Hz | Hz] _].
      * subst z. exact E.
      * rewrite Forall_forall in Hall. specialize (Hall z Hz).
        unfold newest_first in Hall. lia.
    + simpl. rewrite (IH Hr).
      destruct (p y) eqn:Ey; destruct (p x); simpl; try rewrite E;
        reflexivity.
Qed.

Lemma sort_desc_filter (p : LogEntry -> bool) (l : list LogEntry) :
  sort_desc (filter p l) = filter p (sort_desc l).
Proof.
  induction l as [|a r IH]; simpl; [reflexivity|].
  rewrite filter_insert_desc by apply sort_desc_sorted.
  destruct (p a); simpl; rewrite IH; reflexivity.
Qed.

Lemma fold_delete (logs : list LogEntry) :
  forall st,
    (forall l, In l logs -> nonempty (id l) = true) ->
    fold_left (fun s l => match deleteDailyLog s (id l) with
                          | Some s' => s'
                          | None => s
                          end) logs st
    = filter (fun l => negb (existsb (fun x => String.eqb (id l) (id x)) logs))
        st.
Proof.
  induction logs as [|x r IH]; intros st H; simpl.
  - symmetry. apply forallb_filter_id. apply forallb_forall. reflexivity.
  - unfold deleteDailyLog at 2. rewrite (H x (or_introl eq_refl)).
    rewrite IH by (intros l Hl; apply H; right; exact Hl).
    clear. induction st as [|l st IHst]; simpl; [reflexivity|].
    destruct (String.eqb (id l) (id x)); simpl; rewrite IHst;
      reflexivity.
Qed.

Lemma find_append (p : LogEntry -> bool) (l1 l2 : list LogEntry) :
  find p (l1 ++ l2)%list
  = match find p l1 with Some x => Some x | None => find p l2 end.
Proof.
  induction l1 as [|x r IH]; simpl; [reflexivity|].
  destruct (p x); [reflexivity | exact IH].
Qed.

Lemma find_absent (p : LogEntry -> bool) (l : list LogEntry) :
  (forall x, In x l -> p x = false) -> find p l = None.
Proof.
  induction l as [|x r IH]; simpl; intros H; [reflexivity|].
  rewrite (H x (or_introl eq_refl)). apply IH. intros y Hy. apply H.
  right. exact Hy.
Qed.

End StoreFacts.

(** X5.  [getDailyLogs] returns every document of the store exactly once,
    newest first. *)
Theorem getDailyLogs_sorted_permutation (st : Logs.Store) :
  Permutation (Logs.getDailyLogs st) st /\
  StronglySorted StoreOps.newest_first (Logs.getDailyLogs st).
Proof.
  split; [apply sort_desc_perm | apply sort_desc_sorted].
Qed.

(** X6.  The logs of a date that [getDailyLogsByDate] returns are the logs
    of [getDailyLogs] with that date, in the same order; for an empty date
    there are none. *)
Theorem getDailyLogsByDate_filters (dateIso : string) (st : Logs.Store) :
  StoreOps.getDailyLogsByDate dateIso st
  = if nonempty dateIso
    then filter (fun l => AnalyzeToday.opt_is (Logs.date l) dateIso)
           (Logs.getDailyLogs st)
    else [].
Proof.
  unfold StoreOps.getDailyLogsByDate, Logs.getDailyLogs.
  destruct (nonempty dateIso); [apply sort_desc_filter | reflexivity].
Qed.

(** X7.  When the ids of the store are distinct and not empty,
    [deleteAllLogsForDate] removes the logs of the date and no other,
    returns their number, and leaves no log of that date. *)
Theorem deleteAllLogsForDate_removes_the_date (dateIso : string)
    (st : Logs.Store) :
  nonempty dateIso = true ->
  NoDup (map Logs.id st) ->
  (forall l, In l st -> nonempty (Logs.id l) = true) ->
  StoreOps.deleteAllLogsForDate dateIso st
  = (filter (fun l => negb (AnalyzeToday.opt_is (Logs.date l) dateIso)) st,
     Some (List.length
             (filter (fun l => AnalyzeToday.opt_is (Logs.date l) dateIso) st)))
  /\
  StoreOps.getDailyLogsByDate dateIso
    (fst (StoreOps.deleteAllLogsForDate dateIso st)) = [].
Proof.
  intros Hd Hnd Hids.
  set (p := fun l => AnalyzeToday.opt_is (Logs.date l) dateIso).
  assert (Hlogs : StoreOps.getDailyLogsByDate dateIso st
                  = Logs.sort_desc (filter p st)).
  { unfold StoreOps.getDailyLogsByDate. rewrite Hd. reflexivity. }
  assert (Hin : forall x, In x (Logs.sort_desc (filter p st))
                          <-> In x st /\ p x = true).
  { intros x. rewrite In_sort_desc, filter_In. tauto. }
  assert (E : StoreOps.deleteAllLogsForDate dateIso st
              = (filter (fun l => negb (p l)) st,
                 Some (List.length (filter p st)))).
  { unfold StoreOps.deleteAllLogsForDate. rewrite Hlogs. f_equal.
    - rewrite fold_delete by (intros l Hl; apply Hids, Hin; exact Hl).
      apply filter_ext_in. intros l Hl. f_equal.
      destruct (p l) eqn:Ep.
      + apply existsb_exists. exists l. split; [apply Hin; tauto|].
        apply String.eqb_refl.
      + destruct (existsb _ _) eqn:Ex; [|reflexivity].
        apply existsb_exists in Ex. destruct Ex as [x [Hx Hid]].
        apply String.eqb_eq in Hid. apply Hin in Hx. destruct Hx as [Hx Hpx].
        assert (l = x) by (eapply NoDup_map_eq; eauto).
        subst x. congruence.
    - replace (forallb (fun l => nonempty (Logs.id l))
                 (Logs.sort_desc (filter p st))) with true.
      + f_equal. apply Permutation_length. apply sort_desc_perm.
      + symmetry. apply forallb_forall. intros l Hl.
        apply Hids, Hin. exact Hl. }
  split; [exact E|].
  rewrite E. simpl. unfold StoreOps.getDailyLogsByDate. rewrite Hd.
  replace (filter (fun l => AnalyzeToday.opt_is (Logs.date l) dateIso)
             (filter (fun l => negb (p l)) st)) with (@nil Logs.LogEntry);
    [reflexivity|].
  symmetry. clear. induction st as [|l st IH]; simpl; [reflexivity|].
  unfold p at 1. destruct (AnalyzeToday.opt_is (Logs.date l) dateIso) eqn:Ep;
    simpl; [exact IH|].
  rewrite Ep. exact IH.
Qed.

(** X7 on the two meals of 2024-01-05. *)
Lemma deleteAllLogsForDate_two_meals :
  StoreOps.deleteAllLogsForDate "2024-01-05" Scenario.two_meals
  = ([], Some 2%nat).
Proof.
  refine (proj1 (deleteAllLogsForDate_removes_the_date "2024-01-05"
                   Scenario.two_meals _ _ _)).
  - reflexivity.
  - simpl. constructor.
    + simpl. intros [H | []]. discriminate.
    + constructor; [simpl; tauto | constructor].
  - intros l [Hl | [Hl | []]]; subst l; reflexivity.
Defined.

(** X8.  [createDailyLog] adds one document and keeps the others; the new
    document has the id that is returned, the properties of the payload,
    and the timestamp of the payload, or the clock when the payload has
    none (so never 0 while the clock is not 0); it comes out of
    [getDailyLogs]; when its id is new and not empty it can be looked up,
    and deleting it gives back the store. *)
Theorem createDailyLog_adds_one (st : Logs.Store) (new_id : string)
    (now : Z) (payload : Logs.LogEntry) :
  now <> 0 ->
  nonempty new_id = true ->
  (forall l, In l st -> Logs.id l <> new_id) ->
  let e := StoreOps.created_entry new_id now payload in
  let st' := fst (StoreOps.createDailyLog st new_id now payload) in
  Permutation (Logs.getDailyLogs st') (e :: Logs.getDailyLogs st) /\
  Logs.timestamp e <> 0 /\
  (Logs.timestamp payload <> 0 -> Logs.timestamp e = Logs.timestamp payload) /\
  (Logs.timestamp payload = 0 -> Logs.timestamp e = now) /\
  Logs.id e = new_id /\
  (Logs.item e, Logs.item_name e, Logs.category e, Logs.date e,
   Logs.calories e, Logs.macros e, Logs.provenance e, Logs.manual_calories e)
  = (Logs.item payload, Logs.item_name payload, Logs.category payload,
     Logs.date payload, Logs.calories payload, Logs.macros payload,
     Logs.provenance payload, Logs.manual_calories payload) /\
  Matcher.entry_of st' new_id = Some e /\
  (forall i, i <> new_id -> Matcher.entry_of st' i = Matcher.entry_of st i) /\
  StoreOps.deleteDailyLog st' new_id = Some st.
Proof.
  intros Hnow Hid Hfresh e st'. subst st'. simpl.
  assert (Hno : forall s : Logs.Store,
             (forall l, In l s -> Logs.id l <> new_id) ->
             filter (fun l => negb (String.eqb (Logs.id l) new_id)) s = s).
  { intros s Hs. apply forallb_filter_id. apply forallb_forall. intros l Hl.
    apply negb_true_iff, String.eqb_neq, Hs. exact Hl. }
  split; [|split; [|split; [|split; [|split; [|split; [|split; [|split]]]]]]].
  - unfold Logs.getDailyLogs.
    eapply Permutation_trans; [apply sort_desc_perm|].
    eapply Permutation_trans; [apply Permutation_app_comm|]. simpl.
    apply perm_skip. apply Permutation_sym. apply sort_desc_perm.
  - subst e. simpl. destruct (Logs.timestamp payload =? 0) eqn:E;
      [exact Hnow | apply Z.eqb_neq; exact E].
  - intros Hts. subst e. simpl. apply Z.eqb_neq in Hts. rewrite Hts.
    reflexivity.
  - intros Hts. subst e. simpl. rewrite Hts. reflexivity.
  - reflexivity.
  - reflexivity.
  - unfold Matcher.entry_of. rewrite find_append.
    rewrite find_absent
      by (intros l Hl; apply String.eqb_neq, Hfresh; exact Hl).
    simpl. rewrite String.eqb_refl. reflexivity.
  - intros i Hi. unfold Matcher.entry_of. rewrite find_append.
    destruct (find (fun l => String.eqb (Logs.id l) i) st); [reflexivity|].
    simpl. apply String.eqb_neq in Hi. rewrite String.eqb_sym, Hi. reflexivity.
  - unfold StoreOps.deleteDailyLog. rewrite Hid. apply f_equal.
    rewrite filter_app. simpl. rewrite String.eqb_refl. simpl.
    rewrite app_nil_r. apply Hno. exact Hfresh.
Qed.

(** X8 on a third meal added to the two meals. *)
Lemma createDailyLog_adds_one_third :
  StoreOps.deleteDailyLog
    (fst (StoreOps.createDailyLog Scenario.two_meals "c" 300
            (Scenario.entry "" "Ccc" "meal" 0 "2024-01-05")))
    "c"
  = Some Scenario.two_meals.
Proof.
  refine (proj2 (proj2 (proj2 (proj2 (proj2 (proj2 (proj2 (proj2
            (createDailyLog_adds_one Scenario.two_meals "c" 300
               (Scenario.entry "" "Ccc" "meal" 0 "2024-01-05") _ _ _))))))))).
  - discriminate.
  - reflexivity.
  - intros l [Hl | [Hl | []]]; subst l; discriminate.
Defined.

(* --------------------------------------------------------------------- *)
(** ** A second pass of the reconciliation *)
(* --------------------------------------------------------------------- *)

Section SecondPass.

Import Logs Matcher MatcherAlgebra.

Lemma reconcile_step_map (cur : list LogEntry) (st : Store)
    (a : AnalysisResult) :
  reconcile_step cur st a = map (step_fun cur a) st.
Proof.
  unfold reconcile_step, step_fun.
  destruct (selected_id cur a) as [i|]; [|symmetry; apply map_id].
  generalize (patch_of a). intros p.
  unfold update_caught, updateDailyLog, patch_accepted.
  destruct (nonempty i); cbn [negb andb]; [|symmetry; apply map_id].
  destruct (is_undefined (p_calories p) || is_undefined (p_macros p)
            || is_undefined (p_provenance p)); cbn [negb];
    [symmetry; apply map_id|].
  destruct (existsb (fun l => String.eqb (id l) i) st) eqn:E; [reflexivity|].
  symmetry. apply map_id_ext. intros l Hl. unfold patch_id.
  destruct (String.eqb (id l) i) eqn:El; [|reflexivity].
  assert (X : existsb (fun l => String.eqb (id l) i) st = true)
    by (apply existsb_exists; exists l; split; assumption).
  congruence.
Qed.

Lemma reconcile_loop_map (cur : list LogEntry)
    (results : list AnalysisResult) :
  forall st, reconcile_loop cur results st = map (loop_fun cur results) st.
Proof.
  unfold reconcile_loop.
  induction results as [|a rest IH]; intros st; simpl.
  - symmetry. apply map_id.
  - rewrite IH, reconcile_step_map, map_map. reflexivity.
Qed.

Lemma step_fun_identity (cur : list LogEntry) (a : AnalysisResult)
    (l : LogEntry) :
  same_identity (step_fun cur a l) l.
Proof.
  unfold step_fun. destruct (selected_id cur a) as [i|];
    [|apply same_identity_refl].
  destruct (patch_accepted i (patch_of a));
    [apply patch_id_identity | apply same_identity_refl].
Qed.

Lemma loop_fun_identity (cur : list LogEntry)
    (results : list AnalysisResult) :
  forall l, same_identity (loop_fun cur results l) l.
Proof.
  induction results as [|a rest IH]; intros l; simpl.
  - apply same_identity_refl.
  - eapply same_identity_trans; [apply IH | apply step_fun_identity].
Qed.

(** Two entries of the same identity are written alike, or not written. *)
Lemma loop_fun_same_identity (cur : list LogEntry)
    (results : list AnalysisResult) :
  forall x y,
    same_identity x y ->
    loop_fun cur results x = loop_fun cur results y \/
    (loop_fun cur results x = x /\ loop_fun cur results y = y).
Proof.
  induction results as [|a rest IH]; intros x y H; simpl.
  - right. split; reflexivity.
  - assert (S : step_fun cur a x = step_fun cur a y \/
                (step_fun cur a x = x /\ step_fun cur a y = y)).
    { unfold step_fun. destruct (selected_id cur a) as [i|];
        [|right; split; reflexivity].
      destruct (patch_accepted i (patch_of a)); [|right; split; reflexivity].
      unfold patch_id. assert (Hid : id x = id y) by apply H.
      rewrite Hid. destruct (String.eqb (id y) i).
      - left. apply apply_patch_same_identity. exact H.
      - right. split; reflexivity. }
    destruct S as [S | [Sx Sy]].
    + left. rewrite S. reflexivity.
    + rewrite Sx, Sy. apply IH. exact H.
Qed.

Lemma loop_fun_idempotent (cur : list LogEntry)
    (results : list AnalysisResult) (l : LogEntry) :
  loop_fun cur results (loop_fun cur results l) = loop_fun cur results l.
Proof.
  destruct (loop_fun_same_identity cur results _ _
              (loop_fun_identity cur results l)) as [H | [H1 H2]].
  - exact H.
  - rewrite H2. exact H2.
Qed.

Variable G : LogEntry -> LogEntry.
Hypothesis G_identity : forall l, same_identity (G l) l.

Lemma find_map (p : LogEntry -> bool) (l : list LogEntry) :
  (forall x, p (G x) = p x) ->
  find p (map G l) = option_map G (find p l).
Proof.
  intros H. induction l as [|x r IH]; simpl; [reflexivity|].
  rewrite H. destruct (p x); [reflexivity | exact IH].
Qed.

Lemma filter_map_commute (p : LogEntry -> bool) (l : list LogEntry) :
  (forall x, p (G x) = p x) ->
  filter p (map G l) = map G (filter p l).
Proof.
  intros H. induction l as [|x r IH]; simpl; [reflexivity|].
  rewrite H. destruct (p x); simpl; rewrite IH; reflexivity.
Qed.

Lemma insert_desc_map (x : LogEntry) (l : list LogEntry) :
  insert_desc (G x) (map G l) = map G (insert_desc x l).
Proof.
  induction l as [|y r IH]; simpl; [reflexivity|].
  assert (Ex : timestamp (G x) = timestamp x) by apply G_identity.
  assert (Ey : timestamp (G y) = timestamp y) by apply G_identity.
  rewrite Ex, Ey. destruct (timestamp y <=? timestamp x); simpl.
  - reflexivity.
  - rewrite IH. reflexivity.
Qed.

Lemma sort_desc_map (l : list LogEntry) :
  sort_desc (map G l) = map G (sort_desc l).
Proof.
  induction l as [|x r IH]; simpl; [reflexivity|].
  rewrite IH. apply insert_desc_map.
Qed.

Lemma nth_Z_map (l : list LogEntry) (i : Z) :
  nth_Z (map G l) i = option_map G (nth_Z l i).
Proof.
  unfold nth_Z. destruct (i <? 0); [reflexivity|].
  apply nth_error_map.
Qed.

Lemma is_meal_lower_map (x : LogEntry) : is_meal_lower (G x) = is_meal_lower x.
Proof.
  unfold is_meal_lower.
  assert (E : category (G x) = category x) by apply G_identity.
  rewrite E. reflexivity.
Qed.

Lemma exact_pred_map (n : string) (x : LogEntry) :
  exact_pred n (G x) = exact_pred n x.
Proof.
  unfold exact_pred, is_meal_default.
  destruct (G_identity x) as [_ [E1 [E2 [E3 _]]]].
  rewrite E1, E2, E3. reflexivity.
Qed.

Lemma find_match_map (logs : list LogEntry) (a : AnalysisResult) :
  find_match (map G logs) a
  = option_map (fun rl => (fst rl, G (snd rl))) (find_match logs a).
Proof.
  unfold find_match.
  assert (E1 : exact_match (map G logs) a
               = option_map G (exact_match logs a)).
  { unfold exact_match. apply find_map. apply exact_pred_map. }
  assert (E2 : positional_match (map G logs) a
               = option_map G (positional_match logs a)).
  { unfold positional_match. destruct (analyzedId a) as [aid|];
      [|reflexivity].
    destruct (test_item_digits aid); [|reflexivity].
    rewrite filter_map_commute by apply is_meal_lower_map.
    apply nth_Z_map. }
  assert (E3 : substring_match (map G logs) a
               = option_map G (substring_match logs a)).
  { unfold substring_match. destruct (nonempty (analyzedName a));
      [|reflexivity].
    assert (Ei : forall x, item (G x) = item x) by (intros x; apply G_identity).
    rewrite !find_map by (intros x; rewrite Ei; reflexivity).
    destruct (find _ logs); reflexivity. }
  assert (E4 : most_recent_match (map G logs)
               = option_map G (most_recent_match logs)).
  { unfold most_recent_match.
    rewrite filter_map_commute by apply is_meal_lower_map.
    rewrite sort_desc_map.
    destruct (sort_desc (filter is_meal_lower logs)); reflexivity. }
  rewrite E1, E2, E3, E4.
  destruct (exact_match logs a); [reflexivity|]. simpl.
  destruct (positional_match logs a); [reflexivity|]. simpl.
  destruct (substring_match logs a); [reflexivity|]. simpl.
  destruct (most_recent_match logs); reflexivity.
Qed.

Lemma selected_id_map (logs : list LogEntry) (a : AnalysisResult) :
  selected_id (map G logs) a = selected_id logs a.
Proof.
  unfold selected_id. rewrite find_match_map.
  destruct (find_match logs a) as [[r l]|]; [|reflexivity]. simpl.
  assert (E : id (G l) = id l) by apply G_identity.
  rewrite E. reflexivity.
Qed.

Lemma loop_fun_map (logs : list LogEntry) (results : list AnalysisResult) :
  forall l, loop_fun (map G logs) results l = loop_fun logs results l.
Proof.
  induction results as [|a rest IH]; intros l; simpl; [reflexivity|].
  rewrite IH. unfold step_fun. rewrite selected_id_map. reflexivity.
Qed.

End SecondPass.

(** X9.  The reconciliation pass of [analyzeItemsBackend] with the results
    of the first pass changes nothing when it runs a second time: the same
    entries are selected, because no selection rule reads a property that
    the pass writes, and they get the same values. *)
Theorem analyzeItemsBackend_idempotent (st : Logs.Store)
    (results : list Logs.AnalysisResult) :
  Matcher.selections (Matcher.analyzeItemsBackend st results) results
  = Matcher.selections st results /\
  Matcher.analyzeItemsBackend (Matcher.analyzeItemsBackend st results) results
  = Matcher.analyzeItemsBackend st results.
Proof.
  set (G := MatcherAlgebra.loop_fun (Logs.getDailyLogs st) results).
  assert (HG : forall l, Matcher.same_identity (G l) l)
    by apply loop_fun_identity.
  assert (E : Matcher.analyzeItemsBackend st results = map G st)
    by apply reconcile_loop_map.
  assert (Ecur : Logs.getDailyLogs (map G st) = map G (Logs.getDailyLogs st))
    by (apply sort_desc_map; exact HG).
  split.
  - unfold Matcher.selections. rewrite E, Ecur. apply map_ext. intros a.
    apply selected_id_map. exact HG.
  - rewrite E. unfold Matcher.analyzeItemsBackend.
    rewrite reconcile_loop_map, Ecur, map_map. apply map_ext. intros l.
    rewrite loop_fun_map by exact HG. apply loop_fun_idempotent.
Qed.

(* --------------------------------------------------------------------- *)
(** ** What is written and what is read back *)
(* --------------------------------------------------------------------- *)

Section WrittenMacros.

Import Logs Matcher MatcherAlgebra.

Lemma lookup_obj_set_same (k : string) (v : jsval) (o : jsobj) :
  lookup k (obj_set k v o) = v.
Proof.
  induction o as [|[k' v'] r IH]; simpl.
  - rewrite String.eqb_refl. reflexivity.
  - destruct (String.eqb k k') eqn:E; simpl.
    + rewrite String.eqb_refl. reflexivity.
    + rewrite E. exact IH.
Qed.

Lemma lookup_obj_set_other (k k' : string) (v : jsval) (o : jsobj) :
  k <> k' -> lookup k (obj_set k' v o) = lookup k o.
Proof.
  intros Hk. apply String.eqb_neq in Hk.
  induction o as [|[k2 v2] r IH]; simpl.
  - rewrite Hk. reflexivity.
  - destruct (String.eqb k' k2) eqn:E; simpl.
    + apply String.eqb_eq in E. subst k2. rewrite Hk. reflexivity.
    + rewrite IH. reflexivity.
Qed.

Lemma lookup_spread_absent (k : string) (over : jsobj) :
  forall base,
    has_key k over = false ->
    lookup k (spread base over) = lookup k base.
Proof.
  unfold spread.
  induction over as [|[k' v] r IH]; intros base H; simpl; [reflexivity|].
  simpl in H. apply orb_false_iff in H. destruct H as [Hk Hr].
  rewrite IH by exact Hr.
  apply lookup_obj_set_other. apply String.eqb_neq. exact Hk.
Qed.

Lemma has_key_In (k : string) (o : jsobj) :
  has_key k o = true <-> In k (map fst o).
Proof.
  unfold has_key. rewrite existsb_exists, in_map_iff. split.
  - intros [kv [Hin E]]. apply String.eqb_eq in E. exists kv.
    split; [symmetry; exact E | exact Hin].
  - intros [kv [E Hin]]. exists kv. split; [exact Hin|].
    rewrite E. apply String.eqb_refl.
Qed.

Lemma lookup_spread_present (k : string) (over : jsobj) :
  forall base,
    NoDup (map fst over) ->
    has_key k over = true ->
    lookup k (spread base over) = lookup k over.
Proof.
  unfold spread.
  induction over as [|[k' v] r IH]; intros base Hnd H; [discriminate|].
  simpl in Hnd. inversion Hnd as [|? ? Hnotin Hnd']; subst.
  change (fold_left (fun acc kv => obj_set (fst kv) (snd kv) acc)
            ((k', v) :: r) base)
    with (spread (obj_set k' v base) r).
  simpl. destruct (String.eqb k k') eqn:E.
  - apply String.eqb_eq in E. subst k'.
    rewrite lookup_spread_absent.
    + apply lookup_obj_set_same.
    + destruct (has_key k r) eqn:Hr; [|reflexivity].
      apply has_key_In in Hr. contradiction.
  - simpl in H. rewrite E in H. simpl in H. apply (IH _ Hnd' H).
Qed.

Lemma Number_or_again (v : jsval) :
  Number_or (JNum (Number_or v (of_Z 0))) (of_Z 0) = Number_or v (of_Z 0).
Proof.
  unfold Number_or. simpl.
  destruct (num_truthy (Number v)) eqn:E; [rewrite E|]; reflexivity.
Qed.

Lemma coalesce_num (n : jsnum) (v : jsval) : coalesce (JNum n) v = JNum n.
Proof. reflexivity. Qed.

Lemma lookup_absent (k : string) (o : jsobj) :
  has_key k o = false -> lookup k o = JUndefined.
Proof.
  induction o as [|[k' v] r IH]; intros H; [reflexivity|].
  simpl in *. apply orb_false_iff in H. destruct H as [Hk Hr].
  rewrite Hk. apply IH. exact Hr.
Qed.

(** The four normalized properties of [fullMacros], for raw macros that
    do not have them. *)
Lemma fullMacros_normalized (a : AnalysisResult) :
  let m : jsobj := match r_macros a with Some o => o | None => [] end in
  (has_key "calories_kcal" m = false ->
   lookup "calories_kcal" (fullMacros a)
   = num_or_zero (coalesce (r_calories a)
                    (coalesce (lookup "energy_kcal" m) (JNum (of_Z 0))))) /\
  (has_key "protein_g" m = false ->
   lookup "protein_g" (fullMacros a)
   = num_or_zero (coalesce (lookup "protein" m) (JNum (of_Z 0)))) /\
  (has_key "total_carbohydrate_g" m = false ->
   lookup "total_carbohydrate_g" (fullMacros a)
   = num_or_zero (coalesce (lookup "carbs" m)
                    (coalesce (lookup "total_carbs" m) (JNum (of_Z 0))))) /\
  (has_key "total_fat_g" m = false ->
   lookup "total_fat_g" (fullMacros a)
   = num_or_zero (coalesce (lookup "fats" m)
                    (coalesce (lookup "total_fat" m) (JNum (of_Z 0))))).
Proof.
  intros m. unfold fullMacros. fold m.
  assert (K : forall k base, k <> "raw" -> has_key k m = false ->
              lookup k (obj_set "raw" (JObj m) (spread base m))
              = lookup k base).
  { intros k base Hk Hm. rewrite lookup_obj_set_other by exact Hk.
    apply lookup_spread_absent. exact Hm. }
  repeat split; intros H; rewrite K by (discriminate || exact H);
    rewrite (lookup_absent _ _ H); reflexivity.
Qed.

End WrittenMacros.

(** X10.  When the raw macros of a result have none of the four normalized
    keys, the entry that the reconciliation writes reads back, in
    [extractMealMacros] and in the calories of the totals, as the numbers
    that the writer normalized: the calories of the result or else
    [energy_kcal], and [protein], [carbs] or [total_carbs], [fats] or
    [total_fat] of the raw macros. *)
Theorem written_macros_read_back (a : Logs.AnalysisResult)
    (l : Logs.LogEntry) :
  let m : jsobj := match Logs.r_macros a with Some o => o | None => [] end in
  let w := Logs.apply_patch (Matcher.patch_of a) l in
  MatcherAlgebra.has_key "calories_kcal" m = false ->
  MatcherAlgebra.has_key "protein_g" m = false ->
  MatcherAlgebra.has_key "total_carbohydrate_g" m = false ->
  MatcherAlgebra.has_key "total_fat_g" m = false ->
  Aggregator.entry_calories w
  = Number_or (coalesce (Logs.r_calories a)
                 (coalesce (lookup "energy_kcal" m) Aggregator.zero))
      (of_Z 0) /\
  Aggregator.extractMealMacros (Logs.macros w)
  = {| Aggregator.protein :=
         Number_or (coalesce (lookup "protein" m) Aggregator.zero) (of_Z 0);
       Aggregator.carbs :=
         Number_or (coalesce (lookup "carbs" m)
                      (coalesce (lookup "total_carbs" m) Aggregator.zero))
           (of_Z 0);
       Aggregator.fats :=
         Number_or (coalesce (lookup "fats" m)
                      (coalesce (lookup "total_fat" m) Aggregator.zero))
           (of_Z 0);
       Aggregator.calories := Aggregator.entry_calories w |}.
Proof.
  intros m w Hc Hp Hcb Hf.
  destruct (fullMacros_normalized a) as [Kc [Kp [Kcb Kf]]]. fold m in Kc, Kp, Kcb, Kf.
  specialize (Kc Hc). specialize (Kp Hp). specialize (Kcb Hcb).
  specialize (Kf Hf).
  assert (Ec : Aggregator.entry_calories w
               = Number_or (coalesce (Logs.r_calories a)
                              (coalesce (lookup "energy_kcal" m)
                                 Aggregator.zero)) (of_Z 0)).
  { unfold Aggregator.entry_calories, Aggregator.calorie_source.
    subst w. unfold Logs.apply_patch, Logs.calories, Logs.macros.
    unfold Matcher.patch_of, Logs.p_calories.
    rewrite Kc. unfold Matcher.num_or_zero.
    rewrite coalesce_num. apply Number_or_again. }
  split; [exact Ec|].
  rewrite Ec. subst w.
  unfold Aggregator.extractMealMacros, Logs.apply_patch, Logs.macros,
    Matcher.patch_of, Logs.p_macros.
  cbn [truthy negb prop]. rewrite Kc, Kp, Kcb, Kf.
  unfold Matcher.num_or_zero. rewrite !coalesce_num, !Number_or_again.
  reflexivity.
Qed.

(** X10 on a result that brings [energy_kcal], [protein] and [carbs]. *)
Lemma written_macros_read_back_dal :
  Aggregator.entry_calories
    (Logs.apply_patch
       (Matcher.patch_of
          {| Logs.r_id := None; Logs.r_item := Some "dal";
             Logs.r_name := None; Logs.r_calories := JUndefined;
             Logs.r_macros :=
               Some [("energy_kcal", JNum (of_Z 120));
                     ("protein", JNum (of_Z 9)); ("carbs", JStr "20")];
             Logs.r_provenance := JUndefined |})
       Scenario.first_meal)
  = of_Z 120.
Proof.
  exact (proj1 (written_macros_read_back
                  {| Logs.r_id := None; Logs.r_item := Some "dal";
                     Logs.r_name := None; Logs.r_calories := JUndefined;
                     Logs.r_macros :=
                       Some [("energy_kcal", JNum (of_Z 120));
                             ("protein", JNum (of_Z 9));
                             ("carbs", JStr "20")];
                     Logs.r_provenance := JUndefined |}
                  Scenario.first_meal
                  eq_refl eq_refl eq_refl eq_refl)).
Defined.

(** X11.  When the raw macros of a result carry [calories_kcal], the
    calories written to the entry are that raw value, whatever the
    [calories] of the result are: the raw macros are spread over the
    normalized numbers. *)
Theorem raw_calories_kcal_is_written (a : Logs.AnalysisResult) (m : jsobj) :
  Logs.r_macros a = Some m ->
  NoDup (map fst m) ->
  MatcherAlgebra.has_key "calories_kcal" m = true ->
  Logs.p_calories (Matcher.patch_of a) = lookup "calories_kcal" m.
Proof.
  intros Hm Hnd Hk.
  unfold Matcher.patch_of, Logs.p_calories, Matcher.fullMacros.
  rewrite Hm. rewrite lookup_obj_set_other by discriminate.
  apply lookup_spread_present; assumption.
Qed.

(** X11 on a result of 500 kcal whose raw macros say 300. *)
Lemma raw_calories_kcal_is_written_300 :
  Logs.p_calories
    (Matcher.patch_of
       {| Logs.r_id := None; Logs.r_item := Some "dal";
          Logs.r_name := None; Logs.r_calories := JNum (of_Z 500);
          Logs.r_macros := Some [("calories_kcal", JNum (of_Z 300))];
          Logs.r_provenance := JUndefined |})
  = JNum (of_Z 300).
Proof.
  refine (raw_calories_kcal_is_written
            {| Logs.r_id := None; Logs.r_item := Some "dal";
               Logs.r_name := None; Logs.r_calories := JNum (of_Z 500);
               Logs.r_macros := Some [("calories_kcal", JNum (of_Z 300))];
               Logs.r_provenance := JUndefined |}
            [("calories_kcal", JNum (of_Z 300))] eq_refl _ eq_refl).
  simpl. constructor; [simpl; tauto | constructor].
Defined.

(* --------------------------------------------------------------------- *)
(** ** The macro targets and the health score *)
(* --------------------------------------------------------------------- *)

Section GoalFacts.

Import Targets Score.

Local Open Scope Q_scope.



Lemma Qle_bool_false (x y : Q) : Qle_bool x y = false -> y < x.
Proof.
  intros H. apply Qnot_le_lt. intros L. apply Qle_bool_iff in L. congruence.
Qed.

End GoalFacts.



Section ScoreFacts.

Import Targets Score.

Local Open Scope Q_scope.

Lemma Qeq_bool_false (x y : Q) : ~ x == y -> Qeq_bool x y = false.
Proof.
  intros H. destruct (Qeq_bool x y) eqn:E; [|reflexivity].
  apply Qeq_bool_eq in E. contradiction.
Qed.

Lemma Qle_bool_true (x y : Q) : x <= y -> Qle_bool x y = true.
Proof. intros H. apply Qle_bool_iff. exact H. Qed.

Lemma Qle_bool_gt (x y : Q) : y < x -> Qle_bool x y = false.
Proof.
  intros H. destruct (Qle_bool x y) eqn:E; [|reflexivity].
  apply Qle_bool_iff in E. lra.
Qed.

Lemma Qdiv_nonneg (u y : Q) : 0 <= u -> 0 < y -> 0 <= u / y.
Proof.
  intros Hu Hy. apply Qle_shift_div_l; [exact Hy | lra].
Qed.

(** [1 - Math.min(Math.abs(d), 1)] lies between 0 and 1. *)
Lemma one_minus_capped (d : jsnum) :
  is_nan d = false ->
  exists q, jsub (Fin 1) (jmin (jabs d) (Fin 1)) = Fin q /\ 0 <= q <= 1.
Proof.
  intros H. destruct d as [| | |x]; [discriminate | | |].
  - exists (1 + - 1). split; [reflexivity | lra].
  - exists (1 + - 1). split; [reflexivity | lra].
  - cbn [jabs jmin]. pose proof (Qabs_nonneg x) as Hx.
    destruct (Qle_bool (Qabs x) 1) eqn:E.
    + apply Qle_bool_iff in E. exists (1 + - Qabs x).
      split; [reflexivity | lra].
    + exists (1 + - 1). split; [reflexivity | lra].
Qed.

Lemma jdiv_not_nan (a : jsnum) (y : Q) :
  is_nan a = false -> ~ y == 0 -> is_nan (jdiv a (Fin y)) = false.
Proof.
  intros Ha Hy. destruct a as [| | |x]; [discriminate | | |]; cbn [jdiv].
  - destruct (Qle_bool 0 y); reflexivity.
  - destruct (Qle_bool 0 y); reflexivity.
  - rewrite (Qeq_bool_false _ _ Hy). reflexivity.
Qed.

Lemma clamp_range (r : jsnum) (lo hi : Q) :
  is_nan r = false -> lo <= hi ->
  exists q, clamp r (Fin lo) (Fin hi) = Fin q /\ lo <= q <= hi.
Proof.
  intros Hr Hlh. unfold clamp.
  destruct r as [| | |x]; [discriminate | | |]; cbn [jmax jmin].
  - exists hi. split; [reflexivity | lra].
  - destruct (Qle_bool hi lo) eqn:E.
    + exists hi. split; [reflexivity | lra].
    + exists lo. split; [reflexivity | lra].
  - destruct (Qle_bool lo x) eqn:E1.
    + apply Qle_bool_iff in E1. cbn [jmin].
      destruct (Qle_bool hi x) eqn:E2.
      * exists hi. split; [reflexivity | lra].
      * apply Qle_bool_false in E2. exists x. split; [reflexivity | lra].
    + cbn [jmin]. destruct (Qle_bool hi lo) eqn:E2.
      * exists hi. split; [reflexivity | lra].
      * exists lo. split; [reflexivity | lra].
Qed.

Lemma macroPart_unit (a g : jsnum) :
  is_nan a = false -> is_finite g = true ->
  exists q, macroPart a g = Fin q /\ 0 <= q <= 1.
Proof.
  intros Ha Hg. destruct g as [| | |y]; try discriminate.
  unfold macroPart, jpositive, qnum.
  destruct (Qle_bool y 0) eqn:Ey; cbn [negb].
  - exists 0. split; [reflexivity | lra].
  - apply Qle_bool_false in Ey.
    assert (Hy0 : Qeq_bool y 0 = false) by (apply Qeq_bool_false; lra).
    assert (Hy1 : Qle_bool 0 y = true) by (apply Qle_bool_true; lra).
    destruct a as [| | |x]; [discriminate | | |].
    + cbn [jsub jneg jadd jabs jdiv]. rewrite Hy1. cbn [jmin jneg jadd].
      exists (1 + - 1). split; [reflexivity | lra].
    + cbn [jsub jneg jadd jabs jdiv]. rewrite Hy1. cbn [jmin jneg jadd].
      exists (1 + - 1). split; [reflexivity | lra].
    + cbn [jsub jneg jadd jabs jdiv]. rewrite Hy0. cbn [jmin].
      pose proof (Qdiv_nonneg (Qabs (x + - y)) y (Qabs_nonneg _) Ey) as Hd.
      destruct (Qle_bool (Qabs (x + - y) / y) 1) eqn:E; cbn [jneg jadd].
      * apply Qle_bool_iff in E. exists (1 + - (Qabs (x + - y) / y)).
        split; [reflexivity | lra].
      * exists (1 + - 1). split; [reflexivity | lra].
Qed.

Lemma Math_round_range (s : Q) (lo hi : Z) :
  inject_Z lo <= s <= inject_Z hi ->
  exists z, Math_round (Fin s) = of_Z z /\ (lo <= z <= hi)%Z.
Proof.
  intros [Hl Hh]. exists (Qfloor (s + (1 # 2))). split; [reflexivity|].
  split.
  - rewrite <- (Qfloor_Z lo). apply Qfloor_resp_le. lra.
  - pose proof (Qfloor_le (s + (1 # 2))) as Hf.
    assert (L : inject_Z (Qfloor (s + (1 # 2))) < inject_Z (hi + 1)).
    { rewrite inject_Z_plus. change (inject_Z 1) with 1. lra. }
    rewrite <- Zlt_Qlt in L. lia.
Qed.

End ScoreFacts.

Lemma healthScore_bounds (t : Aggregator.Totals) (g : Targets.Goals) :
  is_nan (Aggregator.t_calories t) = false ->
  is_nan (Aggregator.t_protein t) = false ->
  is_nan (Aggregator.t_carbs t) = false ->
  is_nan (Aggregator.t_fats t) = false ->
  is_finite (Targets.calories g) = true ->
  is_finite (Targets.protein_g g) = true ->
  is_finite (Targets.carbs_g g) = true ->
  is_finite (Targets.fats_g g) = true ->
  exists z, Score.healthScore t g = of_Z z /\ 0 <= z <= 100.
Proof.
  intros Tc Tp Tcb Tf Gc Gp Gcb Gf.
  unfold Score.healthScore.
  destruct (macroPart_unit _ _ Tp Gp) as [p [Ep Hp]].
  destruct (macroPart_unit _ _ Tcb Gcb) as [c [Ec Hc]].
  destruct (macroPart_unit _ _ Tf Gf) as [f [Ef Hf]].
  rewrite Ep, Ec, Ef.
  assert (R : exists r,
             (if num_truthy (Targets.calories g)
              then Score.clamp (Score.jdiv (Aggregator.t_calories t)
                                  (Targets.calories g))
                     (Targets.qnum 0) (Targets.qnum 2)
              else Targets.qnum 0) = Fin r).
  { destruct (Targets.calories g) as [| | |y]; try discriminate.
    unfold num_truthy. destruct (Qeq_bool y 0) eqn:Ey; cbn [negb].
    - eexists. reflexivity.
    - assert (Hy : ~ (y == 0)%Q).
      { intros H. apply Qeq_bool_iff in H. congruence. }
      destruct (clamp_range (Score.jdiv (Aggregator.t_calories t) (Fin y))
                  0 2 (jdiv_not_nan _ _ Tc Hy)) as [r [Er _]];
        [lra|].
      exists r. exact Er. }
  destruct R as [r Er]. rewrite Er.
  destruct (one_minus_capped (jsub (Targets.qnum 1) (Fin r)) eq_refl)
    as [u [Eu Hu]].
  unfold Targets.qnum in *. rewrite Eu.
  cbn [jadd jmul Score.jdiv].
  change (Qeq_bool 3 0) with false. cbn iota.
  destruct (jpositive (Aggregator.t_calories t)); cbn [jmul jadd];
    apply (Math_round_range _ 0 100);
    change (inject_Z 0) with 0%Q; change (inject_Z 100) with 100%Q;
    assert (D : ((p + c + f) / 3 == (p + c + f) * (1 # 3))%Q)
      by reflexivity;
    rewrite D; lra.
Qed.

(** X13.  The health score is a whole number from 0 to 100, for totals
    that are not NaN and finite goals. *)
Theorem healthScore_range (t : Aggregator.Totals) (g : Targets.Goals) :
  is_nan (Aggregator.t_calories t) = false ->
  is_nan (Aggregator.t_protein t) = false ->
  is_nan (Aggregator.t_carbs t) = false ->
  is_nan (Aggregator.t_fats t) = false ->
  is_finite (Targets.calories g) = true ->
  is_finite (Targets.protein_g g) = true ->
  is_finite (Targets.carbs_g g) = true ->
  is_finite (Targets.fats_g g) = true ->
  exists z, Score.healthScore t g = of_Z z /\ 0 <= z <= 100.
Proof. apply healthScore_bounds. Qed.

(** X13 on 2000 kcal eaten against the goals of the default profile. *)
Lemma healthScore_range_default :
  exists z,
    Score.healthScore
      {| Aggregator.t_calories := of_Z 2000; Aggregator.t_protein := of_Z 100;
         Aggregator.t_carbs := of_Z 250; Aggregator.t_fats := of_Z 60 |}
      (Targets.computeGoals Targets.default_profile) = of_Z z /\
    0 <= z <= 100.
Proof.
  apply (healthScore_range
           {| Aggregator.t_calories := of_Z 2000;
              Aggregator.t_protein := of_Z 100;
              Aggregator.t_carbs := of_Z 250; Aggregator.t_fats := of_Z 60 |}
           (Targets.computeGoals Targets.default_profile));
    reflexivity.
Defined.

Section ScoreExtremes.

Import Targets Score.

Local Open Scope Q_scope.

Lemma Qdiv_same (x : Q) : 0 < x -> x / x == 1.
Proof. intros H. apply Qmult_inv_r. lra. Qed.

(** [1 - Math.min(Math.abs(1 - r), 1)] where [1 - r] is [x]. *)
Lemma one_minus_capped_small (x : Q) :
  Qabs x <= 1 ->
  exists u, jsub (Fin 1) (jmin (jabs (Fin x)) (Fin 1)) = Fin u /\
            u == 1 - Qabs x.
Proof.
  intros H. cbn [jabs jmin]. rewrite (Qle_bool_true _ _ H).
  eexists. split; [reflexivity | lra].
Qed.

Lemma macroPart_value (a g : Q) :
  0 < g -> Qabs (a - g) <= g ->
  exists q, macroPart (Fin a) (Fin g) = Fin q /\
            q == 1 - Qabs (a - g) / g.
Proof.
  intros Hg Ha. unfold macroPart, jpositive, qnum.
  rewrite (Qle_bool_gt _ _ Hg). cbn [negb jsub jneg jadd jabs jdiv].
  rewrite Qeq_bool_false by lra. cbn [jmin].
  assert (L : Qabs (a + - g) / g <= 1).
  { apply Qle_shift_div_r; [exact Hg|].
    assert (E : a + - g == a - g) by lra. rewrite E. lra. }
  rewrite (Qle_bool_true _ _ L). cbn [jneg jadd].
  eexists. split; [reflexivity|].
  assert (E : a + - g == a - g) by lra. rewrite E. lra.
Qed.

Lemma calRatio_value (x y : Q) :
  0 < y -> 0 <= x -> x <= 2 * y ->
  exists r,
    (if num_truthy (Fin y)
     then clamp (jdiv (Fin x) (Fin y)) (qnum 0) (qnum 2)
     else qnum 0) = Fin r /\
    r == x / y.
Proof.
  intros Hy Hx Hx2. unfold num_truthy, clamp, qnum.
  rewrite Qeq_bool_false by lra. cbn [negb jdiv].
  rewrite Qeq_bool_false by lra. cbn [jmax].
  rewrite (Qle_bool_true _ _ (Qdiv_nonneg x y Hx Hy)). cbn [jmin].
  assert (L : x / y <= 2) by (apply Qle_shift_div_r; [exact Hy | lra]).
  destruct (Qle_bool 2 (x / y)) eqn:E.
  - apply Qle_bool_iff in E. exists 2. split; [reflexivity | lra].
  - exists (x / y). split; [reflexivity | lra].
Qed.

(** The score as a formula, while every total is between 0 and twice its
    goal. *)
Lemma healthScore_value (t : Aggregator.Totals) (g : Goals)
    (tc tp tcb tf gc gp gcb gf : Q) :
  Aggregator.t_calories t = Fin tc -> Aggregator.t_protein t = Fin tp ->
  Aggregator.t_carbs t = Fin tcb -> Aggregator.t_fats t = Fin tf ->
  calories g = Fin gc -> protein_g g = Fin gp ->
  carbs_g g = Fin gcb -> fats_g g = Fin gf ->
  0 < gc -> 0 < gp -> 0 < gcb -> 0 < gf ->
  0 <= tc <= 2 * gc -> Qabs (tp - gp) <= gp ->
  Qabs (tcb - gcb) <= gcb -> Qabs (tf - gf) <= gf ->
  exists s,
    healthScore t g = Math_round (Fin s) /\
    s == 40 * (1 - Qabs (1 - tc / gc))
         + 15 * (3 - Qabs (tp - gp) / gp - Qabs (tcb - gcb) / gcb
                 - Qabs (tf - gf) / gf)
         + 15 * (if Qle_bool tc 0 then 0 else 1).
Proof.
  intros Tc Tp Tcb Tf Gc Gp Gcb Gf Pc Pp Pcb Pf [Rc0 Rc] Rp Rcb Rf.
  unfold healthScore. rewrite Tc, Tp, Tcb, Tf, Gc, Gp, Gcb, Gf.
  destruct (macroPart_value tp gp Pp Rp) as [mp [Ep Hp]].
  destruct (macroPart_value tcb gcb Pcb Rcb) as [mc [Ec Hc]].
  destruct (macroPart_value tf gf Pf Rf) as [mf [Ef Hf]].
  destruct (calRatio_value tc gc Pc Rc0 Rc) as [r [Er Hr]].
  rewrite Ep, Ec, Ef, Er.
  assert (Hq : 0 <= tc / gc <= 2).
  { split; [apply Qdiv_nonneg; assumption|].
    apply Qle_shift_div_r; [exact Pc | lra]. }
  assert (Hx : Qabs (1 + - r) <= 1) by (apply Qabs_Qle_condition; lra).
  unfold qnum. cbn [jsub jneg jadd].
  destruct (one_minus_capped_small (1 + - r) Hx) as [u [Eu Hu]].
  cbn [jsub jneg jadd] in Eu. rewrite Eu.
  cbn [jmul jadd jdiv]. change (Qeq_bool 3 0) with false. cbn iota.
  unfold jpositive. 
  assert (Ha : Qabs (1 + - r) == Qabs (1 - tc / gc)).
  { assert (E : 1 + - r == 1 - tc / gc) by lra. rewrite E. reflexivity. }
  assert (D : ((mp + mc + mf) / 3 == (mp + mc + mf) * (1 # 3)))
    by reflexivity.
  destruct (Qle_bool tc 0); cbn [negb jmul jadd];
    eexists; (split; [reflexivity|]); rewrite D; lra.
Qed.

End ScoreExtremes.

(** X14.  With goals that are positive, the health score of totals that
    meet each goal exactly is 100, and the health score of a day without
    any food is 0. *)
Theorem healthScore_extremes (g : Targets.Goals) (c p cb f : Q) :
  Targets.calories g = Fin c -> Targets.protein_g g = Fin p ->
  Targets.carbs_g g = Fin cb -> Targets.fats_g g = Fin f ->
  (0 < c)%Q -> (0 < p)%Q -> (0 < cb)%Q -> (0 < f)%Q ->
  Score.healthScore
    {| Aggregator.t_calories := Fin c; Aggregator.t_protein := Fin p;
       Aggregator.t_carbs := Fin cb; Aggregator.t_fats := Fin f |} g
  = of_Z 100 /\
  Score.healthScore Aggregator.no_totals g = of_Z 0.
Proof.
  intros Gc Gp Gcb Gf Pc Pp Pcb Pf.
  assert (Z0 : forall x : Q, (Qabs (x - x) == 0)%Q).
  { intros x. assert (E : (x - x == 0)%Q) by lra. rewrite E. reflexivity. }
  assert (Zg : forall x : Q, (0 < x -> Qabs (inject_Z 0 - x) == x)%Q).
  { intros x Hx. rewrite Qabs_neg.
    - change (inject_Z 0) with 0%Q. lra.
    - change (inject_Z 0) with 0%Q. lra. }
  assert (One : forall x : Q, (0 < x -> x / x == 1)%Q)
    by (intros x Hx; apply Qdiv_same; exact Hx).
  split.
  - destruct (healthScore_value
                {| Aggregator.t_calories := Fin c;
                   Aggregator.t_protein := Fin p;
                   Aggregator.t_carbs := Fin cb;
                   Aggregator.t_fats := Fin f |} g c p cb f c p cb f
                eq_refl eq_refl eq_refl eq_refl Gc Gp Gcb Gf Pc Pp Pcb Pf)
      as [s [Es Hs]];
      try (rewrite Z0; lra); [lra|].
    rewrite Es. rewrite (Qle_bool_gt _ _ Pc) in Hs.
    rewrite !Z0, (One c Pc) in Hs.
    assert (E1 : (Qabs (1 - 1) == 0)%Q) by reflexivity.
    rewrite E1 in Hs.
    assert (E0 : forall x : Q, (0 / x == 0)%Q)
      by (intros x; unfold Qdiv; lra).
    rewrite !E0 in Hs.
    unfold Math_round.
    assert (E : (s + (1 # 2) == 201 # 2)%Q) by lra.
    rewrite E. reflexivity.
  - destruct (healthScore_value Aggregator.no_totals g
                (inject_Z 0) (inject_Z 0) (inject_Z 0) (inject_Z 0)
                c p cb f
                eq_refl eq_refl eq_refl eq_refl Gc Gp Gcb Gf Pc Pp Pcb Pf)
      as [s [Es Hs]];
      try (rewrite Zg by assumption; lra);
      [change (inject_Z 0) with 0%Q; lra|].
    rewrite Es. change (Qle_bool (inject_Z 0) 0) with true in Hs.
    rewrite !Zg in Hs by assumption.
    rewrite (One p Pp), (One cb Pcb), (One f Pf) in Hs.
    assert (E0 : (inject_Z 0 / c == 0)%Q)
      by (change (inject_Z 0) with 0%Q; unfold Qdiv; lra).
    rewrite E0 in Hs.
    assert (E1 : (Qabs (1 - 0) == 1)%Q) by reflexivity.
    rewrite E1 in Hs.
    unfold Math_round.
    assert (E : (s + (1 # 2) == 1 # 2)%Q) by lra.
    rewrite E. reflexivity.
Qed.

(** X14 on the goals of the default profile. *)
Lemma healthScore_extremes_default :
  Score.healthScore
    {| Aggregator.t_calories := Fin (inject_Z 2546);
       Aggregator.t_protein := Fin (inject_Z 112);
       Aggregator.t_carbs := Fin (inject_Z 398);
       Aggregator.t_fats := Fin (inject_Z 56) |}
    (Targets.computeGoals Targets.default_profile)
  = of_Z 100 /\
  Score.healthScore Aggregator.no_totals
    (Targets.computeGoals Targets.default_profile) = of_Z 0.
Proof.
  apply (healthScore_extremes (Targets.computeGoals Targets.default_profile));
    reflexivity.
Defined.

(* --------------------------------------------------------------------- *)
(** ** A meal that was just created *)
(* --------------------------------------------------------------------- *)

Section CreatedMeal.

Import Logs Matcher StoreOps.



End CreatedMeal.



(* --------------------------------------------------------------------- *)
(** ** Custom presets *)
(* --------------------------------------------------------------------- *)

Section PresetFacts.

Import Preset.

Lemma fallback_positive (v : jsval) (d : Z) :
  (0 < d)%Z ->
  jpositive (Number_or v (of_Z d)) = false <->
  (Number v = NInf \/ exists x, Number v = Fin x /\ (x < 0)%Q).
Proof.
  intros Hd.
  assert (Pd : jpositive (of_Z d) = true).
  { unfold jpositive, of_Z. apply negb_true_iff.
    destruct (Qle_bool (inject_Z d) 0) eqn:E; [|reflexivity].
    apply Qle_bool_iff in E. change 0%Q with (inject_Z 0) in E.
    rewrite <- Zle_Qle in E. lia. }
  unfold Number_or. destruct (Number v) as [| | |x]; cbn [num_truthy].
  - rewrite Pd. split; [discriminate|].
    intros [H | [x [H _]]]; discriminate.
  - cbn [jpositive]. split; [discriminate|].
    intros [H | [x [H _]]]; discriminate.
  - cbn [jpositive]. split; [left; reflexivity | reflexivity].
  - destruct (Qeq_bool x 0) eqn:E; cbn [negb].
    + rewrite Pd. apply Qeq_bool_eq in E. split; [discriminate|].
      intros [H | [y [H Hy]]]; [discriminate|].
      injection H as H. subst y. lra.
    + cbn [jpositive]. split.
      * intros H. apply negb_false_iff in H. apply Qle_bool_iff in H.
        right. exists x. split; [reflexivity|].
        assert (N : ~ (x == 0)%Q)
          by (intros N; apply Qeq_bool_iff in N; congruence).
        lra.
      * intros [H | [y [H Hy]]]; [discriminate|].
        injection H as H. subst y. apply negb_false_iff.
        apply Qle_bool_iff. lra.
Qed.

End PresetFacts.

(** X16.  A preset that [handleAddCustomPreset] adds has the trimmed name
    of the form, which is not empty, a quantity and grams that are
    positive, and an emoji; and the alert on the quantity is raised only
    for a name that is not blank with a quantity that reads as a negative
    number: a quantity of 0, or one that is blank or no number, counts as
    1. *)
Theorem handleAddCustomPreset_outcomes (new_id customName customEmoji
    customQty customGrams : string) :
  (forall p,
     Preset.handleAddCustomPreset new_id customName customEmoji customQty
       customGrams = Preset.Added p ->
     Preset.name p = trim customName /\
     trim (Preset.name p) = Preset.name p /\
     nonempty (Preset.name p) = true /\
     jpositive (Preset.quantity p) = true /\
     jpositive (Preset.grams p) = true /\
     nonempty (Preset.emoji p) = true /\
     Preset.custom p = true /\ Preset.q_id p = new_id) /\
  (Preset.handleAddCustomPreset new_id customName customEmoji customQty
     customGrams = Preset.Alert "Quantity must be > 0."
   <->
   nonempty (trim customName) = true /\
   (Number (JStr customQty) = NInf \/
    exists x, Number (JStr customQty) = Fin x /\ (x < 0)%Q)).
Proof.
  pose proof (fallback_positive (JStr customQty) 1 eq_refl) as Hq.
  unfold Preset.handleAddCustomPreset.
  destruct (nonempty (trim customName)) eqn:En; cbn [negb].
  - destruct (jpositive (Number_or (JStr customQty) (of_Z 1))) eqn:Eq;
      cbn [negb].
    + destruct (jpositive (Number_or (JStr customGrams) (of_Z 500))) eqn:Eg;
        cbn [negb].
      * split.
        -- intros p Hp. injection Hp as Hp. subst p. cbn.
           repeat split; try assumption.
           ++ apply trim_idempotent.
           ++ destruct (nonempty customEmoji) eqn:Ee; [exact Ee|].
              reflexivity.
        -- split; [discriminate|]. intros [_ H]. apply Hq in H. discriminate.
      * split; [discriminate|].
        split; [discriminate|]. intros [_ H]. apply Hq in H. discriminate.
    + split; [discriminate|].
      split; [intros _; split; [reflexivity | apply Hq; reflexivity]|].
      reflexivity.
  - split; [discriminate|]. split; [discriminate | intros [H _]; discriminate].
Qed.

(* --------------------------------------------------------------------- *)
(** ** Day keys of timestamps *)
(* --------------------------------------------------------------------- *)

Section DayKeyFacts.

Import Dates.

Lemma date_of_day_year (n : Z) :
  -719528 <= n <= 2932896 ->
  let '(y, _, _) := date_of_day n in 0 <= y <= 9999.
Proof.
  intros Hn. destruct (date_of_day_spec n) as [Hv Hd].
  destruct (date_of_day n) as [[y m] d].
  assert (L : days_from_civil (0, 1, 1) = -719528) by reflexivity.
  assert (U : days_from_civil (9999, 12, 31) = 2932896) by reflexivity.
  split.
  - destruct (Z_lt_le_dec y 0) as [Hy | Hy]; [|exact Hy].
    pose proof (days_from_civil_year_lt y m d 0 1 1 Hv eq_refl Hy). lia.
  - destruct (Z_lt_le_dec 9999 y) as [Hy | Hy]; [|exact Hy].
    pose proof (days_from_civil_year_lt 9999 12 31 y m d eq_refl Hv Hy). lia.
Qed.

Lemma toISODate_in_years (ms : Z) :
  -62167219200000 <= ms < 253402300800000 ->
  wf_date (toISODate ms) /\
  parse_date (toISODate ms) = Some (ms / ms_per_day).
Proof.
  intros Hms.
  assert (Hn : -719528 <= ms / ms_per_day <= 2932896).
  { unfold ms_per_day. split.
    - apply Z.div_le_lower_bound; lia.
    - assert (ms / (1000 * 60 * 60 * 24) < 2932897); [|lia].
      apply Z.div_lt_upper_bound; lia. }
  pose proof (date_of_day_year _ Hn) as Hy.
  destruct (date_of_day_spec (ms / ms_per_day)) as [Hv _].
  assert (W : wf_date (toISODate ms)).
  { unfold toISODate.
    destruct (date_of_day (ms / ms_per_day)) as [[y m] d].
    rewrite substring_key by assumption.
    exists y, m, d. split; [exact Hy|]. split; [exact Hv | reflexivity]. }
  split; [exact W|]. apply toISODate_wf. exact W.
Qed.

End DayKeyFacts.

(** X17.  For a timestamp of the years 0 to 9999, or without a timestamp
    at a clock of these years, [dateKey] gives a well-formed key, and the
    key read back as a date is the day of the timestamp. *)
Theorem dateKey_well_formed (now ts : Z) :
  let t := if ts =? 0 then now else ts in
  -62167219200000 <= t < 253402300800000 ->
  exists k,
    Dates.dateKey now ts = Some k /\
    Dates.wf_date k /\
    Dates.parse_date k = Some (t / Dates.ms_per_day).
Proof.
  intros t Ht. destruct (toISODate_in_years t Ht) as [W P].
  exists (Dates.toISODate t). split; [|split; assumption].
  unfold Dates.dateKey. subst t. destruct (ts =? 0); [reflexivity|].
  assert (R : Dates.in_date_range ts = true).
  { unfold Dates.in_date_range. apply andb_true_iff.
    split; apply Z.leb_le; lia. }
  rewrite R. reflexivity.
Qed.

(** X17 at noon of 2024-01-05. *)
Lemma dateKey_well_formed_noon :
  exists k,
    Dates.dateKey 0 Scenario.noon_2024_01_05 = Some k /\
    Dates.wf_date k /\
    Dates.parse_date k = Some (Scenario.noon_2024_01_05 / Dates.ms_per_day).
Proof.
  apply (dateKey_well_formed 0 Scenario.noon_2024_01_05).
  unfold Scenario.noon_2024_01_05. simpl. lia.
Defined.

(* --------------------------------------------------------------------- *)
(** ** The streaks of the activity views *)
(* --------------------------------------------------------------------- *)

Section ActivityStreaks.

Import Logs Dates Streaks Activity.

Lemma string_keys_spec (logs : list LogEntry) :
  (forall l, In l logs -> log_key l <> None) ->
  exists s,
    string_keys logs = Some s /\
    forall k, In k s <->
              exists l, In l logs /\ log_key l = Some (Some k).
Proof.
  induction logs as [|x r IH]; intros H.
  - exists []. split; [reflexivity|]. intros k. split; [intros []|].
    intros [l [[] _]].
  - destruct IH as [s [Es Hs]]; [intros l Hl; apply H; right; exact Hl|].
    assert (Hx : log_key x <> None) by (apply H; left; reflexivity).
    cbn [string_keys]. rewrite Es.
    destruct (log_key x) as [[d|]|] eqn:Ex; [| |contradiction].
    + exists (d :: s). split; [reflexivity|]. intros k. cbn [In].
      rewrite Hs. split.
      * intros [Hk | [l [Hl Hk]]].
        -- subst k. exists x. split; [left; reflexivity | exact Ex].
        -- exists l. split; [right; exact Hl | exact Hk].
      * intros [l [[Hl | Hl] Hk]].
        -- subst l. left. congruence.
        -- right. exists l. split; assumption.
    + exists s. split; [reflexivity|]. intros k. rewrite Hs. split.
      * intros [l [Hl Hk]]. exists l. split; [right; exact Hl | exact Hk].
      * intros [l [[Hl | Hl] Hk]].
        -- subst l. congruence.
        -- exists l. split; assumption.
Qed.

Lemma run_ending_unique (P : Z -> Prop) (p : Z) (r1 r2 : nat) :
  run_ending P p r1 -> run_ending P p r2 -> r1 = r2.
Proof.
  intros [C1 N1] [C2 N2].
  destruct (Nat.lt_trichotomy r1 r2) as [H | [H | H]]; [|exact H|].
  - exfalso. apply N1. apply C2. lia.
  - exfalso. apply N2. apply C1. lia.
Qed.

Lemma string_keys_days (logs : list LogEntry) (s : list string) :
  (forall l, In l logs -> log_key l <> None) ->
  string_keys logs = Some s ->
  forall n, logged_on logs n <-> In n (day_numbers s).
Proof.
  intros H Es n.
  destruct (string_keys_spec logs H) as [s' [Es' Hs]].
  assert (s' = s) by congruence. subst s'.
  rewrite In_day_numbers. unfold logged_on. split.
  - intros [l [k [Hl [Hk Hn]]]]. exists k. split; [|exact Hn].
    apply Hs. exists l. split; assumption.
  - intros [k [Hk Hn]]. apply Hs in Hk. destruct Hk as [l [Hl Hk]].
    exists l, k. repeat split; assumption.
Qed.

Lemma string_keys_length (logs : list LogEntry) :
  forall s, string_keys logs = Some s ->
            (List.length s <= List.length logs)%nat.
Proof.
  induction logs as [|x r IH]; intros s H; cbn [string_keys] in H.
  - injection H as H. subst s. simpl. lia.
  - destruct (log_key x) as [[d|]|]; [| |discriminate];
      destruct (string_keys r) as [s'|]; try discriminate;
      injection H as H; subst s; specialize (IH s' eq_refl); simpl; lia.
Qed.

(** In a zone without a clock change the loop of [computeStreak] is the
    walk over exact days. *)
Lemma streak_from_fixed (z : Zone) (today : Z) (s : list string)
    (turns : nat) :
  no_clock_change z ->
  forall i,
    streak_from z today s i turns
    = day_walk turns (today - i * ms_per_day) s.
Proof.
  intros Hz. induction turns as [|t IH]; intros i; [reflexivity|].
  cbn [streak_from day_walk]. rewrite setDate_back_fixed by exact Hz.
  rewrite IH.
  replace (today - (i + 1) * ms_per_day)
    with (today - i * ms_per_day - ms_per_day) by lia.
  reflexivity.
Qed.

End ActivityStreaks.

(** X18.  In a zone whose clock does not change, when every log has a
    well-formed key or none and the walk has a turn for every log, the
    streak of [calcStreakFromLogs] is the length of the run of logged
    days that ends at the UTC date of the clock, and [computeStreak] of
    the activity graph is that number with a limit of 366. *)
Theorem computeStreak_is_limited (z : Dates.Zone) (fuel : nat) (now : Z)
    (logs : list Logs.LogEntry) :
  Dates.no_clock_change z ->
  (List.length logs <= fuel)%nat ->
  (forall l, In l logs ->
             Activity.log_key l = Some None \/
             exists k, Activity.log_key l = Some (Some k) /\ Dates.wf_date k) ->
  exists n,
    Activity.calcStreakFromLogs z fuel now logs = Run.Returns n /\
    Streaks.run_ending (Activity.logged_on logs) (now / Dates.ms_per_day) n /\
    Activity.computeStreak z now logs = Some (Nat.min 366 n).
Proof.
  intros Hz Hfuel H.
  assert (Hk : forall l, In l logs -> Activity.log_key l <> None).
  { intros l Hl. destruct (H l Hl) as [E | [k [E _]]]; congruence. }
  destruct (string_keys_spec logs Hk) as [s [Es Hs]].
  assert (Hwf : Forall Dates.wf_date s).
  { apply Forall_forall. intros k Hin. apply Hs in Hin.
    destruct Hin as [l [Hl El]].
    destruct (H l Hl) as [E | [k' [E W]]]; [congruence|].
    assert (k' = k) by congruence. subst k'. exact W. }
  pose proof (string_keys_length logs s Es) as Hlen.
  unfold Activity.calcStreakFromLogs, Activity.computeStreak. rewrite Es.
  rewrite (count_back_returns z s fuel now Hz Hwf) by lia.
  eexists. split; [reflexivity|]. split.
  - apply (run_ending_ext _ (fun n => In n (Streaks.day_numbers s))).
    + apply string_keys_days; assumption.
    + apply current_run. exact Hwf.
  - f_equal. rewrite (streak_from_fixed z now s 366 Hz 0).
    replace (now - 0 * Dates.ms_per_day) with now by lia.
    destruct (Nat.le_gt_cases 366 (S (List.length s))) as [L | L].
    + apply day_walk_min. exact L.
    + rewrite (day_walk_enough s 366 now Hwf) by lia.
      pose proof (day_walk_bounded s (S (List.length s)) now Hwf). lia.
Qed.

(** X18 on three days up to today, in the zone of UTC. *)
Lemma computeStreak_is_limited_three :
  exists n,
    Activity.calcStreakFromLogs Dates.utc_zone 3 Scenario.noon_2024_01_05
      Scenario.up_to_today = Run.Returns n /\
    Streaks.run_ending (Activity.logged_on Scenario.up_to_today)
      (Scenario.noon_2024_01_05 / Dates.ms_per_day) n /\
    Activity.computeStreak Dates.utc_zone Scenario.noon_2024_01_05
      Scenario.up_to_today = Some (Nat.min 366 n).
Proof.
  apply (computeStreak_is_limited Dates.utc_zone 3 Scenario.noon_2024_01_05
           Scenario.up_to_today).
  - exists 0. split; intros t; reflexivity.
  - simpl. lia.
  - intros l Hl. right. simpl in Hl.
    destruct Hl as [Hl | [Hl | [Hl | []]]]; subst l.
    + exists "2024-01-04". split; [reflexivity|].
      exists 2024, 1, 4. repeat split; try lia; reflexivity.
    + exists "2024-01-05". split; [reflexivity|].
      exists 2024, 1, 5. repeat split; try lia; reflexivity.
    + exists "2024-01-03". split; [reflexivity|].
      exists 2024, 1, 3. repeat split; try lia; reflexivity.
Defined.

Section RangeStreak.

Import Logs Dates Streaks Activity.

Lemma log_key_day_key (now : Z) (r : LogEntry) (k : string) :
  log_key r = Some (Some k) -> Aggregator.day_key now r = Some k.
Proof.
  unfold log_key, Aggregator.day_key, dateKey.
  destruct (date r) as [d|].
  - destruct (nonempty d); [congruence|].
    destruct (timestamp r =? 0); [discriminate|].
    destruct (in_date_range (timestamp r)); congruence.
  - destruct (timestamp r =? 0); [discriminate|].
    destruct (in_date_range (timestamp r)); congruence.
Qed.

End RangeStreak.

(** X19.  When every meal row has a well-formed key of its own (a date, or
    a timestamp), [calcStreakFromLogsRange] of the friends view gives the
    current streak of [computeStreaksFromLogs]: in every zone and for
    every number of turns the two walks do the same; and in a zone whose
    clock does not change, with a turn for every row, both return. *)
Theorem calcStreakFromLogsRange_is_current (z : Dates.Zone) (fuel : nat)
    (now : Z) (rows : list Logs.LogEntry) :
  (forall r, In r rows -> Logs.is_meal_default r = true ->
             exists k, Activity.log_key r = Some (Some k) /\
                       Dates.wf_date k) ->
  Activity.calcStreakFromLogsRange z fuel now rows
  = Run.run_map Streaks.current
      (Streaks.computeStreaksFromLogs z fuel now rows) /\
  (Dates.no_clock_change z -> (List.length rows <= fuel)%nat ->
   exists st,
     Streaks.computeStreaksFromLogs z fuel now rows = Run.Returns st /\
     Activity.calcStreakFromLogsRange z fuel now rows
     = Run.Returns (Streaks.current st)).
Proof.
  intros H.
  assert (Hday : forall r, In r rows -> Logs.is_meal_default r = true ->
                   exists k, Aggregator.day_key now r = Some k /\
                             Dates.wf_date k).
  { intros r Hr Hm. destruct (H r Hr Hm) as [k [Ek W]]. exists k.
    split; [apply log_key_day_key; exact Ek | exact W]. }
  set (meals := filter Logs.is_meal_default rows).
  assert (Hk : forall l, In l meals -> Activity.log_key l <> None).
  { intros l Hl. apply filter_In in Hl. destruct Hl as [Hl Hm].
    destruct (H l Hl Hm) as [k [E _]]. congruence. }
  destruct (string_keys_spec meals Hk) as [s2 [Es2 Hs2]].
  destruct (collect_dates_spec now rows Hday [] (NoDup_nil _))
    as [s1 [Es1 [_ Hs1]]].
  assert (Hsame : forall k, In k s1 <-> In k s2).
  { intros k. rewrite Hs1, Hs2. split.
    - intros [[] | [r [Hr [Hm Ek]]]].
      destruct (H r Hr Hm) as [k' [E' _]].
      assert (k' = k).
      { apply (log_key_day_key now) in E'. congruence. }
      subst k'. exists r. split; [apply filter_In; split; assumption|].
      exact E'.
    - intros [l [Hl Ek]]. apply filter_In in Hl. destruct Hl as [Hl Hm].
      right. exists l. repeat split; try assumption.
      apply log_key_day_key. exact Ek. }
  assert (Eq : Activity.calcStreakFromLogsRange z fuel now rows
               = Run.run_map Streaks.current
                   (Streaks.computeStreaksFromLogs z fuel now rows)).
  { unfold Activity.calcStreakFromLogsRange, Activity.meal_keys.
    fold meals. rewrite Es2.
    unfold Streaks.computeStreaksFromLogs, Streaks.datesSet. rewrite Es1.
    rewrite <- (count_back_ext z s1 s2 fuel Hsame now).
    destruct s1 as [|k s1'] eqn:E1.
    - destruct fuel; reflexivity.
    - rewrite <- E1.
      destruct (Streaks.count_back z fuel now s1); reflexivity. }
  split; [exact Eq|].
  intros Hz Hfuel.
  destruct (streaks_of_rows now rows Hday z fuel Hz Hfuel)
    as [st [Est _]].
  exists st. split; [exact Est|]. rewrite Eq, Est. reflexivity.
Qed.

(** X19 on three days up to today, in the zone of UTC. *)
Lemma calcStreakFromLogsRange_is_current_three :
  Activity.calcStreakFromLogsRange Dates.utc_zone 3 Scenario.noon_2024_01_05
    Scenario.up_to_today
  = Run.run_map Streaks.current
      (Streaks.computeStreaksFromLogs Dates.utc_zone 3
         Scenario.noon_2024_01_05 Scenario.up_to_today).
Proof.
  apply (calcStreakFromLogsRange_is_current Dates.utc_zone 3
           Scenario.noon_2024_01_05 Scenario.up_to_today).
  intros l Hl _. simpl in Hl.
  destruct Hl as [Hl | [Hl | [Hl | []]]]; subst l.
  - exists "2024-01-04". split; [reflexivity|].
    exists 2024, 1, 4. repeat split; try lia; reflexivity.
  - exists "2024-01-05". split; [reflexivity|].
    exists 2024, 1, 5. repeat split; try lia; reflexivity.
  - exists "2024-01-03". split; [reflexivity|].
    exists 2024, 1, 3. repeat split; try lia; reflexivity.
Defined.

(* --------------------------------------------------------------------- *)
(** ** The totals of the activity graph *)
(* --------------------------------------------------------------------- *)

Section ActivityTotals.

Import Logs Activity.

Lemma jadd_nan_l (b : jsnum) : jadd NaN b = NaN.
Proof. reflexivity. Qed.




End ActivityTotals.



(* --------------------------------------------------------------------- *)
(** ** Goals of a profile with finite measures *)
(* --------------------------------------------------------------------- *)

Section FiniteGoals.

Import Targets Score.




End FiniteGoals.



(** X22.  On an entry that the reconciliation wrote from raw macros
    without the four normalized keys, the activity graph and [App.js] read
    the same calories, protein, carbohydrates and fat. *)
Theorem readers_agree_on_written (a : Logs.AnalysisResult)
    (l : Logs.LogEntry) :
  let m : jsobj := match Logs.r_macros a with Some o => o | None => [] end in
  let w := Logs.apply_patch (Matcher.patch_of a) l in
  MatcherAlgebra.has_key "calories_kcal" m = false ->
  MatcherAlgebra.has_key "protein_g" m = false ->
  MatcherAlgebra.has_key "total_carbohydrate_g" m = false ->
  MatcherAlgebra.has_key "total_fat_g" m = false ->
  Activity.entry_calories w = Aggregator.entry_calories w /\
  Activity.extractMacros (Logs.macros w)
  = (Aggregator.protein (Aggregator.extractMealMacros (Logs.macros w)),
     Aggregator.carbs (Aggregator.extractMealMacros (Logs.macros w)),
     Aggregator.fats (Aggregator.extractMealMacros (Logs.macros w))).
Proof.
  intros m w Hc Hp Hcb Hf.
  destruct (fullMacros_normalized a) as [Kc [Kp [Kcb Kf]]].
  fold m in Kc, Kp, Kcb, Kf.
  specialize (Kc Hc). specialize (Kp Hp). specialize (Kcb Hcb).
  specialize (Kf Hf).
  subst w. split.
  - unfold Activity.entry_calories, Aggregator.entry_calories,
      Aggregator.calorie_source, Logs.apply_patch, Logs.calories,
      Logs.macros, Matcher.patch_of, Logs.p_calories.
    rewrite Kc. unfold Matcher.num_or_zero. rewrite !coalesce_num.
    rewrite Number_or_again. reflexivity.
  - unfold Activity.extractMacros, Aggregator.extractMealMacros,
      Logs.apply_patch, Logs.macros, Matcher.patch_of, Logs.p_macros.
    cbn [truthy negb prop Aggregator.protein Aggregator.carbs
         Aggregator.fats].
    rewrite Kp, Kcb, Kf. unfold Matcher.num_or_zero.
    rewrite !coalesce_num. reflexivity.
Qed.

(** X22 on a result that brings [energy_kcal], [protein] and [carbs]. *)
Lemma readers_agree_on_written_dal :
  Activity.entry_calories
    (Logs.apply_patch
       (Matcher.patch_of
          {| Logs.r_id := None; Logs.r_item := Some "dal";
             Logs.r_name := None; Logs.r_calories := JUndefined;
             Logs.r_macros :=
               Some [("energy_kcal", JNum (of_Z 120));
                     ("protein", JNum (of_Z 9)); ("carbs", JStr "20")];
             Logs.r_provenance := JUndefined |})
       Scenario.first_meal)
  = of_Z 120.
Proof.
  exact (proj1 (readers_agree_on_written
                  {| Logs.r_id := None; Logs.r_item := Some "dal";
                     Logs.r_name := None; Logs.r_calories := JUndefined;
                     Logs.r_macros :=
                       Some [("energy_kcal", JNum (of_Z 120));
                             ("protein", JNum (of_Z 9));
                             ("carbs", JStr "20")];
                     Logs.r_provenance := JUndefined |}
                  Scenario.first_meal
                  eq_refl eq_refl eq_refl eq_refl)).
Defined.

(* --------------------------------------------------------------------- *)
(** ** The week of the activity graph *)
(* --------------------------------------------------------------------- *)

Section WeekFacts.

Import Logs Dates Week.







Lemma day_shift (now i : Z) :
  (now - i * ms_per_day) / ms_per_day = now / ms_per_day - i.
Proof.
  replace (now - i * ms_per_day) with (now + (- i) * ms_per_day) by lia.
  rewrite Z.div_add by (unfold ms_per_day; lia). lia.
Qed.



End WeekFacts.



(* --------------------------------------------------------------------- *)
(** ** The order of day keys *)
(* --------------------------------------------------------------------- *)

Section KeyOrder.

Import Logs Dates Friends.

(** Well-formed keys compare as texts the way their days do. *)
Lemma wf_date_leb_iff (s1 s2 : string) (n1 n2 : Z) :
  wf_date s1 -> wf_date s2 ->
  parse_date s1 = Some n1 -> parse_date s2 = Some n2 ->
  (String.leb s1 s2 = true <-> n1 <= n2).
Proof.
  intros W1 W2 P1 P2. split.
  - intros Hle. destruct (string_dec s1 s2) as [E | E].
    + subst s2. assert (n1 = n2) by congruence. lia.
    + destruct (wf_date_leb_lt s1 s2 W1 W2 Hle E) as [a [b [Ea [Eb Hlt]]]].
      assert (a = n1) by congruence. assert (b = n2) by congruence. lia.
  - intros Hle. destruct (String.leb s1 s2) eqn:E; [reflexivity|].
    exfalso. unfold String.leb in E.
    assert (C : String.compare s2 s1 = Lt).
    { rewrite String.compare_antisym.
      destruct (String.compare s1 s2); try discriminate. reflexivity. }
    destruct (wf_date_compare_lt s2 s1 W2 W1 C) as [a [b [Ea [Eb Hlt]]]].
    assert (a = n2) by congruence. assert (b = n1) by congruence. lia.
Qed.

Lemma wf_date_leb_trans (a b c : string) :
  wf_date a -> wf_date b -> wf_date c ->
  String.leb a b = true -> String.leb b c = true -> String.leb a c = true.
Proof.
  intros Wa Wb Wc Hab Hbc.
  destruct (wf_date_parse a Wa) as [ta [_ [_ Pa]]].
  destruct (wf_date_parse b Wb) as [tb [_ [_ Pb]]].
  destruct (wf_date_parse c Wc) as [tc [_ [_ Pc]]].
  apply (wf_date_leb_iff a b _ _ Wa Wb Pa Pb) in Hab.
  apply (wf_date_leb_iff b c _ _ Wb Wc Pb Pc) in Hbc.
  apply (wf_date_leb_iff a c _ _ Wa Wc Pa Pc). lia.
Qed.

Lemma In_insert_date_desc (x y : LogEntry) (l : list LogEntry) :
  In y (insert_date_desc x l) <-> y = x \/ In y l.
Proof.
  induction l as [|z r IH]; cbn [insert_date_desc].
  - cbn. intuition.
  - destruct (String.leb (date_of z) (date_of x)).
    + cbn [In]. intuition.
    + cbn [In]. rewrite IH. intuition.
Qed.

Lemma In_sort_date_desc (y : LogEntry) (l : list LogEntry) :
  In y (sort_date_desc l) <-> In y l.
Proof.
  induction l as [|x r IH]; [reflexivity|].
  change (sort_date_desc (x :: r))
    with (insert_date_desc x (sort_date_desc r)).
  rewrite In_insert_date_desc, IH. cbn [In]. intuition.
Qed.

Lemma insert_date_desc_sorted (x : LogEntry) (l : list LogEntry) :
  wf_date (date_of x) ->
  (forall y, In y l -> wf_date (date_of y)) ->
  StronglySorted later_first l ->
  StronglySorted later_first (insert_date_desc x l).
Proof.
  intros Wx. induction l as [|z r IH]; intros Wl H; cbn [insert_date_desc].
  - constructor; constructor.
  - inversion H as [|? ? Hr Hall]; subst.
    assert (Wz : wf_date (date_of z)) by (apply Wl; left; reflexivity).
    assert (Wr : forall y, In y r -> wf_date (date_of y))
      by (intros y Hy; apply Wl; right; exact Hy).
    rewrite Forall_forall in Hall.
    destruct (String.leb (date_of z) (date_of x)) eqn:E.
    + constructor; [exact H|]. apply Forall_forall. intros y [Hy | Hy].
      * subst y. exact E.
      * unfold later_first.
        apply (wf_date_leb_trans _ (date_of z)); auto. apply Hall. exact Hy.
    + constructor; [apply IH; assumption|].
      apply Forall_forall. intros y Hy. apply In_insert_date_desc in Hy.
      destruct Hy as [Hy | Hy].
      * subst y. unfold later_first.
        destruct (String.leb_total (date_of z) (date_of x)); congruence.
      * apply Hall. exact Hy.
Qed.

Lemma sort_date_desc_sorted (l : list LogEntry) :
  (forall y, In y l -> wf_date (date_of y)) ->
  StronglySorted later_first (sort_date_desc l).
Proof.
  induction l as [|x r IH]; intros W.
  - constructor.
  - change (sort_date_desc (x :: r))
      with (insert_date_desc x (sort_date_desc r)).
    apply insert_date_desc_sorted.
    + apply W. left. reflexivity.
    + intros y Hy. apply (proj1 (In_sort_date_desc y r)) in Hy.
      apply W. right. exact Hy.
    + apply IH. intros y Hy. apply W. right. exact Hy.
Qed.

Lemma StronglySorted_filter_keeps (R : LogEntry -> LogEntry -> Prop)
    (p : LogEntry -> bool) (l : list LogEntry) :
  StronglySorted R l -> StronglySorted R (filter p l).
Proof.
  induction 1 as [|x r Hr IH Hall]; cbn [filter]; [constructor|].
  destruct (p x); [|exact IH].
  constructor; [exact IH|]. rewrite Forall_forall in *.
  intros y Hy. apply filter_In in Hy. apply Hall. apply Hy.
Qed.

Lemma date_of_wf (r : LogEntry) (d : string) :
  date r = Some d -> wf_date d -> date_of r = d.
Proof.
  intros E W. unfold date_of, str_or. rewrite E.
  rewrite (wf_date_nonempty d W). reflexivity.
Qed.

End KeyOrder.

(** X25.  For two timestamps of the years 0 to 9999 the day keys compare
    as texts the way the days compare: the text order that the sort of
    the keys and the range queries on dates use is the order of time. *)
Theorem day_keys_order (a b : Z) :
  -62167219200000 <= a < 253402300800000 ->
  -62167219200000 <= b < 253402300800000 ->
  (String.leb (Dates.toISODate a) (Dates.toISODate b) = true
   <-> a / Dates.ms_per_day <= b / Dates.ms_per_day) /\
  (Dates.toISODate a = Dates.toISODate b
   <-> a / Dates.ms_per_day = b / Dates.ms_per_day).
Proof.
  intros Ha Hb.
  destruct (toISODate_in_years a Ha) as [Wa Pa].
  destruct (toISODate_in_years b Hb) as [Wb Pb].
  split.
  - apply wf_date_leb_iff; assumption.
  - split.
    + intros E. rewrite E in Pa. congruence.
    + intros E. unfold Dates.toISODate. rewrite E. reflexivity.
Qed.

(** X25 on noon and the midnight before it. *)
Lemma day_keys_order_noon :
  String.leb (Dates.toISODate 1704412800000)
    (Dates.toISODate Scenario.noon_2024_01_05) = true
  <-> 1704412800000 / Dates.ms_per_day
      <= Scenario.noon_2024_01_05 / Dates.ms_per_day.
Proof.
  apply (day_keys_order 1704412800000 Scenario.noon_2024_01_05).
  - lia.
  - unfold Scenario.noon_2024_01_05. lia.
Defined.

(** X26.  In a zone whose clock does not change, when the dates of the
    documents are well-formed keys, [getFriendActivityWindow] returns the
    documents dated from [days] days before the UTC date of the clock to
    that date and no other, the later dates first. *)
Theorem getFriendActivityWindow_days (z : Dates.Zone) (now days : Z)
    (st : Logs.Store) :
  Dates.no_clock_change z ->
  0 <= days ->
  -62167219200000 <= now - days * Dates.ms_per_day ->
  now < 253402300800000 ->
  (forall r d, In r st -> Logs.date r = Some d -> Dates.wf_date d) ->
  (forall r,
     In r (Friends.getFriendActivityWindow z now days st) <->
     In r st /\
     Friends.dated_within (now / Dates.ms_per_day - days)
       (now / Dates.ms_per_day) r) /\
  StronglySorted Friends.later_first
    (Friends.getFriendActivityWindow z now days st).
Proof.
  intros Hz Hd Hlo Hhi Hwf.
  assert (Hms : 0 <= days * Dates.ms_per_day)
    by (unfold Dates.ms_per_day; lia).
  destruct (toISODate_in_years now) as [We Pe]; [lia|].
  destruct (toISODate_in_years (now - days * Dates.ms_per_day))
    as [Ws Ps]; [lia|].
  rewrite day_shift in Ps.
  unfold Friends.getFriendActivityWindow.
  rewrite (setDate_back_fixed z days now Hz). split.
  - intros r. rewrite filter_In, In_sort_date_desc, filter_In. split.
    + intros [[Hr Hq] Hle]. split; [exact Hr|].
      destruct (Logs.date r) as [d|] eqn:Ed; [|discriminate].
      pose proof (Hwf r d Hr Ed) as Wd.
      destruct (wf_date_parse d Wd) as [t [_ [_ Pd]]].
      rewrite (date_of_wf r d Ed Wd) in Hle.
      exists d, (Dates.days_from_civil t).
      split; [exact Ed|]. split; [exact Pd|]. split.
      * apply (wf_date_leb_iff _ _ _ _ Ws Wd Ps Pd). exact Hq.
      * apply (wf_date_leb_iff _ _ _ _ Wd We Pd Pe). exact Hle.
    + intros [Hr [d [n [Ed [Pd [Hn1 Hn2]]]]]].
      pose proof (Hwf r d Hr Ed) as Wd.
      rewrite (date_of_wf r d Ed Wd), Ed.
      split; [split; [exact Hr|]|].
      * apply (wf_date_leb_iff _ _ _ _ Ws Wd Ps Pd). exact Hn1.
      * apply (wf_date_leb_iff _ _ _ _ Wd We Pd Pe). exact Hn2.
  - apply StronglySorted_filter_keeps. apply sort_date_desc_sorted.
    intros y Hy. apply filter_In in Hy. destruct Hy as [Hy Hq].
    destruct (Logs.date y) as [d|] eqn:Ed; [|discriminate].
    rewrite (date_of_wf y d Ed (Hwf y d Hy Ed)). apply (Hwf y d Hy Ed).
Qed.

(** X26 on the last two days of three, in the zone of UTC. *)
Lemma getFriendActivityWindow_days_two :
  (forall r,
     In r (Friends.getFriendActivityWindow Dates.utc_zone
             Scenario.noon_2024_01_05 1 Scenario.up_to_today) <->
     In r Scenario.up_to_today /\
     Friends.dated_within (Scenario.noon_2024_01_05 / Dates.ms_per_day - 1)
       (Scenario.noon_2024_01_05 / Dates.ms_per_day) r) /\
  StronglySorted Friends.later_first
    (Friends.getFriendActivityWindow Dates.utc_zone
       Scenario.noon_2024_01_05 1 Scenario.up_to_today).
Proof.
  apply (getFriendActivityWindow_days Dates.utc_zone
           Scenario.noon_2024_01_05 1 Scenario.up_to_today).
  - exists 0. split; intros t; reflexivity.
  - lia.
  - unfold Scenario.noon_2024_01_05, Dates.ms_per_day. lia.
  - unfold Scenario.noon_2024_01_05. lia.
  - intros r d Hr Ed. simpl in Hr.
    destruct Hr as [Hr | [Hr | [Hr | []]]]; subst r;
      injection Ed as Ed; subst d.
    + exists 2024, 1, 4. repeat split; try lia; reflexivity.
    + exists 2024, 1, 5. repeat split; try lia; reflexivity.
    + exists 2024, 1, 3. repeat split; try lia; reflexivity.
Defined.

